(** * PEG stock valuation: a shallow embedding of [src/lib/valuation.js]
    and of the batch fan-out of [src/app.js]

    The development follows the source file top to bottom: the two fetch
    helpers, [getStockData], [calculatePeg],
    [getEstimatedEpsFromAlphaVantage] and [calculateStockValuation], then
    the batch route.  The external providers are a function from URLs to
    HTTP outcomes, so every definition is executable.

    Numbers.  A JavaScript number is modelled by [number]: a finite value
    is an exact rational, and the special values NaN, the two infinities
    and the negative zero are kept, since the code branches on them
    ([Number.isFinite], truthiness, comparisons that are false on NaN,
    division by a zero).  Rounding, overflow and underflow of binary64
    arithmetic are not modelled: products and quotients of finite values
    are exact, and [parseFloat] keeps the exact value of a decimal
    literal.  Strings are ASCII text: white space and letter case are
    those of ASCII. *)

From Stdlib Require Import QArith Qreduction Lqa.
From Stdlib Require Import ZArith Lia Bool List String Ascii.
From Stdlib Require Import DecimalString.
Import ListNotations.

Local Open Scope string_scope.
Local Open Scope list_scope.

(* ================================================================= *)
(** ** JavaScript numbers *)

Module JsNumber.

Local Open Scope Q_scope.

Inductive number : Type :=
| Fin (q : Q)        (* a finite value; [Fin 0] is the positive zero *)
| NegZero            (* -0 *)
| PosInf
| NegInf
| NaN.

(** The finite value carried by a number, if any. *)
Definition qval (x : number) : option Q :=
  match x with
  | Fin q => Some q
  | NegZero => Some 0
  | _ => None
  end.

Definition Qlt_bool (a b : Q) : bool := negb (Qle_bool b a).

(** Sign bit; NaN has none that the code can observe. *)
Definition signbit (x : number) : bool :=
  match x with
  | Fin q => Qlt_bool q 0
  | NegZero => true
  | NegInf => true
  | PosInf => false
  | NaN => false
  end.

Definition zero (neg : bool) : number := if neg then NegZero else Fin 0.
Definition inf (neg : bool) : number := if neg then NegInf else PosInf.

(** A finite result [q]; when it is zero its sign is [neg]. *)
Definition mkfin (neg : bool) (q : Q) : number :=
  if Qeq_bool q 0 then zero neg else Fin (Qred q).

Definition isNaN (x : number) : bool :=
  match x with NaN => true | _ => false end.

(** [Number.isFinite] on a number. *)
Definition isFiniteNum (x : number) : bool :=
  match x with Fin _ | NegZero => true | _ => false end.

Definition neg (x : number) : number :=
  match x with
  | Fin q => if Qeq_bool q 0 then NegZero else Fin (Qred (- q))
  | NegZero => Fin 0
  | PosInf => NegInf
  | NegInf => PosInf
  | NaN => NaN
  end.

Definition add (x y : number) : number :=
  if isNaN x || isNaN y then NaN else
  match qval x, qval y with
  | Some a, Some b =>
      if Qeq_bool (a + b) 0 then zero (signbit x && signbit y)
      else Fin (Qred (a + b))
  | Some _, None => y
  | None, Some _ => x
  | None, None => if Bool.eqb (signbit x) (signbit y) then x else NaN
  end.

Definition sub (x y : number) : number := add x (neg y).

Definition mul (x y : number) : number :=
  if isNaN x || isNaN y then NaN else
  let s := xorb (signbit x) (signbit y) in
  match qval x, qval y with
  | Some a, Some b => mkfin s (a * b)
  | Some a, None => if Qeq_bool a 0 then NaN else inf s
  | None, Some b => if Qeq_bool b 0 then NaN else inf s
  | None, None => inf s
  end.

Definition div (x y : number) : number :=
  if isNaN x || isNaN y then NaN else
  let s := xorb (signbit x) (signbit y) in
  match qval x, qval y with
  | Some a, Some b =>
      if Qeq_bool b 0 then (if Qeq_bool a 0 then NaN else inf s)
      else mkfin s (a / b)
  | Some _, None => zero s
  | None, Some _ => inf s
  | None, None => NaN
  end.

(** [x <= y]; false as soon as one side is NaN. *)
Definition leb (x y : number) : bool :=
  match x, y with
  | NaN, _ | _, NaN => false
  | NegInf, _ => true
  | _, PosInf => true
  | PosInf, _ => false
  | _, NegInf => false
  | _, _ =>
      match qval x, qval y with
      | Some a, Some b => Qle_bool a b
      | _, _ => false
      end
  end.

(** [x < y]; false as soon as one side is NaN. *)
Definition ltb (x y : number) : bool :=
  match x, y with
  | NaN, _ | _, NaN => false
  | PosInf, _ => false
  | _, NegInf => false
  | NegInf, _ => true
  | _, PosInf => true
  | _, _ =>
      match qval x, qval y with
      | Some a, Some b => Qlt_bool a b
      | _, _ => false
      end
  end.

(** [x === y] on numbers: NaN differs from everything, the zeros agree. *)
Definition eqb (x y : number) : bool :=
  match x, y with
  | NaN, _ | _, NaN => false
  | PosInf, PosInf => true
  | NegInf, NegInf => true
  | _, _ =>
      match qval x, qval y with
      | Some a, Some b => Qeq_bool a b
      | _, _ => false
      end
  end.

(** ToBoolean on a number: the zeros and NaN are falsy. *)
Definition truthyNum (x : number) : bool :=
  match x with
  | Fin q => negb (Qeq_bool q 0)
  | NegZero => false
  | NaN => false
  | _ => true
  end.

Definition ofZ (z : Z) : number := Fin (inject_Z z).
Definition ofNat (n : nat) : number := ofZ (Z.of_nat n).

End JsNumber.

Import JsNumber.

(* ================================================================= *)
(** ** Strings: the few [String.prototype] functions the code uses *)

Module JsString.

(** [s.includes(sub)] *)
Fixpoint includes (sub s : string) : bool :=
  String.prefix sub s ||
  match s with
  | EmptyString => false
  | String _ r => includes sub r
  end.

Definition isEmpty (s : string) : bool :=
  match s with EmptyString => true | _ => false end.

(** White space of [parseFloat] and [ToNumber], on ASCII text. *)
Definition isWhite (c : ascii) : bool :=
  let n := nat_of_ascii c in
  (n =? 9)%nat || (n =? 10)%nat || (n =? 11)%nat || (n =? 12)%nat
  || (n =? 13)%nat || (n =? 32)%nat.

Fixpoint trimStart (s : string) : string :=
  match s with
  | String c r => if isWhite c then trimStart r else s
  | EmptyString => EmptyString
  end.

Fixpoint trimEnd (s : string) : string :=
  match s with
  | EmptyString => EmptyString
  | String c r =>
      let r' := trimEnd r in
      if isWhite c && isEmpty r' then EmptyString else String c r'
  end.

Definition upperChar (c : ascii) : ascii :=
  let n := nat_of_ascii c in
  if (97 <=? n)%nat && (n <=? 122)%nat then ascii_of_nat (n - 32) else c.

(** [s.toUpperCase()], on ASCII text. *)
Fixpoint toUpperCase (s : string) : string :=
  match s with
  | EmptyString => EmptyString
  | String c r => String (upperChar c) (toUpperCase r)
  end.

(** The characters of a string as one-character strings, as iteration
    and indexing see them. *)
Fixpoint chars (s : string) : list string :=
  match s with
  | EmptyString => []
  | String c r => String c EmptyString :: chars r
  end.

Definition showNat (n : nat) : string :=
  NilEmpty.string_of_uint (Nat.to_uint n).

End JsString.

Import JsString.

(* ================================================================= *)
(** ** Numeric literals: [parseFloat] and [ToNumber] on strings *)

Module NumericLiteral.

Local Open Scope Q_scope.

Definition digitOf (base : nat) (c : ascii) : option nat :=
  let n := nat_of_ascii c in
  let d :=
    if (48 <=? n)%nat && (n <=? 57)%nat then Some (n - 48)%nat
    else if (97 <=? n)%nat && (n <=? 102)%nat then Some (n - 87)%nat
    else if (65 <=? n)%nat && (n <=? 70)%nat then Some (n - 55)%nat
    else None in
  match d with
  | Some v => if (v <? base)%nat then Some v else None
  | None => None
  end.

(** The longest run of digits at the head of [s], and what follows. *)
Fixpoint scanDigits (base : nat) (s : string) : list nat * string :=
  match s with
  | String c r =>
      match digitOf base c with
      | Some d => let (ds, rest) := scanDigits base r in (d :: ds, rest)
      | None => ([], s)
      end
  | EmptyString => ([], EmptyString)
  end.

Definition digitsValue (base : nat) (ds : list nat) : Z :=
  fold_left (fun acc d => (acc * Z.of_nat base + Z.of_nat d)%Z) ds 0%Z.

(** An optional ExponentPart; an incomplete one is not consumed. *)
Definition scanExponent (s : string) : Z * string :=
  match s with
  | String c r =>
      if (nat_of_ascii c =? 101)%nat || (nat_of_ascii c =? 69)%nat then
        let '(sgn, r1) :=
          match r with
          | String "+"%char r' => (1%Z, r')
          | String "-"%char r' => ((-1)%Z, r')
          | _ => (1%Z, r)
          end in
        match scanDigits 10 r1 with
        | ([], _) => (0%Z, s)
        | (ds, rest) => ((sgn * digitsValue 10 ds)%Z, rest)
        end
      else (0%Z, s)
  | EmptyString => (0%Z, s)
  end.

(** The longest prefix of [s] that is a StrUnsignedDecimalLiteral: its
    value ([None] for Infinity) and the rest of the string. *)
Definition scanUnsigned (s : string) : option (option Q * string) :=
  if String.prefix "Infinity" s
  then Some (None, String.substring 8 (String.length s - 8) s)
  else
    let (di, r1) := scanDigits 10 s in
    let '(df, r2) :=
      match r1 with
      | String "."%char r =>
          match di, scanDigits 10 r with
          | [], ([], _) => ([], r1)
          | _, (df, r') => (df, r')
          end
      | _ => ([], r1)
      end in
    match di, df with
    | [], [] => None
    | _, _ =>
        let (e, r3) := scanExponent r2 in
        let m := inject_Z (digitsValue 10 (di ++ df)) in
        Some (Some (m * Qpower (inject_Z 10) (e - Z.of_nat (List.length df))), r3)
    end.

(** The longest prefix that is a StrDecimalLiteral (an optional sign, then
    an unsigned literal), as a number. *)
Definition scanDecimal (s : string) : option (number * string) :=
  let '(negative, body) :=
    match s with
    | String "+"%char r => (false, r)
    | String "-"%char r => (true, r)
    | _ => (false, s)
    end in
  match scanUnsigned body with
  | Some (None, rest) => Some (inf negative, rest)
  | Some (Some q, rest) => Some (mkfin negative (if negative then - q else q), rest)
  | None => None
  end.

(** [parseFloat(s)] for a string [s]. *)
Definition parseFloatString (s : string) : number :=
  match scanDecimal (trimStart s) with
  | Some (x, _) => x
  | None => NaN
  end.

(** 0x, 0o and 0b integer literals of [ToNumber]. *)
Definition scanNonDecimal (s : string) : option (number * string) :=
  match s with
  | String "0"%char (String c r) =>
      let n := nat_of_ascii c in
      let base :=
        if (n =? 120)%nat || (n =? 88)%nat then Some 16%nat
        else if (n =? 111)%nat || (n =? 79)%nat then Some 8%nat
        else if (n =? 98)%nat || (n =? 66)%nat then Some 2%nat
        else None in
      match base with
      | Some b =>
          match scanDigits b r with
          | ([], _) => None
          | (ds, rest) => Some (ofZ (digitsValue b ds), rest)
          end
      | None => None
      end
  | _ => None
  end.

(** [ToNumber(s)] for a string [s]: the whole trimmed string must be a
    numeric literal, and the empty string is 0. *)
Definition stringToNumber (s : string) : number :=
  let t := trimEnd (trimStart s) in
  if isEmpty t then Fin 0 else
  match scanNonDecimal t with
  | Some (x, EmptyString) => x
  | _ =>
      match scanDecimal t with
      | Some (x, EmptyString) => x
      | _ => NaN
      end
  end.

End NumericLiteral.

Import NumericLiteral.

Example parseFloat_dec : parseFloatString "  6.05abc" = Fin (121 # 20).
Proof. reflexivity. Qed.
Example parseFloat_exp : parseFloatString "-1.5e2," = Fin (-150 # 1).
Proof. reflexivity. Qed.
Example parseFloat_exp_incomplete : parseFloatString "7e+" = Fin 7.
Proof. reflexivity. Qed.
Example parseFloat_dot : parseFloatString "." = NaN.
Proof. reflexivity. Qed.
Example parseFloat_dot5 : parseFloatString ".5" = Fin (1 # 2).
Proof. reflexivity. Qed.
Example parseFloat_5dot : parseFloatString "5.x" = Fin 5.
Proof. reflexivity. Qed.
Example parseFloat_negzero : parseFloatString "-0" = NegZero.
Proof. reflexivity. Qed.
Example parseFloat_inf : parseFloatString "-Infinityx" = NegInf.
Proof. reflexivity. Qed.
Example parseFloat_empty : parseFloatString "" = NaN.
Proof. reflexivity. Qed.
Example toNumber_hex : stringToNumber " 0x1F " = Fin 31.
Proof. reflexivity. Qed.
Example toNumber_junk : stringToNumber "12px" = NaN.
Proof. reflexivity. Qed.
Example toNumber_empty : stringToNumber "   " = Fin 0.
Proof. reflexivity. Qed.

(* ================================================================= *)
(** ** JSON values, as [response.json()] produces them *)

#[warnings="-register-all"]
Inductive jsval : Type :=
| JUndefined
| JNull
| JBool (b : bool)
| JNum (n : number)
| JStr (s : string)
| JArr (items : list jsval)
| JObj (fields : list (string * jsval)).

(** ToBoolean *)
Definition truthy (v : jsval) : bool :=
  match v with
  | JUndefined | JNull => false
  | JBool b => b
  | JNum n => truthyNum n
  | JStr s => negb (isEmpty s)
  | JArr _ | JObj _ => true
  end.

Definition isUndefined (v : jsval) : bool :=
  match v with JUndefined => true | _ => false end.

(** [parseFloat(v)]: the argument is first converted to a string.  A
    number prints and parses back to itself, but for -0, which prints as
    "0"; an array prints its elements separated by commas, so only its
    first element can contribute. *)
Fixpoint parseFloat (v : jsval) : number :=
  match v with
  | JNum NegZero => Fin 0
  | JNum n => n
  | JStr s => parseFloatString s
  | JArr (x :: _) =>
      match x with
      | JUndefined | JNull => NaN
      | _ => parseFloat x
      end
  | _ => NaN
  end.

(** ToNumber, as the relational operators apply it to an operand. *)
Fixpoint toNumber (v : jsval) : number :=
  match v with
  | JUndefined => NaN
  | JNull => Fin 0
  | JBool b => if b then Fin 1 else Fin 0
  | JNum n => n
  | JStr s => stringToNumber s
  | JArr [] => Fin 0
  | JArr [x] =>
      match x with
      | JUndefined | JNull => Fin 0
      | JNum NegZero => Fin 0
      | JBool _ => NaN
      | _ => toNumber x
      end
  | JArr _ => NaN
  | JObj _ => NaN
  end.

Fixpoint lookup (k : string) (fields : list (string * jsval)) : jsval :=
  match fields with
  | [] => JUndefined
  | (k', v) :: rest => if String.eqb k k' then v else lookup k rest
  end.

(** ** Completions: a value, or a thrown [Error] with its message *)

Inductive Completion (A : Type) : Type :=
| Normal (a : A)
| Throw (message : string).

Arguments Normal {A} a.
Arguments Throw {A} message.

Definition bind {A B} (c : Completion A) (k : A -> Completion B) : Completion B :=
  match c with
  | Normal a => k a
  | Throw m => Throw m
  end.

(** [try { c } catch (error) { handler(error.message) }] *)
Definition tryCatch {A} (c : Completion A) (handler : string -> Completion A)
  : Completion A :=
  match c with
  | Normal a => Normal a
  | Throw m => handler m
  end.

Notation "x <- c ;; k" := (bind c (fun x => k))
  (at level 61, c at next level, right associativity).

(** The message of the TypeError raised by reading a property of
    [undefined] or [null]. *)
Definition typeErrorRead (base : jsval) (prop : string) : string :=
  "Cannot read properties of "
  ++ (match base with JNull => "null" | _ => "undefined" end)
  ++ " (reading '" ++ prop ++ "')".

(** [v.k], for the data properties the code reads. *)
Definition getProp (v : jsval) (k : string) : Completion jsval :=
  match v with
  | JUndefined | JNull => Throw (typeErrorRead v k)
  | JObj fields => Normal (lookup k fields)
  | JArr items =>
      Normal (if String.eqb k "length" then JNum (ofNat (List.length items))
              else JUndefined)
  | JStr s =>
      Normal (if String.eqb k "length" then JNum (ofNat (String.length s))
              else JUndefined)
  | JBool _ | JNum _ => Normal JUndefined
  end.

(** [v[0]] *)
Definition getIndex0 (v : jsval) : Completion jsval :=
  match v with
  | JUndefined | JNull => Throw (typeErrorRead v "0")
  | JArr items => Normal (hd JUndefined items)
  | JStr s => Normal (hd JUndefined (map JStr (chars s)))
  | JObj fields => Normal (lookup "0" fields)
  | JBool _ | JNum _ => Normal JUndefined
  end.

(** The values [for (const x of v)] visits; a value that is not
    iterable raises a TypeError. *)
Definition iterate (v : jsval) : Completion (list jsval) :=
  match v with
  | JArr items => Normal items
  | JStr s => Normal (map JStr (chars s))
  | _ => Throw "data.estimates is not iterable"
  end.

(** ** The network: what [fetch(url)] and [response.json()] do *)

Inductive HttpOutcome : Type :=
| FetchRejected (message : string)
| HttpResponse (status : nat) (body : Completion jsval).

Definition Network : Type := string -> HttpOutcome.

(** [response.ok] *)
Definition responseOk (status : nat) : bool :=
  (200 <=? status)%nat && (status <=? 299)%nat.

(** ** Records of the valuation module *)

(** The local variables of [getStockData], which it returns as one
    object; [None] is [null]. *)
Record StockData : Type := mkStockData {
  sd_beta : option number;
  sd_actualEps : option number;
  sd_estimatedEps : option number;
  sd_price : option number;
  sd_pe : option number;
  sd_warnings : list string
}.

(** What [getEstimatedEpsFromAlphaVantage] returns when it finds one. *)
Record Estimate : Type := mkEstimate {
  eps : number;
  period : jsval
}.

Record Assumptions : Type := mkAssumptions {
  marketGrowthRatePercent : jsval;
  notes : list string
}.

(** The result object of [calculateStockValuation]; [None] is [null]. *)
Record ValuationResult : Type := mkResult {
  symbol : string;
  market : string;
  marketPe : option number;
  marketPeg : option number;
  beta : option number;
  actualEps : option number;
  estimatedEps : option number;
  stockPe : option number;
  growthRate : option number;
  stockPeg : option number;
  currentPrice : option number;
  fairValue : option number;
  assumptions : Assumptions;
  warnings : list string;
  hasForwardEps : bool;
  betaFallbackUsed : bool;
  valuationPossible : bool
}.

(** The parameter object of [calculateStockValuation]; [None] is a
    property that is [undefined] and takes its default. *)
Record Params : Type := mkParams {
  p_symbol : string;
  p_finnhubApiKey : string;
  p_alphaVantageApiKey : option string;
  p_market : option string;
  p_marketGrowthRatePercent : option jsval
}.

(** [Number.isFinite] on a value that is a number or [null]. *)
Definition isFinite (x : option number) : bool :=
  match x with
  | Some n => isFiniteNum n
  | None => false
  end.

(** ToBoolean on a value that is a number or [null]. *)
Definition truthyOpt (x : option number) : bool :=
  match x with
  | Some n => truthyNum n
  | None => false
  end.

(** ** Assignments to the fields of the two mutable objects *)

Definition set_marketPe (v : option number) (r : ValuationResult) : ValuationResult :=
  mkResult (symbol r) (market r) v (marketPeg r) (beta r) (actualEps r) (estimatedEps r) (stockPe r) (growthRate r) (stockPeg r) (currentPrice r) (fairValue r) (assumptions r) (warnings r) (hasForwardEps r) (betaFallbackUsed r) (valuationPossible r).

Definition set_marketPeg (v : option number) (r : ValuationResult) : ValuationResult :=
  mkResult (symbol r) (market r) (marketPe r) v (beta r) (actualEps r) (estimatedEps r) (stockPe r) (growthRate r) (stockPeg r) (currentPrice r) (fairValue r) (assumptions r) (warnings r) (hasForwardEps r) (betaFallbackUsed r) (valuationPossible r).

Definition set_beta (v : option number) (r : ValuationResult) : ValuationResult :=
  mkResult (symbol r) (market r) (marketPe r) (marketPeg r) v (actualEps r) (estimatedEps r) (stockPe r) (growthRate r) (stockPeg r) (currentPrice r) (fairValue r) (assumptions r) (warnings r) (hasForwardEps r) (betaFallbackUsed r) (valuationPossible r).

Definition set_actualEps (v : option number) (r : ValuationResult) : ValuationResult :=
  mkResult (symbol r) (market r) (marketPe r) (marketPeg r) (beta r) v (estimatedEps r) (stockPe r) (growthRate r) (stockPeg r) (currentPrice r) (fairValue r) (assumptions r) (warnings r) (hasForwardEps r) (betaFallbackUsed r) (valuationPossible r).

Definition set_estimatedEps (v : option number) (r : ValuationResult) : ValuationResult :=
  mkResult (symbol r) (market r) (marketPe r) (marketPeg r) (beta r) (actualEps r) v (stockPe r) (growthRate r) (stockPeg r) (currentPrice r) (fairValue r) (assumptions r) (warnings r) (hasForwardEps r) (betaFallbackUsed r) (valuationPossible r).

Definition set_stockPe (v : option number) (r : ValuationResult) : ValuationResult :=
  mkResult (symbol r) (market r) (marketPe r) (marketPeg r) (beta r) (actualEps r) (estimatedEps r) v (growthRate r) (stockPeg r) (currentPrice r) (fairValue r) (assumptions r) (warnings r) (hasForwardEps r) (betaFallbackUsed r) (valuationPossible r).

Definition set_growthRate (v : option number) (r : ValuationResult) : ValuationResult :=
  mkResult (symbol r) (market r) (marketPe r) (marketPeg r) (beta r) (actualEps r) (estimatedEps r) (stockPe r) v (stockPeg r) (currentPrice r) (fairValue r) (assumptions r) (warnings r) (hasForwardEps r) (betaFallbackUsed r) (valuationPossible r).

Definition set_stockPeg (v : option number) (r : ValuationResult) : ValuationResult :=
  mkResult (symbol r) (market r) (marketPe r) (marketPeg r) (beta r) (actualEps r) (estimatedEps r) (stockPe r) (growthRate r) v (currentPrice r) (fairValue r) (assumptions r) (warnings r) (hasForwardEps r) (betaFallbackUsed r) (valuationPossible r).

Definition set_currentPrice (v : option number) (r : ValuationResult) : ValuationResult :=
  mkResult (symbol r) (market r) (marketPe r) (marketPeg r) (beta r) (actualEps r) (estimatedEps r) (stockPe r) (growthRate r) (stockPeg r) v (fairValue r) (assumptions r) (warnings r) (hasForwardEps r) (betaFallbackUsed r) (valuationPossible r).

Definition set_fairValue (v : option number) (r : ValuationResult) : ValuationResult :=
  mkResult (symbol r) (market r) (marketPe r) (marketPeg r) (beta r) (actualEps r) (estimatedEps r) (stockPe r) (growthRate r) (stockPeg r) (currentPrice r) v (assumptions r) (warnings r) (hasForwardEps r) (betaFallbackUsed r) (valuationPossible r).

Definition set_warnings (v : list string) (r : ValuationResult) : ValuationResult :=
  mkResult (symbol r) (market r) (marketPe r) (marketPeg r) (beta r) (actualEps r) (estimatedEps r) (stockPe r) (growthRate r) (stockPeg r) (currentPrice r) (fairValue r) (assumptions r) v (hasForwardEps r) (betaFallbackUsed r) (valuationPossible r).

Definition set_hasForwardEps (v : bool) (r : ValuationResult) : ValuationResult :=
  mkResult (symbol r) (market r) (marketPe r) (marketPeg r) (beta r) (actualEps r) (estimatedEps r) (stockPe r) (growthRate r) (stockPeg r) (currentPrice r) (fairValue r) (assumptions r) (warnings r) v (betaFallbackUsed r) (valuationPossible r).

Definition set_betaFallbackUsed (v : bool) (r : ValuationResult) : ValuationResult :=
  mkResult (symbol r) (market r) (marketPe r) (marketPeg r) (beta r) (actualEps r) (estimatedEps r) (stockPe r) (growthRate r) (stockPeg r) (currentPrice r) (fairValue r) (assumptions r) (warnings r) (hasForwardEps r) v (valuationPossible r).

Definition set_valuationPossible (v : bool) (r : ValuationResult) : ValuationResult :=
  mkResult (symbol r) (market r) (marketPe r) (marketPeg r) (beta r) (actualEps r) (estimatedEps r) (stockPe r) (growthRate r) (stockPeg r) (currentPrice r) (fairValue r) (assumptions r) (warnings r) (hasForwardEps r) (betaFallbackUsed r) v.

Definition set_sd_beta (v : option number) (d : StockData) : StockData :=
  mkStockData v (sd_actualEps d) (sd_estimatedEps d) (sd_price d) (sd_pe d) (sd_warnings d).

Definition set_sd_actualEps (v : option number) (d : StockData) : StockData :=
  mkStockData (sd_beta d) v (sd_estimatedEps d) (sd_price d) (sd_pe d) (sd_warnings d).

Definition set_sd_estimatedEps (v : option number) (d : StockData) : StockData :=
  mkStockData (sd_beta d) (sd_actualEps d) v (sd_price d) (sd_pe d) (sd_warnings d).

Definition set_sd_price (v : option number) (d : StockData) : StockData :=
  mkStockData (sd_beta d) (sd_actualEps d) (sd_estimatedEps d) v (sd_pe d) (sd_warnings d).

Definition set_sd_pe (v : option number) (d : StockData) : StockData :=
  mkStockData (sd_beta d) (sd_actualEps d) (sd_estimatedEps d) (sd_price d) v (sd_warnings d).

Definition set_sd_warnings (v : list string) (d : StockData) : StockData :=
  mkStockData (sd_beta d) (sd_actualEps d) (sd_estimatedEps d) (sd_price d) (sd_pe d) v.

(** [warnings.push(w)] *)
Definition push_warning (w : string) (r : ValuationResult) : ValuationResult :=
  set_warnings (warnings r ++ [w]) r.

Definition sd_push_warning (w : string) (d : StockData) : StockData :=
  set_sd_warnings (sd_warnings d ++ [w]) d.

(** ToNumber on a value that is a number or [null]. *)
Definition num (x : option number) : number :=
  match x with
  | Some n => n
  | None => Fin 0
  end.

(** ** Statements that mutate an object and may throw

    A block of statements working on a mutable object of type [S] maps
    the object to its state when the block ends, together with how it
    ended.  An exception leaves the assignments made before it. *)

Definition M (S A : Type) : Type := S -> Completion A * S.

Definition retM {S A} (a : A) : M S A := fun s => (Normal a, s).

Definition bindM {S A B} (c : M S A) (k : A -> M S B) : M S B :=
  fun s =>
    match c s with
    | (Normal a, s') => k a s'
    | (Throw m, s') => (Throw m, s')
    end.

Definition throwM {S A} (m : string) : M S A := fun s => (Throw m, s).

Definition liftM {S A} (c : Completion A) : M S A := fun s => (c, s).

Definition getM {S} : M S S := fun s => (Normal s, s).

Definition modify {S} (f : S -> S) : M S unit := fun s => (Normal tt, f s).

Definition tryCatchM {S A} (c : M S A) (handler : string -> M S A) : M S A :=
  fun s =>
    match c s with
    | (Normal a, s') => (Normal a, s')
    | (Throw m, s') => handler m s'
    end.

Declare Scope stmt_scope.
Delimit Scope stmt_scope with stmt.

Notation "x <~ c ;; k" := (bindM c (fun x => k))
  (at level 61, c at next level, right associativity) : stmt_scope.
Notation "c ;;; k" := (bindM c (fun _ => k))
  (at level 61, right associativity) : stmt_scope.

(* ================================================================= *)
(** ** [src/lib/valuation.js] *)

Section Valuation.

(** Number-to-string conversion of the engine, used only where a fetched
    value is spliced into a message. *)
Variable showNumber : number -> string.

(** The providers, as seen through [fetch]. *)
Variable net : Network.

Local Open Scope string_scope.
Local Open Scope stmt_scope.

(** ToString, as a template literal applies it. *)
Fixpoint toString (v : jsval) : string :=
  match v with
  | JUndefined => "undefined"
  | JNull => "null"
  | JBool b => if b then "true" else "false"
  | JNum n => showNumber n
  | JStr s => s
  | JObj _ => "[object Object]"
  | JArr items =>
      let element x :=
        match x with
        | JUndefined | JNull => ""
        | _ => toString x
        end in
      (fix join (l : list jsval) : string :=
         match l with
         | [] => ""
         | x :: rest =>
             match rest with
             | [] => element x
             | _ => element x ++ "," ++ join rest
             end
         end) items
  end.

(** [fetchFinnhub(url)], lines 8-19. *)
Definition fetchFinnhub (url : string) : Completion jsval :=
  tryCatch
    match net url with
    | FetchRejected m => Throw m
    | HttpResponse status body =>
        if negb (responseOk status)
        then Throw ("API returned status " ++ showNat status)
        else body
    end
    (fun m => Throw ("Finnhub API call failed: " ++ m)).

(** [fetchAlphaVantage(url)], lines 22-39. *)
Definition fetchAlphaVantage (url : string) : Completion jsval :=
  tryCatch
    (data <-
       match net url with
       | FetchRejected m => Throw m
       | HttpResponse status body =>
           if negb (responseOk status)
           then Throw ("API returned status " ++ showNat status)
           else body
       end ;;
     note <- getProp data "Note" ;;
     if truthy note
     then Throw ("API rate limit exceeded: " ++ toString note)
     else
       err <- getProp data "Error" ;;
       if truthy err
          && negb (match err with JStr s => String.eqb s "None" | _ => false end)
       then Throw (toString err)
       else Normal data)
    (fun m => Throw ("Alpha Vantage API call failed: " ++ m)).

(** [getMarketPe(market, apiKey)], lines 42-66.  Its call is commented
    out in [calculateStockValuation]. *)
Definition getMarketPe (market apiKey : string) : Completion number :=
  let etfSymbol := if String.eqb market "HK" then "2800" else "SPY" in
  let url := "https://finnhub.io/api/v1/stock/metric?symbol=" ++ etfSymbol
             ++ "&metric=all&token=" ++ apiKey in
  tryCatch
    (data <- fetchFinnhub url ;;
     metric <- getProp data "metric" ;;
     pe <-
       (if truthy metric then
          normalized <- getProp metric "peNormalizedAnnual" ;;
          if negb (isUndefined normalized)
          then Normal (Some (parseFloat normalized))
          else
            annual <- getProp metric "peAnnual" ;;
            if negb (isUndefined annual)
            then Normal (Some (parseFloat annual))
            else Normal None
        else Normal None) ;;
     if negb (isFinite pe) || leb (num pe) (Fin 0)
     then Throw ("Invalid PE ratio for " ++ etfSymbol ++ ": "
                 ++ match pe with Some n => showNumber n | None => "null" end)
     else Normal (num pe))
    (fun m => Throw ("Failed to get market PE for " ++ market ++ ": " ++ m)).

(** *** [getStockData(symbol, finnhubApiKey)], lines 69-179 *)

Definition quoteUrl (symbol key : string) : string :=
  "https://finnhub.io/api/v1/quote?symbol=" ++ symbol ++ "&token=" ++ key.

Definition metricsUrl (symbol key : string) : string :=
  "https://finnhub.io/api/v1/stock/metric?symbol=" ++ symbol
  ++ "&metric=all&token=" ++ key.

Definition financialsUrl (symbol key : string) : string :=
  "https://finnhub.io/api/v1/stock/financials-reported?symbol=" ++ symbol
  ++ "&freq=annual&token=" ++ key.

(** Lines 70-75: the locals before anything is fetched. *)
Definition initialStockData : StockData :=
  mkStockData None None None None None [].

(** Lines 78-88: the current price, or a fatal error. *)
Definition quoteBlock (symbol key : string) : M StockData unit :=
  tryCatchM
    (quoteData <~ liftM (fetchFinnhub (quoteUrl symbol key)) ;;
     c <~ liftM (getProp quoteData "c") ;;
     modify (set_sd_price (Some (parseFloat c))) ;;;
     d <~ getM ;;
     if negb (isFinite (sd_price d)) || leb (num (sd_price d)) (Fin 0)
     then throwM ("Invalid price for " ++ symbol ++ ": " ++ toString c)
     else retM tt)
    (fun m => throwM ("Failed to get quote for " ++ symbol ++ ": " ++ m)).

(** Lines 99-105: the PE ratio, by priority of field. *)
Definition extractPe (metrics : jsval) : M StockData unit :=
  peTTM <~ liftM (getProp metrics "peTTM") ;;
  if negb (isUndefined peTTM)
  then modify (set_sd_pe (Some (parseFloat peTTM)))
  else
    peExclExtraTTM <~ liftM (getProp metrics "peExclExtraTTM") ;;
    if negb (isUndefined peExclExtraTTM)
    then modify (set_sd_pe (Some (parseFloat peExclExtraTTM)))
    else
      peAnnual <~ liftM (getProp metrics "peAnnual") ;;
      if negb (isUndefined peAnnual)
      then modify (set_sd_pe (Some (parseFloat peAnnual)))
      else retM tt.

(** Lines 108-114: the trailing EPS, by priority of field. *)
Definition extractEps (metrics : jsval) : M StockData unit :=
  epsTTM <~ liftM (getProp metrics "epsTTM") ;;
  if negb (isUndefined epsTTM)
  then modify (set_sd_actualEps (Some (parseFloat epsTTM)))
  else
    epsExclExtraItemsTTM <~ liftM (getProp metrics "epsExclExtraItemsTTM") ;;
    if negb (isUndefined epsExclExtraItemsTTM)
    then modify (set_sd_actualEps (Some (parseFloat epsExclExtraItemsTTM)))
    else
      epsAnnual <~ liftM (getProp metrics "epsAnnual") ;;
      if negb (isUndefined epsAnnual)
      then modify (set_sd_actualEps (Some (parseFloat epsAnnual)))
      else retM tt.

(** Lines 125-131: beta, when the payload has a truthy one. *)
Definition extractBeta (metrics : jsval) : M StockData unit :=
  rawBeta <~ liftM (getProp metrics "beta") ;;
  if truthy rawBeta then
    modify (set_sd_beta (Some (parseFloat rawBeta))) ;;;
    d <~ getM ;;
    if negb (isFinite (sd_beta d)) || ltb (num (sd_beta d)) (Fin 0)
    then
      modify (set_sd_beta None) ;;;
      modify (sd_push_warning "Beta value was invalid; using fallback.")
    else retM tt
  else retM tt.

(** Lines 91-135: the metrics, whose failure is only a warning. *)
Definition metricsBlock (symbol key : string) : M StockData unit :=
  tryCatchM
    (metricsData <~ liftM (fetchFinnhub (metricsUrl symbol key)) ;;
     metrics <~ liftM (getProp metricsData "metric") ;;
     if truthy metrics then
       extractPe metrics ;;;
       extractEps metrics ;;;
       d <~ getM ;;
       (if isFinite (sd_pe d) && leb (num (sd_pe d)) (Fin 0)
        then modify (set_sd_pe None) else retM tt) ;;;
       d <~ getM ;;
       (if negb (isFinite (sd_actualEps d))
        then modify (set_sd_actualEps None) else retM tt) ;;;
       extractBeta metrics
     else retM tt)
    (fun m =>
       modify (sd_push_warning
         ("Could not fetch metrics; some data may be unavailable: " ++ m))).

(** Lines 138-159: the net-income fallback for a falsy trailing EPS. *)
Definition financialsBlock (symbol key : string) : M StockData unit :=
  d <~ getM ;;
  if negb (truthyOpt (sd_actualEps d)) then
    tryCatchM
      (financialsData <~ liftM (fetchFinnhub (financialsUrl symbol key)) ;;
       data <~ liftM (getProp financialsData "data") ;;
       nonEmpty <~
         (if truthy data then
            len <~ liftM (getProp data "length") ;;
            retM (ltb (Fin 0) (toNumber len))
          else retM false) ;;
       if nonEmpty then
         latestFiling <~ liftM (getIndex0 data) ;;
         report <~ liftM (getProp latestFiling "report") ;;
         if truthy report then
           ic <~ liftM (getProp report "ic") ;;
           if truthy ic then
             rawIncome <~ liftM (getProp ic "NetIncomeLoss") ;;
             if truthy rawIncome then
               let netIncome := parseFloat rawIncome in
               if isFiniteNum netIncome && negb (JsNumber.eqb netIncome (Fin 0))
               then
                 modify (set_sd_actualEps (Some netIncome)) ;;;
                 modify (sd_push_warning
                   "Actual EPS derived from reported net income (not per share basis).")
               else retM tt
             else retM tt
           else retM tt
         else retM tt
       else retM tt)
      (fun m => modify (sd_push_warning ("Could not fetch financials: " ++ m)))
  else retM tt.

(** Lines 163-169: the forward EPS is left to the other provider, and a
    missing beta takes its default. *)
Definition defaultsBlock : M StockData unit :=
  modify (set_sd_estimatedEps None) ;;;
  d <~ getM ;;
  match sd_beta d with
  | None =>
      modify (set_sd_beta (Some (Fin 1))) ;;;
      modify (sd_push_warning "Beta value unavailable; using default beta = 1.0")
  | Some _ => retM tt
  end.

Definition getStockData (symbol finnhubApiKey : string) : Completion StockData :=
  let '(c, d) :=
    (quoteBlock symbol finnhubApiKey ;;;
     metricsBlock symbol finnhubApiKey ;;;
     financialsBlock symbol finnhubApiKey ;;;
     defaultsBlock) initialStockData in
  match c with
  | Normal _ => Normal d
  | Throw m => Throw m
  end.

(** [calculatePeg(pe, growthRateDecimal)], lines 182-187; [None] is
    [null]. *)
Definition calculatePeg (pe growthRateDecimal : option number) : option number :=
  if leb (num growthRateDecimal) (Fin 0)
     || negb (isFinite pe) || leb (num pe) (Fin 0)
  then None
  else Some (div (num pe) (mul (num growthRateDecimal) (Fin 100))).

(** *** [getEstimatedEpsFromAlphaVantage(symbol, apiKey)], lines 190-211 *)

Definition estimatesUrl (symbol apiKey : string) : string :=
  "https://www.alphavantage.co/query?function=EARNINGS_ESTIMATES&symbol="
  ++ symbol ++ "&apikey=" ++ apiKey.

(** Lines 197-204: the loop over the estimates; [Normal None] when it
    runs to its end. *)
Fixpoint scanEstimates (estimates : list jsval) : Completion (option Estimate) :=
  match estimates with
  | [] => Normal None
  | estimate :: rest =>
      date <- getProp estimate "date" ;;
      average <-
        (if truthy date then getProp estimate "eps_estimate_average"
         else Normal JUndefined) ;;
      if truthy date && truthy average then
        let estimatedEps := parseFloat average in
        if isFiniteNum estimatedEps && ltb (Fin 0) estimatedEps
        then Normal (Some (mkEstimate estimatedEps date))
        else scanEstimates rest
      else scanEstimates rest
  end.

Definition getEstimatedEpsFromAlphaVantage (symbol apiKey : string)
  : Completion (option Estimate) :=
  tryCatch
    (data <- fetchAlphaVantage (estimatesUrl symbol apiKey) ;;
     estimates <- getProp data "estimates" ;;
     nonEmpty <-
       (if truthy estimates then
          len <- getProp estimates "length" ;;
          Normal (ltb (Fin 0) (toNumber len))
        else Normal false) ;;
     if nonEmpty then
       items <- iterate estimates ;;
       scanEstimates items
     else Normal None)
    (fun _ => Normal None).

(** *** [calculateStockValuation(params)], lines 223-342 *)

(** Lines 232-260: the result object before the [try] block. *)
Definition initialResult (params : Params) : ValuationResult :=
  let market := match p_market params with Some m => m | None => "US" end in
  let growth :=
    match p_marketGrowthRatePercent params with
    | Some g => g
    | None => JNum (Fin 10)
    end in
  {| symbol := p_symbol params;
     market := market;
     marketPe := None;
     marketPeg := None;
     beta := None;
     actualEps := None;
     estimatedEps := None;
     stockPe := None;
     growthRate := None;
     stockPeg := None;
     currentPrice := None;
     fairValue := None;
     assumptions :=
       {| marketGrowthRatePercent := growth;
          notes :=
            [ "Market PE obtained from "
                ++ (if String.eqb market "HK" then "2800" else "SPY")
                ++ " ETF via Finnhub";
              "Growth rate calculated as estimatedEps / actualEps - 1";
              "PEG formulas follow standard definition (PE divided by earnings growth in percent)";
              "Fair value = price * (market PEG * beta / stock PEG)";
              "Stock metrics from Finnhub API (https://finnhub.io/docs/api/)";
              "Estimated EPS from Alpha Vantage (https://www.alphavantage.co/documentation/#earnings-estimates)"
            ] |};
     warnings := [];
     hasForwardEps := false;
     betaFallbackUsed := false;
     valuationPossible := false |}.

(** ToBoolean on the optional API key. *)
Definition truthyKey (k : option string) : bool :=
  match k with
  | Some s => negb (isEmpty s)
  | None => false
  end.

(** Lines 263-284: the benchmark, the fundamentals and the forward
    estimate, copied into the result. *)
Definition fetchStage (params : Params) : M ValuationResult StockData :=
  modify (set_marketPe (Some (Fin 29))) ;;;
  modify (fun r => set_marketPeg (Some (div (num (marketPe r)) (Fin (27 # 2)))) r) ;;;
  stockData <~ liftM (getStockData (p_symbol params) (p_finnhubApiKey params)) ;;
  modify (set_beta (sd_beta stockData)) ;;;
  modify (set_actualEps (sd_actualEps stockData)) ;;;
  modify (set_estimatedEps (sd_estimatedEps stockData)) ;;;
  modify (set_currentPrice (sd_price stockData)) ;;;
  modify (fun r => set_warnings (warnings r ++ sd_warnings stockData)%list r) ;;;
  r <~ getM ;;
  (if negb (isFinite (estimatedEps r)) && truthyKey (p_alphaVantageApiKey params)
   then
     alphaEstimate <~
       liftM (getEstimatedEpsFromAlphaVantage (p_symbol params)
                (match p_alphaVantageApiKey params with Some k => k | None => "" end)) ;;
     match alphaEstimate with
     | Some e =>
         modify (set_estimatedEps (Some (eps e))) ;;;
         modify (push_warning
           ("Estimated EPS from Alpha Vantage for period " ++ toString (period e)))
     | None => retM tt
     end
   else retM tt) ;;;
  retM stockData.

(** [stockData.warnings.some(w => w.includes(text))] *)
Definition someIncludes (text : string) (ws : list string) : bool :=
  existsb (includes text) ws.

(** Lines 317-334: the stock PEG and the fair value. *)
Definition pegAndFairValue : M ValuationResult unit :=
  r <~ getM ;;
  if leb (num (growthRate r)) (Fin 0) || leb (num (stockPe r)) (Fin 0) then
    modify (push_warning "Growth rate or PE is non-positive; PEG-based valuation not meaningful.") ;;;
    modify (set_valuationPossible false)
  else
    modify (fun r => set_stockPeg (calculatePeg (stockPe r) (growthRate r)) r) ;;;
    r <~ getM ;;
    if match stockPeg r with None => true | Some _ => false end
       || leb (num (stockPeg r)) (Fin 0)
    then
      modify (push_warning "PEG calculation resulted in non-positive value; valuation not possible.") ;;;
      modify (set_valuationPossible false)
    else
      modify (fun r => set_fairValue
                (Some (mul (num (currentPrice r))
                         (div (add (num (marketPeg r))
                                 (mul (mul (sub (num (beta r)) (Fin 1)) (Fin (7 # 10)))
                                    (num (marketPeg r))))
                            (num (stockPeg r))))) r) ;;;
      modify (set_valuationPossible true).

(** Lines 286-291: whether beta was fetched or defaulted. *)
Definition betaFlagBlock (stockData : StockData) : M ValuationResult unit :=
  if negb (JsNumber.eqb (num (sd_beta stockData)) (Fin 1))
     || someIncludes "default" (sd_warnings stockData)
  then
    if someIncludes "default beta" (sd_warnings stockData)
    then modify (set_betaFallbackUsed true)
    else retM tt
  else retM tt.

(** Lines 286-334: the flag, the checks and the fair value.  A branch
    that ends in [return result] ends the block. *)
Definition valuationSteps (stockData : StockData) : M ValuationResult unit :=
  betaFlagBlock stockData ;;;
  r <~ getM ;;
  if negb (isFinite (actualEps r)) || negb (isFinite (estimatedEps r)) then
    modify (push_warning "Missing or invalid EPS data; valuation cannot be completed. Finnhub free API may not provide detailed EPS estimates.") ;;;
    modify (set_valuationPossible false)
  else
    modify (set_hasForwardEps true) ;;;
    modify (fun r => set_growthRate
              (Some (sub (div (num (estimatedEps r)) (num (actualEps r))) (Fin 1))) r) ;;;
    r <~ getM ;;
    match sd_pe stockData with
    | Some _ =>
        modify (set_stockPe (sd_pe stockData)) ;;;
        pegAndFairValue
    | None =>
        if truthyOpt (currentPrice r) && truthyOpt (actualEps r) then
          modify (fun r => set_stockPe
                    (Some (div (num (currentPrice r)) (num (actualEps r)))) r) ;;;
          modify (push_warning "PE calculated from price / actualEps (not from API).") ;;;
          pegAndFairValue
        else
          modify (push_warning "Cannot calculate PE; price or EPS missing.") ;;;
          modify (set_valuationPossible false)
    end.

(** Lines 263-334: the body of the [try] block. *)
Definition valuationBody (params : Params) : M ValuationResult unit :=
  stockData <~ fetchStage params ;;
  valuationSteps stockData.

Definition calculateStockValuation (params : Params) : Completion ValuationResult :=
  let '(c, result) :=
    tryCatchM
      (valuationBody params)
      (fun m =>
         modify (push_warning ("Error during calculation: " ++ m)) ;;;
         modify (set_valuationPossible false))
      (initialResult params) in
  match c with
  | Normal _ => Normal result
  | Throw m => Throw m
  end.

(* ================================================================= *)
(** ** [src/app.js]: the batch route, lines 191-250 *)

(** One entry of [results]: the valuation result, or the object the
    [.catch] handler of lines 228-232 builds. *)
Inductive BatchItem : Type :=
| ItemResult (result : ValuationResult)
| ItemError (symbol : string) (error : string) (valuationPossible : bool).

(** The response of the route, without its time stamp. *)
Inductive BatchResponse : Type :=
| BadRequest (message : string)
| BatchOk (count : nat) (results : list BatchItem).

(** [s.split(',')] *)
Fixpoint split (sep : ascii) (s : string) : list string :=
  match s with
  | EmptyString => [EmptyString]
  | String c r =>
      if Ascii.eqb c sep then EmptyString :: split sep r
      else
        match split sep r with
        | h :: t => String c h :: t
        | [] => [String c EmptyString]
        end
  end.

(** [s.trim()] *)
Definition trim (s : string) : string := trimEnd (trimStart s).

(** [list.map((x, index) => f(x, index))], counting from [start]. *)
Fixpoint mapIndexed {A B} (f : A -> nat -> B) (start : nat) (l : list A) : list B :=
  match l with
  | [] => []
  | x :: rest => f x start :: mapIndexed f (S start) rest
  end.

(** Lines 222-232: the valuation of one symbol of the list. *)
Definition valuationItem (finnhubApiKey : string) (alphaVantageApiKey : option string)
    (marketList : list string) (marketGrowthRatePercent : jsval)
    (symbol : string) (index : nat) : BatchItem :=
  let market :=
    match nth_error marketList index with
    | Some m => if isEmpty m then "US" else m
    | None => "US"
    end in
  let growth :=
    let g := parseFloat marketGrowthRatePercent in
    if truthyNum g then g else Fin 10 in
  match
    calculateStockValuation
      {| p_symbol := toUpperCase symbol;
         p_finnhubApiKey := finnhubApiKey;
         p_alphaVantageApiKey := alphaVantageApiKey;
         p_market := Some market;
         p_marketGrowthRatePercent := Some (JNum growth) |}
  with
  | Normal result => ItemResult result
  | Throw message => ItemError symbol message false
  end.

(** Lines 220-234: [Promise.all] over the list.  The valuations share no
    state, so their interleaving is not observable and the list of
    results is the map of the items. *)
Definition batchResults (finnhubApiKey : string) (alphaVantageApiKey : option string)
    (marketGrowthRatePercent : jsval) (symbolList marketList : list string)
  : list BatchItem :=
  mapIndexed
    (valuationItem finnhubApiKey alphaVantageApiKey marketList marketGrowthRatePercent)
    0 symbolList.

(** The route, given the query parameters and the keys resolved from the
    query or the environment. *)
Definition batchValuation (symbols markets finnhubApiKey alphaVantageApiKey : option string)
    (marketGrowthRatePercent : jsval) : BatchResponse :=
  match finnhubApiKey, symbols with
  | Some key, Some syms =>
      if isEmpty key || isEmpty syms then
        BadRequest "Missing required fields: symbols query parameter is required, and finnhubApiKey must be provided in query or FINNHUB_API_KEY environment variable"
      else
        let symbolList :=
          filter (fun s => negb (isEmpty s)) (map trim (split ","%char syms)) in
        match symbolList with
        | [] => BadRequest "symbols cannot be empty"
        | _ =>
            let marketList :=
              if truthyKey markets
              then map trim (split ","%char
                               (match markets with Some m => m | None => "" end))
              else map (fun _ => "US") symbolList in
            let results :=
              batchResults key alphaVantageApiKey marketGrowthRatePercent
                symbolList marketList in
            BatchOk (List.length results) results
        end
  | _, _ =>
      BadRequest "Missing required fields: symbols query parameter is required, and finnhubApiKey must be provided in query or FINNHUB_API_KEY environment variable"
  end.

(* ================================================================= *)
(** ** [src/app.js]: the single valuation route, lines 118-178 *)

(** The response of the route: a 400 with its message and the fields it
    echoes, the 200 with the valuation result, or the 500 of the handler
    of lines 170-177 (without its time stamp). *)
Inductive ValuationResponse : Type :=
| Rejected (message : string) (received : list (string * string))
| Valued (result : ValuationResult)
| ServerError (message : string).

(** The double quote character, as a string. *)
Definition dquote : string := String (ascii_of_nat 34) EmptyString.

(** [a || b] on two optional strings. *)
Definition orElse (a b : option string) : option string :=
  if truthyKey a then a else b.

Definition valuationRoute
    (symbol bodyFinnhubKey bodyAlphaKey market marketGrowthRatePercent : option string)
    (envFinnhubKey envAlphaKey : option string) : ValuationResponse :=
  let finnhubApiKey := orElse bodyFinnhubKey envFinnhubKey in
  let alphaVantageApiKey := orElse bodyAlphaKey envAlphaKey in
  if negb (truthyKey symbol) || negb (truthyKey finnhubApiKey) then
    Rejected
      "Missing required fields: symbol is required, and finnhubApiKey must be provided in request body or FINNHUB_API_KEY environment variable"
      [ ("symbol", if truthyKey symbol then "provided" else "missing");
        ("finnhubApiKey",
         if truthyKey bodyFinnhubKey then "provided in body"
         else if truthyKey envFinnhubKey then "using environment variable"
              else "missing") ]
  else if truthyKey market
          && negb (existsb (fun m => String.eqb m (match market with Some x => x | None => "" end))
                     ["US"; "HK"])
  then
    Rejected ("Invalid market. Must be " ++ dquote ++ "US" ++ dquote ++ " or "
              ++ dquote ++ "HK" ++ dquote)
      [("received", match market with Some x => x | None => "" end)]
  else
    let invalidRate :=
      match marketGrowthRatePercent with
      | Some raw =>
          let rate := parseFloat (JStr raw) in
          negb (isFiniteNum rate) || leb rate (Fin 0)
      | None => false
      end in
    if invalidRate then
      Rejected "marketGrowthRatePercent must be a positive number"
        [("received", match marketGrowthRatePercent with Some x => x | None => "" end)]
    else
      match
        calculateStockValuation
          {| p_symbol := toUpperCase (match symbol with Some x => x | None => "" end);
             p_finnhubApiKey := match finnhubApiKey with Some x => x | None => "" end;
             p_alphaVantageApiKey := alphaVantageApiKey;
             p_market := Some (if truthyKey market
                               then match market with Some x => x | None => "" end
                               else "US");
             p_marketGrowthRatePercent :=
               Some (if truthyKey marketGrowthRatePercent
                     then JStr (match marketGrowthRatePercent with Some x => x | None => "" end)
                     else JNum (Fin 10)) |}
      with
      | Normal result => Valued result
      | Throw message => ServerError message
      end.

End Valuation.

(* ================================================================= *)
(** ** Facts about the number model *)

Module NumberFacts.

Local Open Scope Q_scope.

Lemma Qlt_bool_iff (a b : Q) : Qlt_bool a b = true <-> a < b.
Proof.
  unfold Qlt_bool. rewrite negb_true_iff.
  split; intros H.
  - apply Qnot_le_lt. intros Hle. apply Qle_bool_iff in Hle. congruence.
  - destruct (Qle_bool b a) eqn:E; [|reflexivity].
    apply Qle_bool_iff in E. exfalso. apply (Qlt_not_le _ _ H E).
Qed.

Lemma Qeq_bool_false (a b : Q) : Qeq_bool a b = false <-> ~ a == b.
Proof.
  split; intros H.
  - intros E. apply Qeq_bool_iff in E. congruence.
  - destruct (Qeq_bool a b) eqn:E; [|reflexivity].
    apply Qeq_bool_iff in E. contradiction.
Qed.

(** A number that is finite and strictly positive. *)
Definition finitePositive (x : number) : Prop :=
  isFiniteNum x = true /\ ltb (Fin 0) x = true.

Lemma positive_inv (x : number) :
  finitePositive x -> exists q, x = Fin q /\ 0 < q.
Proof.
  intros [Hf Hp]. destruct x as [q| | | |]; try discriminate.
  exists q. split; [reflexivity|]. cbn in Hp. now apply Qlt_bool_iff.
Qed.

Lemma mkfin_not_NaN (s : bool) (q : Q) : isNaN (mkfin s q) = false.
Proof. unfold mkfin, zero. destruct (Qeq_bool q 0), s; reflexivity. Qed.

Lemma inf_not_NaN (s : bool) : isNaN (inf s) = false.
Proof. destruct s; reflexivity. Qed.

Lemma zero_not_NaN (s : bool) : isNaN (zero s) = false.
Proof. destruct s; reflexivity. Qed.

Lemma sub_Fin_one (r : Q) :
  sub (Fin r) (Fin 1) =
  if Qeq_bool (r + (-1 # 1)) 0 then zero (Qlt_bool r 0 && true)
  else Fin (Qred (r + (-1 # 1))).
Proof. reflexivity. Qed.

Lemma isNaN_sub_one (x : number) : isNaN (sub x (Fin 1)) = isNaN x.
Proof.
  destruct x as [q| | | |]; try reflexivity.
  unfold sub, add. cbn.
  destruct (Qeq_bool _ _); [apply zero_not_NaN | reflexivity].
Qed.

(** A positive number divided by a finite one is never NaN. *)
Lemma div_positive_not_NaN (e a : number) :
  finitePositive e -> isFiniteNum a = true -> isNaN (div e a) = false.
Proof.
  intros He Ha. destruct (positive_inv e He) as [q [-> Hq]].
  assert (Hq0 : Qeq_bool q 0 = false) by (apply Qeq_bool_false; lra).
  destruct a as [b| | | |]; try discriminate; unfold div; cbn.
  - destruct (Qeq_bool b 0).
    + rewrite Hq0. apply inf_not_NaN.
    + apply mkfin_not_NaN.
  - rewrite Hq0. apply inf_not_NaN.
Qed.

(** The growth rate of a positive estimate over a finite trailing EPS. *)
Lemma growth_not_NaN (e a : number) :
  finitePositive e -> isFiniteNum a = true ->
  isNaN (sub (div e a) (Fin 1)) = false.
Proof.
  intros He Ha. rewrite isNaN_sub_one. now apply div_positive_not_NaN.
Qed.

(** Away from NaN, "not <= 0" is "> 0". *)
Lemma not_leb_zero_ltb (x : number) :
  isNaN x = false -> leb x (Fin 0) = false -> ltb (Fin 0) x = true.
Proof.
  destruct x as [q| | | |]; cbn; intros HN H; try congruence.
  unfold Qlt_bool. now rewrite H.
Qed.

Lemma ltb_zero_not_NaN (x : number) : ltb (Fin 0) x = true -> isNaN x = false.
Proof. destruct x; cbn; congruence. Qed.

(** The quotient [pe / (g * 100)] of [calculatePeg] is not NaN when
    [pe] is finite and [g > 0]. *)
Lemma mul_positive_100 (q : Q) :
  0 < q -> exists r, mul (Fin q) (Fin 100) = Fin r /\ 0 < r.
Proof.
  intros Hq. exists (Qred (q * 100)). split.
  - unfold mul, mkfin.
    assert (E : Qeq_bool (q * 100) 0 = false) by (apply Qeq_bool_false; lra).
    cbn [isNaN orb qval]. now rewrite E.
  - rewrite Qred_correct. lra.
Qed.

(** The quotient [pe / (g * 100)] of [calculatePeg] is not NaN when
    [pe] is finite and [g > 0]. *)
Lemma peg_not_NaN (p g : number) :
  isFiniteNum p = true -> ltb (Fin 0) g = true ->
  isNaN (div p (mul g (Fin 100))) = false.
Proof.
  intros Hp Hg.
  destruct g as [q| | | |]; cbn in Hg; try discriminate.
  - apply Qlt_bool_iff in Hg.
    destruct (mul_positive_100 q Hg) as [r [-> Hr]].
    assert (E : Qeq_bool r 0 = false) by (apply Qeq_bool_false; lra).
    destruct p as [a| | | |]; try discriminate; unfold div; cbn; rewrite E;
      first [apply mkfin_not_NaN | apply zero_not_NaN].
  - destruct p as [a| | | |]; try discriminate; unfold div, mul; cbn;
      first [reflexivity | apply zero_not_NaN].
Qed.

(** A positive estimate that does not exceed the trailing EPS gives a
    growth rate that is at most zero. *)
Lemma growth_nonpositive (e a : number) :
  finitePositive e -> isFiniteNum a = true -> leb e a = true ->
  leb (sub (div e a) (Fin 1)) (Fin 0) = true.
Proof.
  intros He Ha Hle. destruct (positive_inv e He) as [q [-> Hq]].
  destruct a as [b| | | |]; try discriminate.
  - cbn in Hle. apply Qle_bool_iff in Hle.
    assert (Hb : 0 < b) by lra.
    assert (Hb0 : Qeq_bool b 0 = false) by (apply Qeq_bool_false; lra).
    assert (Hdiv : 0 < q / b <= 1).
    { split.
      - apply Qlt_shift_div_l; lra.
      - apply Qle_shift_div_r; lra. }
    assert (Hd0 : Qeq_bool (q / b) 0 = false) by (apply Qeq_bool_false; lra).
    assert (E : div (Fin q) (Fin b) = Fin (Qred (q / b))).
    { unfold div, mkfin. cbn [isNaN orb qval]. now rewrite Hb0, Hd0. }
    rewrite E. remember (Qred (q / b)) as r eqn:Er.
    assert (Hr : r <= 1) by (subst r; rewrite Qred_correct; lra).
    rewrite sub_Fin_one.
    destruct (Qeq_bool (r + (-1 # 1)) 0) eqn:E0.
    + destruct (Qlt_bool r 0 && true); reflexivity.
    + cbn -[Qred]. apply Qle_bool_iff. rewrite Qred_correct. lra.
  - cbn in Hle. apply Qle_bool_iff in Hle. lra.
Qed.



Lemma isFiniteNum_mkfin (s : bool) (q : Q) : isFiniteNum (mkfin s q) = true.
Proof. unfold mkfin, zero. destruct (Qeq_bool q 0), s; reflexivity. Qed.

Lemma isFiniteNum_zero (s : bool) : isFiniteNum (zero s) = true.
Proof. destruct s; reflexivity. Qed.

Lemma isFiniteNum_mul (x y : number) :
  isFiniteNum x = true -> isFiniteNum y = true -> isFiniteNum (mul x y) = true.
Proof.
  destruct x, y; try discriminate; intros _ _; unfold mul; cbn [isNaN orb qval];
    apply isFiniteNum_mkfin.
Qed.

Lemma isFiniteNum_add (x y : number) :
  isFiniteNum x = true -> isFiniteNum y = true -> isFiniteNum (add x y) = true.
Proof.
  destruct x, y; try discriminate; intros _ _; unfold add; cbn [isNaN orb qval];
    destruct (Qeq_bool _ _); try reflexivity; apply isFiniteNum_zero.
Qed.

Lemma isFiniteNum_sub_one (x : number) :
  isFiniteNum x = true -> isFiniteNum (sub x (Fin 1)) = true.
Proof. intros H. unfold sub. now apply isFiniteNum_add. Qed.

(** A stock PEG that passes the last check is finite and positive. *)
Lemma peg_finitePositive (p g : number) :
  isFiniteNum p = true -> ltb (Fin 0) p = true -> ltb (Fin 0) g = true ->
  leb (div p (mul g (Fin 100))) (Fin 0) = false ->
  finitePositive (div p (mul g (Fin 100))).
Proof.
  intros Hf Hp Hg Hle.
  assert (Hpos : ltb (Fin 0) (div p (mul g (Fin 100))) = true).
  { apply not_leb_zero_ltb; [now apply peg_not_NaN | exact Hle]. }
  split; [|exact Hpos].
  destruct p as [a| | | |]; try discriminate.
  destruct g as [q| | | |]; try discriminate.
  - cbn in Hg. apply Qlt_bool_iff in Hg.
    destruct (mul_positive_100 q Hg) as [r [E Hr]]. rewrite E.
    assert (E0 : Qeq_bool r 0 = false) by (apply Qeq_bool_false; lra).
    unfold div. cbn [isNaN orb qval]. rewrite E0. apply isFiniteNum_mkfin.
  - unfold div, mul. cbn [isNaN orb qval signbit xorb inf].
    change (Qeq_bool 100 0) with false. cbn [isNaN orb qval].
    apply isFiniteNum_zero.
Qed.

(** With finite operands and positive [p] and [v], the product
    [p * (x / v)] is the quotient [(p * x) / v]. *)
Lemma mul_div_regroup (p x v : number) :
  finitePositive p -> isFiniteNum x = true -> finitePositive v ->
  mul p (div x v) = div (mul p x) v.
Proof.
  intros Hp Hx Hv.
  destruct (positive_inv p Hp) as [a [-> Ha]].
  destruct (positive_inv v Hv) as [b [-> Hb]].
  assert (Ea : Qle_bool 0 a = true) by (apply Qle_bool_iff; lra).
  assert (Eb : Qle_bool 0 b = true) by (apply Qle_bool_iff; lra).
  assert (Eb0 : Qeq_bool b 0 = false) by (apply Qeq_bool_false; lra).
  assert (Sa : signbit (Fin a) = false) by (cbn; unfold Qlt_bool; now rewrite Ea).
  assert (Sb : signbit (Fin b) = false) by (cbn; unfold Qlt_bool; now rewrite Eb).
  destruct x as [c| | | |]; try discriminate.
  - destruct (Qeq_bool c 0) eqn:Ec.
    + (* a zero stays the positive zero on both sides *)
      apply Qeq_bool_iff in Ec.
      assert (Sc : signbit (Fin c) = false).
      { cbn. unfold Qlt_bool. apply negb_false_iff, Qle_bool_iff. rewrite Ec. lra. }
      assert (E1 : div (Fin c) (Fin b) = Fin 0).
      { unfold div, mkfin. cbn [isNaN orb qval]. rewrite Eb0, Sc, Sb.
        assert (E : Qeq_bool (c / b) 0 = true)
          by (apply Qeq_bool_iff; rewrite Ec; field; lra).
        now rewrite E. }
      assert (E2 : mul (Fin a) (Fin c) = Fin 0).
      { unfold mul, mkfin. cbn [isNaN orb qval]. rewrite Sa, Sc.
        assert (E : Qeq_bool (a * c) 0 = true)
          by (apply Qeq_bool_iff; rewrite Ec; ring).
        now rewrite E. }
      rewrite E1, E2. unfold mul, div, mkfin. cbn [isNaN orb qval].
      rewrite Eb0, Sa, Sb.
      assert (E3 : Qeq_bool (a * 0) 0 = true) by (apply Qeq_bool_iff; ring).
      assert (E4 : Qeq_bool (0 / b) 0 = true) by (apply Qeq_bool_iff; field; lra).
      rewrite E3, E4. reflexivity.
    + assert (Hc : ~ c == 0) by now apply Qeq_bool_false.
      assert (E1 : div (Fin c) (Fin b) = Fin (Qred (c / b))).
      { unfold div, mkfin. cbn [isNaN orb qval]. rewrite Eb0.
        assert (E : Qeq_bool (c / b) 0 = false).
        { apply Qeq_bool_false. intros E. apply Hc.
          rewrite <- (Qmult_div_r c b) by lra. rewrite E. ring. }
        now rewrite E. }
      assert (E2 : mul (Fin a) (Fin c) = Fin (Qred (a * c))).
      { unfold mul, mkfin. cbn [isNaN orb qval].
        assert (E : Qeq_bool (a * c) 0 = false).
        { apply Qeq_bool_false. intros E. apply Hc.
          apply Qmult_integral in E. destruct E as [E|E]; [lra | exact E]. }
        now rewrite E. }
      rewrite E1, E2. unfold mul, div, mkfin. cbn [isNaN orb qval]. rewrite Eb0.
      assert (E3 : Qeq_bool (a * Qred (c / b)) 0 = false).
      { apply Qeq_bool_false. rewrite Qred_correct. intros E.
        apply Qmult_integral in E. destruct E as [E|E]; [lra|].
        apply Hc. rewrite <- (Qmult_div_r c b) by lra. rewrite E. ring. }
      assert (E4 : Qeq_bool (Qred (a * c) / b) 0 = false).
      { apply Qeq_bool_false. rewrite Qred_correct. intros E.
        assert (E' : a * c == 0).
        { rewrite <- (Qmult_div_r (a * c) b) by lra. rewrite E. ring. }
        apply Qmult_integral in E'. destruct E' as [E'|E']; [lra | now apply Hc]. }
      rewrite E3, E4. f_equal. apply Qred_complete.
      rewrite !Qred_correct. field. lra.
  - (* the negative zero stays the negative zero on both sides *)
    unfold mul, div, mkfin. cbn [isNaN orb qval]. rewrite Eb0.
    cbn [signbit] in *. rewrite Sa, Sb. cbn [xorb].
    assert (E3 : Qeq_bool (0 / b) 0 = true) by (apply Qeq_bool_iff; field; lra).
    assert (E4 : Qeq_bool (a * 0) 0 = true) by (apply Qeq_bool_iff; ring).
    rewrite E3, E4. cbn [zero qval isNaN orb signbit xorb].
    rewrite E3, E4. reflexivity.
Qed.

End NumberFacts.

Import NumberFacts.

(* ================================================================= *)
(** ** Reasoning about blocks of statements *)

Section Blocks.

Context {S : Type}.

(** The block never ends in an exception. *)
Definition total {A} (c : M S A) : Prop :=
  forall s, exists a, fst (c s) = Normal a.

(** The block keeps [I], however it ends. *)
Definition steady {A} (I : S -> Prop) (c : M S A) : Prop :=
  forall s, I s -> I (snd (c s)).

Lemma total_ret {A} (a : A) : total (retM a).
Proof. intros s. now exists a. Qed.

Lemma total_modify (f : S -> S) : total (modify f).
Proof. intros s. now exists tt. Qed.

Lemma total_get : total (@getM S).
Proof. intros s. now exists s. Qed.

Lemma total_bind {A B} (c : M S A) (k : A -> M S B) :
  total c -> (forall a, total (k a)) -> total (bindM c k).
Proof.
  intros Hc Hk s. unfold bindM. destruct (Hc s) as [a Ha].
  destruct (c s) as [o s']. cbn in Ha. subst o. apply Hk.
Qed.

Lemma total_tryCatch {A} (c : M S A) (h : string -> M S A) :
  (forall m, total (h m)) -> total (tryCatchM c h).
Proof.
  intros Hh s. unfold tryCatchM. destruct (c s) as [[a|m] s'].
  - now exists a.
  - apply Hh.
Qed.

Lemma steady_ret {A} I (a : A) : steady I (retM a).
Proof. now intros s Hs. Qed.

Lemma steady_throw {A} I (m : string) : steady I (@throwM S A m).
Proof. now intros s Hs. Qed.

Lemma steady_lift {A} I (c : Completion A) : steady I (liftM c).
Proof. now intros s Hs. Qed.

Lemma steady_get I : steady I (@getM S).
Proof. now intros s Hs. Qed.

Lemma steady_modify I (f : S -> S) :
  (forall s, I s -> I (f s)) -> steady I (modify f).
Proof. intros Hf s Hs. now apply Hf. Qed.

Lemma steady_bind {A B} I (c : M S A) (k : A -> M S B) :
  steady I c -> (forall a, steady I (k a)) -> steady I (bindM c k).
Proof.
  intros Hc Hk s Hs. unfold bindM. specialize (Hc s Hs).
  destruct (c s) as [[a|m] s']; cbn in *; [now apply Hk | assumption].
Qed.

Lemma steady_tryCatch {A} I (c : M S A) (h : string -> M S A) :
  steady I c -> (forall m, steady I (h m)) -> steady I (tryCatchM c h).
Proof.
  intros Hc Hh s Hs. unfold tryCatchM. specialize (Hc s Hs).
  destruct (c s) as [[a|m] s']; cbn in *; [assumption | now apply Hh].
Qed.

End Blocks.

(** Both properties follow the shape of a block. *)
Ltac block_step :=
  match goal with
  | |- total (bindM _ _) => apply total_bind; [|intros ?]
  | |- total (tryCatchM _ _) => apply total_tryCatch; intros ?
  | |- total (retM _) => apply total_ret
  | |- total (modify _) => apply total_modify
  | |- total getM => apply total_get
  | |- steady _ (bindM _ _) => apply steady_bind; [|intros ?]
  | |- steady _ (tryCatchM _ _) => apply steady_tryCatch; [|intros ?]
  | |- steady _ (retM _) => apply steady_ret
  | |- steady _ (throwM _) => apply steady_throw
  | |- steady _ (liftM _) => apply steady_lift
  | |- steady _ getM => apply steady_get
  | |- steady _ (modify _) => apply steady_modify; intros ? ?
  | |- total (if ?b then _ else _) => destruct b
  | |- steady _ (if ?b then _ else _) => destruct b eqn:?
  | |- total (match ?x with Some _ => _ | None => _ end) => destruct x
  | |- steady _ (match ?x with Some _ => _ | None => _ end) => destruct x
  end.

Ltac block := repeat block_step.

(** Reading a field after assignments. *)
Ltac fields :=
  cbn [symbol market marketPe marketPeg beta actualEps estimatedEps stockPe
       growthRate stockPeg currentPrice fairValue assumptions warnings
       hasForwardEps betaFallbackUsed valuationPossible
       set_marketPe set_marketPeg set_beta set_actualEps set_estimatedEps
       set_stockPe set_growthRate set_stockPeg set_currentPrice set_fairValue
       set_warnings set_hasForwardEps set_betaFallbackUsed
       set_valuationPossible push_warning initialResult fst snd] in *.

Ltac run_block :=
  unfold bindM, tryCatchM, liftM, modify, getM, retM, throwM in *.

(* ================================================================= *)
(** ** Properties of [getStockData] *)

Section Properties.

Variable showNumber : number -> string.
Variable net : Network.

Lemma metricsBlock_total s k : total (metricsBlock net s k).
Proof. unfold metricsBlock. block. Qed.

Lemma financialsBlock_total s k : total (financialsBlock net s k).
Proof. unfold financialsBlock. block. Qed.

Lemma defaultsBlock_total : total defaultsBlock.
Proof. unfold defaultsBlock. block. Qed.

(** After the quote block nothing assigns [price]. *)
Definition priceIs (p : option number) (d : StockData) : Prop := sd_price d = p.

Lemma metricsBlock_price p s k : steady (priceIs p) (metricsBlock net s k).
Proof.
  unfold metricsBlock, extractPe, extractEps, extractBeta, priceIs.
  block; assumption.
Qed.

Lemma financialsBlock_price p s k : steady (priceIs p) (financialsBlock net s k).
Proof. unfold financialsBlock, priceIs. block; assumption. Qed.

Lemma defaultsBlock_price p : steady (priceIs p) defaultsBlock.
Proof. unfold defaultsBlock, priceIs. block; assumption. Qed.

(** The quote block ends with a finite positive price, or with the
    fatal error of line 87. *)
Lemma quoteBlock_outcome s k d :
  match quoteBlock showNumber net s k d with
  | (Normal _, d') => exists p, d' = set_sd_price (Some p) d /\ finitePositive p
  | (Throw m, _) => exists m', m = ("Failed to get quote for " ++ s ++ ": " ++ m')%string
  end.
Proof.
  unfold quoteBlock, tryCatchM, bindM, liftM, modify, getM, throwM, retM.
  destruct (fetchFinnhub net (quoteUrl s k)) as [quoteData|m]; [|eauto].
  destruct (getProp quoteData "c") as [c|m]; [|eauto].
  cbn [sd_price set_sd_price isFinite num].
  destruct (isFiniteNum (parseFloat c)) eqn:Hf; cbn [negb orb]; [|eauto].
  destruct (leb (parseFloat c) (Fin 0)) eqn:Hle; [eauto|].
  exists (parseFloat c). split; [reflexivity|]. split; [assumption|].
  apply not_leb_zero_ltb; [|assumption].
  destruct (parseFloat c); try discriminate; reflexivity.
Qed.

(** The last block leaves no forward EPS and a beta; it keeps the
    trailing EPS, the PE and the warnings there are. *)
Lemma defaultsBlock_outcome d :
  exists d', defaultsBlock d = (Normal tt, d')
    /\ sd_estimatedEps d' = None
    /\ (exists b, sd_beta d' = Some b)
    /\ sd_actualEps d' = sd_actualEps d /\ sd_pe d' = sd_pe d
    /\ (forall w, In w (sd_warnings d) -> In w (sd_warnings d')).
Proof.
  unfold defaultsBlock, bindM, modify, getM, retM.
  cbn [sd_beta set_sd_estimatedEps].
  destruct (sd_beta d) as [b|] eqn:Hb; eexists; (split; [reflexivity|]); cbn;
    repeat split; eauto.
  intros w Hw. apply in_or_app. now left.
Qed.

(** A block that never throws, run after another. *)
Lemma run_total {S A} (c : M S A) (s : S) :
  total c -> exists a, c s = (Normal a, snd (c s)).
Proof.
  intros H. destruct (H s) as [a Ha]. exists a.
  destruct (c s) as [o s']. cbn in *. now subst.
Qed.

(** What [getStockData] returns: a finite positive price, no forward
    EPS, and a beta. *)
Lemma getStockData_Normal s k d :
  getStockData showNumber net s k = Normal d ->
  (exists p, sd_price d = Some p /\ finitePositive p)
  /\ sd_estimatedEps d = None
  /\ (exists b, sd_beta d = Some b).
Proof.
  unfold getStockData. unfold bindM at 1.
  pose proof (quoteBlock_outcome s k initialStockData) as Hq.
  destruct (quoteBlock showNumber net s k initialStockData) as [[[]|m] d1];
    [|discriminate].
  destruct Hq as [p [-> Hp]].
  set (d1 := set_sd_price (Some p) initialStockData).
  assert (H1 : priceIs (Some p) d1) by reflexivity.
  unfold bindM at 1.
  destruct (run_total _ d1 (metricsBlock_total s k)) as [[] E2].
  apply (metricsBlock_price (Some p) s k) in H1.
  rewrite E2. set (d2 := snd (metricsBlock net s k d1)) in *.
  unfold bindM at 1.
  destruct (run_total _ d2 (financialsBlock_total s k)) as [[] E3].
  apply (financialsBlock_price (Some p) s k) in H1.
  rewrite E3. set (d3 := snd (financialsBlock net s k d2)) in *.
  apply (defaultsBlock_price (Some p)) in H1.
  destruct (defaultsBlock_outcome d3) as [d4 [E4 [He [Hb _]]]].
  rewrite E4 in *. cbn in H1. intros [= <-].
  repeat split; eauto.
Qed.

(** A property of the locals that holds once the price is set and that
    the later blocks keep, holds of what [getStockData] returns. *)
Lemma getStockData_steady (I : StockData -> Prop) s k d :
  (forall p, I (set_sd_price (Some p) initialStockData)) ->
  steady I (metricsBlock net s k) ->
  steady I (financialsBlock net s k) ->
  steady I defaultsBlock ->
  getStockData showNumber net s k = Normal d -> I d.
Proof.
  intros H0 Hm Hf Hd. unfold getStockData. unfold bindM at 1.
  pose proof (quoteBlock_outcome s k initialStockData) as Hq.
  destruct (quoteBlock showNumber net s k initialStockData) as [[[]|m] d1];
    [|discriminate].
  destruct Hq as [p [-> Hp]]. specialize (H0 p).
  set (d1 := set_sd_price (Some p) initialStockData) in *.
  unfold bindM at 1.
  destruct (run_total _ d1 (metricsBlock_total s k)) as [[] E2].
  apply Hm in H0. rewrite E2. set (d2 := snd (metricsBlock net s k d1)) in *.
  unfold bindM at 1.
  destruct (run_total _ d2 (financialsBlock_total s k)) as [[] E3].
  apply Hf in H0. rewrite E3. set (d3 := snd (financialsBlock net s k d2)) in *.
  apply Hd in H0.
  destruct (defaultsBlock_outcome d3) as [d4 [E4 _]].
  rewrite E4 in *. cbn in H0. now intros [= <-].
Qed.

(** The beta of the locals, when there is one, is finite and not
    negative. *)
Definition betaValid (d : StockData) : Prop :=
  match sd_beta d with
  | None => True
  | Some b => isFiniteNum b = true /\ ltb b (Fin 0) = false
  end.

Lemma extractBeta_valid metrics : steady betaValid (extractBeta metrics).
Proof.
  intros d Hd. unfold extractBeta. run_block.
  destruct (getProp metrics "beta") as [raw|m]; [|exact Hd].
  destruct (truthy raw); [|exact Hd].
  cbn [sd_beta set_sd_beta isFinite num].
  destruct (isFiniteNum (parseFloat raw)) eqn:Hf; cbn [negb orb]; [|exact I].
  destruct (ltb (parseFloat raw) (Fin 0)) eqn:Hn; [exact I|].
  unfold betaValid. cbn. now split.
Qed.

Lemma getStockData_beta s k d :
  getStockData showNumber net s k = Normal d ->
  exists b, sd_beta d = Some b /\ isFiniteNum b = true /\ ltb b (Fin 0) = false.
Proof.
  intros H.
  assert (Hv : betaValid d).
  { apply (getStockData_steady betaValid s k d); [| | | |exact H].
    - intros p. exact I.
    - unfold metricsBlock, extractPe, extractEps.
      block; try assumption; now apply extractBeta_valid.
    - unfold financialsBlock. block; assumption.
    - unfold defaultsBlock. block; try assumption.
      unfold betaValid. cbn. now split. }
  destruct (getStockData_Normal s k d H) as [_ [_ [b Hb]]].
  exists b. unfold betaValid in Hv. rewrite Hb in Hv. now split.
Qed.

(** [getStockData] fails exactly when the quote block does, with its
    error. *)
Lemma getStockData_Throw s k m :
  getStockData showNumber net s k = Throw m <->
  fst (quoteBlock showNumber net s k initialStockData) = Throw m.
Proof.
  unfold getStockData. unfold bindM at 1.
  destruct (quoteBlock showNumber net s k initialStockData) as [[[]|m1] d1];
    cbn [fst].
  - unfold bindM at 1.
    destruct (run_total _ d1 (metricsBlock_total s k)) as [[] E2]. rewrite E2.
    unfold bindM at 1.
    destruct (run_total _ (snd (metricsBlock net s k d1)) (financialsBlock_total s k))
      as [[] E3]. rewrite E3.
    destruct (defaultsBlock_outcome (snd (financialsBlock net s k (snd (metricsBlock net s k d1)))))
      as [d4 [E4 _]]. rewrite E4. split; discriminate.
  - split; intros [= <-]; reflexivity.
Qed.

(* ----------------------------------------------------------------- *)
(** ** Properties of [getEstimatedEpsFromAlphaVantage] *)

(** A record of the estimates list: a value whose properties can be
    read, that is, neither [null] nor [undefined]. *)
Definition isRecord (v : jsval) : Prop :=
  match v with
  | JUndefined | JNull => False
  | _ => True
  end.

(** [v.k] for a record [v]. *)
Definition prop (v : jsval) (k : string) : jsval :=
  match getProp v k with
  | Normal x => x
  | Throw _ => JUndefined
  end.

(** The record has a reporting date and a finite positive average
    estimate. *)
Definition qualifies (estimate : jsval) : bool :=
  truthy (prop estimate "date")
  && isFiniteNum (parseFloat (prop estimate "eps_estimate_average"))
  && ltb (Fin 0) (parseFloat (prop estimate "eps_estimate_average")).

Definition toEstimate (estimate : jsval) : Estimate :=
  {| eps := parseFloat (prop estimate "eps_estimate_average");
     period := prop estimate "date" |}.

(** The first record of the list that qualifies, as [{eps, period}]. *)
Definition firstQualifying (estimates : list jsval) : option Estimate :=
  option_map toEstimate (find qualifies estimates).

Lemma getProp_record v k : isRecord v -> getProp v k = Normal (prop v k).
Proof. unfold prop. destruct v; cbn; intros H; try reflexivity; contradiction. Qed.

(** A value that parses to a finite positive number is truthy. *)
Lemma parseFloat_positive_truthy v :
  isFiniteNum (parseFloat v) = true -> ltb (Fin 0) (parseFloat v) = true ->
  truthy v = true.
Proof.
  destruct v as [| |b|n|s|items|fields]; cbn; try discriminate; try reflexivity.
  - destruct n as [q| | | |]; cbn; try discriminate.
    intros _ H. apply Qlt_bool_iff in H. apply negb_true_iff.
    apply Qeq_bool_false. intros E. rewrite E in H. now apply Qlt_irrefl in H.
  - destruct s; [discriminate|reflexivity].
Qed.

(** One turn of the loop on a record. *)
Lemma scanEstimates_cons estimate rest :
  isRecord estimate ->
  scanEstimates (estimate :: rest) =
  if qualifies estimate then Normal (Some (toEstimate estimate))
  else scanEstimates rest.
Proof.
  intros Hr. cbn [scanEstimates].
  rewrite (getProp_record estimate "date" Hr).
  unfold qualifies, toEstimate. cbn [bind].
  destruct (truthy (prop estimate "date")) eqn:Hd; cbn [andb].
  - rewrite (getProp_record estimate "eps_estimate_average" Hr). cbn [bind].
    destruct (isFiniteNum (parseFloat (prop estimate "eps_estimate_average"))) eqn:Hf;
      cbn [andb].
    + destruct (ltb (Fin 0) (parseFloat (prop estimate "eps_estimate_average"))) eqn:Hp.
      * now rewrite (parseFloat_positive_truthy _ Hf Hp).
      * now destruct (truthy (prop estimate "eps_estimate_average")).
    + now destruct (truthy (prop estimate "eps_estimate_average")).
  - reflexivity.
Qed.

(** On records, the loop returns the first one that qualifies. *)
Lemma scanEstimates_records estimates :
  Forall isRecord estimates ->
  scanEstimates estimates = Normal (firstQualifying estimates).
Proof.
  induction 1 as [|estimate rest Hr _ IH]; [reflexivity|].
  rewrite (scanEstimates_cons _ _ Hr), IH. unfold firstQualifying. cbn [find].
  now destruct (qualifies estimate).
Qed.

(** Whatever the list holds, an estimate the loop returns comes from an
    entry that qualifies. *)
Lemma scanEstimates_Some estimates e :
  scanEstimates estimates = Normal (Some e) ->
  exists estimate, In estimate estimates /\ qualifies estimate = true
                   /\ e = toEstimate estimate.
Proof.
  induction estimates as [|estimate rest IH]; [discriminate|].
  destruct estimate as [| |b|n|s|items|fields];
    try (cbn; discriminate);
    (rewrite scanEstimates_cons by exact I;
     destruct (qualifies _) eqn:Hq;
     [ intros [= <-]; eexists; split; [left; reflexivity | split; [exact Hq | reflexivity]]
     | intros H; destruct (IH H) as [x [Hin Hx]]; exists x; split; [right; exact Hin | exact Hx] ]).
Qed.

Lemma ltb_zero_ofNat n : ltb (Fin 0) (ofNat n) = negb (Nat.eqb n 0).
Proof.
  unfold ofNat, ofZ. cbn [ltb qval]. destruct n as [|n]; [reflexivity|].
  apply Qlt_bool_iff. unfold Qlt. cbn. lia.
Qed.

Lemma getEstimated_total symbol apiKey :
  exists r, getEstimatedEpsFromAlphaVantage showNumber net symbol apiKey = Normal r.
Proof.
  unfold getEstimatedEpsFromAlphaVantage, tryCatch.
  match goal with |- exists r, match ?c with _ => _ end = _ => destruct c end; eauto.
Qed.

(** The estimate, when there is one, comes from an entry of the
    provider's list that qualifies; so its EPS is finite and positive. *)
Lemma getEstimated_Some symbol apiKey e :
  getEstimatedEpsFromAlphaVantage showNumber net symbol apiKey = Normal (Some e) ->
  exists data items estimate,
    fetchAlphaVantage showNumber net (estimatesUrl symbol apiKey) = Normal data
    /\ getProp data "estimates" = Normal (JArr items)
    /\ In estimate items /\ qualifies estimate = true /\ e = toEstimate estimate.
Proof.
  unfold getEstimatedEpsFromAlphaVantage, tryCatch, bind.
  destruct (fetchAlphaVantage showNumber net (estimatesUrl symbol apiKey))
    as [data|m] eqn:Hd; [|discriminate].
  destruct (getProp data "estimates") as [estimates|m] eqn:He; [|discriminate].
  destruct (truthy estimates); [|discriminate].
  destruct (getProp estimates "length") as [len|m]; [|discriminate].
  destruct (ltb (Fin 0) (toNumber len)); [|discriminate].
  destruct estimates as [| |b|n|s|items|fields]; cbn [iterate]; try discriminate.
  - (* a string: its characters have no date *)
    assert (H : forall l, scanEstimates (map JStr l) = Normal None).
    { induction l as [|c l IH]; [reflexivity|]. cbn [map].
      rewrite scanEstimates_cons by exact I. cbn. exact IH. }
    rewrite H. discriminate.
  - destruct (scanEstimates items) as [[e'|]|m] eqn:Hs; try discriminate.
    intros [= ->]. destruct (scanEstimates_Some _ _ Hs) as [x Hx].
    exists data, items, x. repeat split; try tauto.
Qed.

Lemma getEstimated_positive symbol apiKey e :
  getEstimatedEpsFromAlphaVantage showNumber net symbol apiKey = Normal (Some e) ->
  finitePositive (eps e).
Proof.
  intros H. destruct (getEstimated_Some _ _ _ H) as [_ [_ [x [_ [_ [_ [Hq ->]]]]]]].
  unfold qualifies in Hq. apply andb_true_iff in Hq. destruct Hq as [Hq Hp].
  apply andb_true_iff in Hq. destruct Hq as [_ Hf]. now split.
Qed.








(* ----------------------------------------------------------------- *)
(** ** Properties of [calculateStockValuation] *)

(** The benchmark of lines 266-267. *)
Definition benchmarkPeg : number := div (Fin 29) (Fin (27 # 2)).

(** The result when the fetch stage has gone through, for the stock
    data [sd]. *)
Record Fetched (sd : StockData) (r : ValuationResult) : Prop := {
  fetched_marketPe : marketPe r = Some (Fin 29);
  fetched_marketPeg : marketPeg r = Some benchmarkPeg;
  fetched_beta : beta r = sd_beta sd;
  fetched_beta_valid :
    exists b, beta r = Some b /\ isFiniteNum b = true /\ ltb b (Fin 0) = false;
  fetched_actualEps : actualEps r = sd_actualEps sd;
  fetched_price : exists p, currentPrice r = Some p /\ finitePositive p;
  fetched_estimatedEps :
    estimatedEps r = None \/ exists e, estimatedEps r = Some e /\ finitePositive e;
  fetched_stockPe : stockPe r = None;
  fetched_growthRate : growthRate r = None;
  fetched_stockPeg : stockPeg r = None;
  fetched_fairValue : fairValue r = None;
  fetched_flag : betaFallbackUsed r = false;
  fetched_possible : valuationPossible r = false
}.

Lemma fetchStage_outcome params :
  match fetchStage showNumber net params (initialResult params) with
  | (Normal sd, r) =>
      getStockData showNumber net (p_symbol params) (p_finnhubApiKey params) = Normal sd
      /\ Fetched sd r
  | (Throw m, r) =>
      getStockData showNumber net (p_symbol params) (p_finnhubApiKey params) = Throw m
      /\ fairValue r = None /\ warnings r = []
      /\ marketPeg r = Some benchmarkPeg /\ actualEps r = None
  end.
Proof.
  unfold fetchStage. run_block. fields.
  destruct (getStockData showNumber net (p_symbol params) (p_finnhubApiKey params))
    as [sd|m] eqn:Hsd; [|repeat split; reflexivity].
  destruct (getStockData_Normal _ _ _ Hsd) as [[p [Hp Hpos]] [He _]].
  destruct (getStockData_beta _ _ _ Hsd) as [b [Hb Hbv]].
  rewrite He. cbn [isFinite negb andb].
  destruct (truthyKey (p_alphaVantageApiKey params)).
  - destruct (getEstimatedEpsFromAlphaVantage showNumber net (p_symbol params) _)
      as [[e|]|m] eqn:Hest.
    + split; [reflexivity|].
      constructor; fields; try reflexivity; eauto.
      right. exists (eps e). split; [reflexivity|]. eapply getEstimated_positive; eauto.
    + split; [reflexivity|]. constructor; fields; try reflexivity; eauto.
    + destruct (getEstimated_total (p_symbol params)
                  match p_alphaVantageApiKey params with Some k => k | None => ""%string end)
        as [x Hx]. congruence.
  - split; [reflexivity|]. constructor; fields; try reflexivity; eauto.
Qed.

(** The warnings of the checks, by name. *)
Definition warnMissingEps : string :=
  "Missing or invalid EPS data; valuation cannot be completed. Finnhub free API may not provide detailed EPS estimates.".
Definition warnDerivedPe : string :=
  "PE calculated from price / actualEps (not from API).".
Definition warnCannotPe : string :=
  "Cannot calculate PE; price or EPS missing.".
Definition warnNonPositive : string :=
  "Growth rate or PE is non-positive; PEG-based valuation not meaningful.".
Definition warnPeg : string :=
  "PEG calculation resulted in non-positive value; valuation not possible.".

(** The fair value of line 333, from the fields of a result. *)
Definition fairValueOf (r : ValuationResult) : number :=
  mul (num (currentPrice r))
    (div (add (num (marketPeg r))
            (mul (mul (sub (num (beta r)) (Fin 1)) (Fin (7 # 10))) (num (marketPeg r))))
       (num (stockPeg r))).

(** How [pegAndFairValue] ends. *)
Inductive PegOutcome (r : ValuationResult) : ValuationResult -> Prop :=
| PegNonPositive :
    leb (num (growthRate r)) (Fin 0) || leb (num (stockPe r)) (Fin 0) = true ->
    PegOutcome r (set_valuationPossible false (push_warning warnNonPositive r))
| PegNoValue v :
    leb (num (growthRate r)) (Fin 0) = false ->
    leb (num (stockPe r)) (Fin 0) = false ->
    calculatePeg (stockPe r) (growthRate r) = v ->
    (v = None \/ leb (num v) (Fin 0) = true) ->
    PegOutcome r (set_valuationPossible false (push_warning warnPeg (set_stockPeg v r)))
| PegValued v :
    leb (num (growthRate r)) (Fin 0) = false ->
    leb (num (stockPe r)) (Fin 0) = false ->
    calculatePeg (stockPe r) (growthRate r) = Some v ->
    leb v (Fin 0) = false ->
    PegOutcome r
      (set_valuationPossible true
         (set_fairValue (Some (fairValueOf (set_stockPeg (Some v) r)))
            (set_stockPeg (Some v) r))).

Lemma pegAndFairValue_outcome r :
  exists r', pegAndFairValue r = (Normal tt, r') /\ PegOutcome r r'.
Proof.
  unfold pegAndFairValue. run_block.
  destruct (leb (num (growthRate r)) (Fin 0) || leb (num (stockPe r)) (Fin 0)) eqn:Hgate.
  - eexists. split; [reflexivity|]. now apply PegNonPositive.
  - apply orb_false_iff in Hgate. destruct Hgate as [Hg Hpe].
    fields. destruct (calculatePeg (stockPe r) (growthRate r)) as [v|] eqn:Hpeg;
      cbn [orb num].
    + destruct (leb v (Fin 0)) eqn:Hv.
      * eexists. split; [reflexivity|].
        apply (PegNoValue r (Some v)); auto.
      * eexists. split; [reflexivity|]. now apply PegValued.
    + eexists. split; [reflexivity|]. apply (PegNoValue r None); auto.
Qed.

(** The result after lines 300-303, from the result [r] after the flag. *)
Definition withGrowth (r : ValuationResult) : ValuationResult :=
  set_growthRate
    (Some (sub (div (num (estimatedEps r)) (num (actualEps r))) (Fin 1)))
    (set_hasForwardEps true r).

(** How [valuationSteps] ends, for the result [r] after the flag. *)
Inductive StepsOutcome (sd : StockData) (r : ValuationResult) : ValuationResult -> Prop :=
| StepsMissingEps :
    isFinite (actualEps r) && isFinite (estimatedEps r) = false ->
    StepsOutcome sd r (set_valuationPossible false (push_warning warnMissingEps r))
| StepsReportedPe pe r' :
    isFinite (actualEps r) = true -> isFinite (estimatedEps r) = true ->
    sd_pe sd = Some pe ->
    PegOutcome (set_stockPe (Some pe) (withGrowth r)) r' ->
    StepsOutcome sd r r'
| StepsDerivedPe r' :
    isFinite (actualEps r) = true -> isFinite (estimatedEps r) = true ->
    sd_pe sd = None ->
    truthyOpt (currentPrice r) = true -> truthyOpt (actualEps r) = true ->
    PegOutcome
      (push_warning warnDerivedPe
         (set_stockPe (Some (div (num (currentPrice r)) (num (actualEps r))))
            (withGrowth r))) r' ->
    StepsOutcome sd r r'
| StepsCannotPe :
    isFinite (actualEps r) = true -> isFinite (estimatedEps r) = true ->
    sd_pe sd = None ->
    truthyOpt (currentPrice r) && truthyOpt (actualEps r) = false ->
    StepsOutcome sd r
      (set_valuationPossible false (push_warning warnCannotPe (withGrowth r))).

(** The result after lines 286-291. *)
Definition flagged (sd : StockData) (r : ValuationResult) : ValuationResult :=
  snd (betaFlagBlock sd r).

Lemma betaFlagBlock_run sd r : betaFlagBlock sd r = (Normal tt, flagged sd r).
Proof.
  unfold flagged, betaFlagBlock. run_block.
  destruct (_ || _); [destruct (someIncludes "default beta" _)|]; reflexivity.
Qed.

(** The flag block touches the flag only. *)
Lemma flagged_fields sd r :
  exists b, flagged sd r = set_betaFallbackUsed b r /\
            b = (betaFallbackUsed r
                 || ((negb (JsNumber.eqb (num (sd_beta sd)) (Fin 1))
                      || someIncludes "default" (sd_warnings sd))
                     && someIncludes "default beta" (sd_warnings sd))).
Proof.
  unfold flagged, betaFlagBlock. run_block.
  destruct (_ || _); cbn [andb]; [destruct (someIncludes "default beta" _)|];
    cbn [snd].
  - exists true. split; [reflexivity|]. now rewrite orb_true_r.
  - exists (betaFallbackUsed r). split; [now destruct r|]. now rewrite orb_false_r.
  - exists (betaFallbackUsed r). split; [now destruct r|]. now rewrite orb_false_r.
Qed.

Lemma valuationSteps_outcome sd r :
  exists r', valuationSteps sd r = (Normal tt, r')
             /\ StepsOutcome sd (flagged sd r) r'.
Proof.
  unfold valuationSteps. unfold bindM at 1. rewrite betaFlagBlock_run.
  generalize (flagged sd r). clear r. intros r. run_block.
  destruct (isFinite (actualEps r)) eqn:Ha; cbn [negb orb].
  2:{ eexists. split; [reflexivity|]. apply StepsMissingEps. now rewrite Ha. }
  destruct (isFinite (estimatedEps r)) eqn:He; cbn [negb orb].
  2:{ eexists. split; [reflexivity|]. apply StepsMissingEps. now rewrite Ha, He. }
  destruct (sd_pe sd) as [pe|] eqn:Hpe.
  - destruct (pegAndFairValue_outcome (set_stockPe (Some pe) (withGrowth r)))
      as [r' [E O]].
    exists r'. split; [exact E|]. now apply (StepsReportedPe sd r pe).
  - fields.
    destruct (truthyOpt (currentPrice r) && truthyOpt (actualEps r)) eqn:Ht.
    + apply andb_true_iff in Ht. destruct Ht as [Htp Hta].
      destruct (pegAndFairValue_outcome
                  (push_warning warnDerivedPe
                     (set_stockPe (Some (div (num (currentPrice r)) (num (actualEps r))))
                        (withGrowth r)))) as [r' [E O]].
      exists r'. split; [exact E|]. now apply StepsDerivedPe.
    + eexists. split; [reflexivity|]. now apply StepsCannotPe.
Qed.

(** How [calculateStockValuation] ends: with the result of the checks
    when the fetch stage went through, and with the result of the handler
    of lines 336-339 when [getStockData] threw. *)
Inductive ValuationOutcome (params : Params) : ValuationResult -> Prop :=
| ValuationDone sd r r' :
    getStockData showNumber net (p_symbol params) (p_finnhubApiKey params) = Normal sd ->
    fetchStage showNumber net params (initialResult params) = (Normal sd, r) ->
    valuationBody showNumber net params (initialResult params) = (Normal tt, r') ->
    Fetched sd r ->
    StepsOutcome sd (flagged sd r) r' ->
    ValuationOutcome params r'
| ValuationFatal m r :
    getStockData showNumber net (p_symbol params) (p_finnhubApiKey params) = Throw m ->
    valuationBody showNumber net params (initialResult params) = (Throw m, r) ->
    fairValue r = None -> warnings r = [] -> marketPeg r = Some benchmarkPeg ->
    actualEps r = None ->
    ValuationOutcome params
      (set_valuationPossible false
         (push_warning ("Error during calculation: " ++ m) r)).

Lemma calculateStockValuation_outcome params :
  exists r, calculateStockValuation showNumber net params = Normal r
            /\ ValuationOutcome params r.
Proof.
  unfold calculateStockValuation, valuationBody. unfold tryCatchM, bindM at 1.
  pose proof (fetchStage_outcome params) as Hf.
  destruct (fetchStage showNumber net params (initialResult params))
    as [[sd|m] r] eqn:Hfetch.
  - destruct Hf as [Hsd HF].
    destruct (valuationSteps_outcome sd r) as [r' [E O]]. rewrite E.
    exists r'. split; [reflexivity|].
    apply (ValuationDone params sd r r'); try assumption.
    unfold valuationBody, bindM. now rewrite Hfetch.
  - destruct Hf as [Hsd [Hfv [Hw [Hm Hact]]]]. run_block.
    eexists. split; [reflexivity|]. apply ValuationFatal; try assumption.
    unfold valuationBody, bindM. now rewrite Hfetch.
Qed.

(** What [calculatePeg] needs to return a number. *)
Lemma calculatePeg_Some pe g v :
  calculatePeg pe g = Some v ->
  leb (num g) (Fin 0) = false
  /\ (exists p, pe = Some p /\ isFiniteNum p = true /\ ltb (Fin 0) p = true)
  /\ v = div (num pe) (mul (num g) (Fin 100)).
Proof.
  unfold calculatePeg.
  destruct (leb (num g) (Fin 0)) eqn:Hg; [discriminate|].
  destruct pe as [p|]; [|discriminate]. cbn [isFinite num orb].
  destruct (isFiniteNum p) eqn:Hf; [|discriminate]. cbn [negb orb].
  destruct (leb p (Fin 0)) eqn:Hp; [discriminate|]. intros [= <-].
  split; [reflexivity|]. split; [|reflexivity].
  exists p. repeat split; try assumption.
  apply not_leb_zero_ltb; [|assumption]. now destruct p.
Qed.

Lemma isFinite_Some x :
  isFinite x = true -> exists n, x = Some n /\ isFiniteNum n = true.
Proof. destruct x as [n|]; [eauto|discriminate]. Qed.

(** Once both EPS values are finite, the forward one is positive and
    the growth rate is a number. *)
Lemma finite_eps_growth sd r0 r :
  Fetched sd r0 -> r = flagged sd r0 ->
  isFinite (actualEps r) = true -> isFinite (estimatedEps r) = true ->
  exists a e,
    actualEps r = Some a /\ isFiniteNum a = true
    /\ estimatedEps r = Some e /\ finitePositive e
    /\ growthRate (withGrowth r) = Some (sub (div e a) (Fin 1))
    /\ isNaN (sub (div e a) (Fin 1)) = false.
Proof.
  intros F -> Ha He. destruct (flagged_fields sd r0) as [b [Eb _]].
  rewrite Eb in *. fields.
  destruct (isFinite_Some _ Ha) as [a [Ea Hfa]].
  destruct (fetched_estimatedEps _ _ F) as [Hn|[e [Ee Hpos]]].
  - rewrite Hn in He. discriminate.
  - exists a, e. unfold withGrowth. fields. rewrite Ea, Ee. cbn [num].
    repeat split; try assumption; try apply Hpos. now apply growth_not_NaN.
Qed.

Lemma flagged_Fetched sd r : Fetched sd r ->
  marketPeg (flagged sd r) = Some benchmarkPeg
  /\ (exists b, beta (flagged sd r) = Some b /\ isFiniteNum b = true)
  /\ (exists p, currentPrice (flagged sd r) = Some p /\ finitePositive p)
  /\ fairValue (flagged sd r) = None
  /\ stockPe (flagged sd r) = None
  /\ stockPeg (flagged sd r) = None
  /\ valuationPossible (flagged sd r) = false.
Proof.
  intros F. destruct (flagged_fields sd r) as [b [-> _]]. fields.
  destruct (fetched_beta_valid _ _ F) as [b' [Hb [Hbf _]]].
  destruct F. repeat split; try assumption. exists b'. now split.
Qed.

(** C1.  For every result [calculateStockValuation] returns: when
    [valuationPossible] is true, [fairValue], [stockPeg], [marketPeg] and
    [growthRate] are numbers (not [null]) with [stockPeg > 0],
    [growthRate > 0] and [stockPe > 0]; when [valuationPossible] is false,
    [fairValue] is [null]. *)
Theorem valuationPossible_invariant (params : Params) (r : ValuationResult) :
  calculateStockValuation showNumber net params = Normal r ->
  (valuationPossible r = true ->
     (exists v, fairValue r = Some v)
     /\ (exists v, stockPeg r = Some v /\ ltb (Fin 0) v = true)
     /\ (exists v, marketPeg r = Some v)
     /\ (exists v, growthRate r = Some v /\ ltb (Fin 0) v = true)
     /\ (exists v, stockPe r = Some v /\ ltb (Fin 0) v = true))
  /\ (valuationPossible r = false -> fairValue r = None).
Proof.
  intros Hr. destruct (calculateStockValuation_outcome params) as [r' [E O]].
  rewrite E in Hr. injection Hr as <-.
  destruct O as [sd r0 r' Hsd Hfetch Hbody F O | m r0 Hsd Hbody Hfv Hw Hm Hnoeps].
  2:{ fields. split; [discriminate | intros _; exact Hfv]. }
  destruct (flagged_Fetched sd r0 F) as [Hmp [_ [_ [Hfv [_ [_ Hvp]]]]]].
  remember (flagged sd r0) as rf eqn:Hrf.
  assert (Peg : forall r1 r2 g,
            PegOutcome r1 r2 -> fairValue r1 = None -> marketPeg r1 = Some benchmarkPeg ->
            growthRate r1 = Some g -> isNaN g = false ->
            (valuationPossible r2 = true ->
               (exists v, fairValue r2 = Some v)
               /\ (exists v, stockPeg r2 = Some v /\ ltb (Fin 0) v = true)
               /\ (exists v, marketPeg r2 = Some v)
               /\ (exists v, growthRate r2 = Some v /\ ltb (Fin 0) v = true)
               /\ (exists v, stockPe r2 = Some v /\ ltb (Fin 0) v = true))
            /\ (valuationPossible r2 = false -> fairValue r2 = None)).
  { intros r1 r2 g P Hf1 Hm1 Hg1 Hnan.
    destruct P as [Hgate | v Hg0 Hpe0 Hpeg Hv | v Hg0 Hpe0 Hpeg Hv]; fields.
    - split; [discriminate | intros _; exact Hf1].
    - split; [discriminate | intros _; exact Hf1].
    - split; [intros _ | discriminate].
      destruct (calculatePeg_Some _ _ _ Hpeg) as [_ [[p [Hp [Hpf Hpp]]] Ev]].
      rewrite Hg1 in *. cbn [num] in *.
      pose proof (not_leb_zero_ltb g Hnan Hg0) as Hgpos.
      repeat split; eauto.
      exists v. split; [reflexivity|]. apply not_leb_zero_ltb; [|exact Hv].
      rewrite Ev, Hp. cbn [num]. now apply peg_not_NaN. }
  destruct O as [Hmiss | pe r' Ha He Hpe P | r' Ha He Hpe Htp Hta P | Ha He Hpe Ht].
  - fields. split; [discriminate | intros _; exact Hfv].
  - destruct (finite_eps_growth sd r0 rf F Hrf Ha He) as [a [e [_ [_ [_ [_ [Hg Hnan]]]]]]].
    apply (Peg _ _ (sub (div e a) (Fin 1)) P); fields; try assumption;
      unfold withGrowth; fields; assumption.
  - destruct (finite_eps_growth sd r0 rf F Hrf Ha He) as [a [e [_ [_ [_ [_ [Hg Hnan]]]]]]].
    apply (Peg _ _ (sub (div e a) (Fin 1)) P); fields; try assumption;
      unfold withGrowth; fields; assumption.
  - fields. split; [discriminate | intros _; exact Hfv].
Qed.

(** C3.  Whenever the result has [valuationPossible = true], its fair
    value is [currentPrice * ((marketPeg + (beta - 1) * 0.7 * marketPeg) /
    stockPeg)], the expression of line 333 on the fields of the result,
    all of which are numbers; with exact arithmetic this is also
    [(currentPrice * (marketPeg + (beta - 1) * 0.7 * marketPeg)) /
    stockPeg]. *)
Theorem fairValue_formula (params : Params) (r : ValuationResult) :
  calculateStockValuation showNumber net params = Normal r ->
  valuationPossible r = true ->
  exists price mPeg b sPeg,
    currentPrice r = Some price /\ marketPeg r = Some mPeg
    /\ beta r = Some b /\ stockPeg r = Some sPeg
    /\ fairValue r =
        Some (mul price
                (div (add mPeg (mul (mul (sub b (Fin 1)) (Fin (7 # 10))) mPeg)) sPeg))
    /\ fairValue r =
        Some (div (mul price
                     (add mPeg (mul (mul (sub b (Fin 1)) (Fin (7 # 10))) mPeg)))
                sPeg).
Proof.
  intros Hr Hposs. destruct (calculateStockValuation_outcome params) as [r' [E O]].
  rewrite E in Hr. injection Hr as <-.
  destruct O as [sd r0 r' Hsd Hfetch Hbody F O | m r0 Hsd Hbody Hfv Hw Hm Hnoeps].
  2:{ fields. discriminate. }
  destruct (flagged_Fetched sd r0 F) as [Hmp [[b [Hb Hbf]] [[p [Hp Hppos]] _]]].
  remember (flagged sd r0) as rf eqn:Hrf.
  assert (Peg : forall r1 r2 g,
            PegOutcome r1 r2 -> valuationPossible r2 = true ->
            currentPrice r1 = Some p -> marketPeg r1 = Some benchmarkPeg ->
            beta r1 = Some b -> growthRate r1 = Some g -> isNaN g = false ->
            exists price mPeg b sPeg,
              currentPrice r2 = Some price /\ marketPeg r2 = Some mPeg
              /\ beta r2 = Some b /\ stockPeg r2 = Some sPeg
              /\ fairValue r2 =
                  Some (mul price
                          (div (add mPeg (mul (mul (sub b (Fin 1)) (Fin (7 # 10))) mPeg))
                             sPeg))
              /\ fairValue r2 =
                  Some (div (mul price
                               (add mPeg
                                  (mul (mul (sub b (Fin 1)) (Fin (7 # 10))) mPeg)))
                          sPeg)).
  { intros r1 r2 g P Hv H1 H2 H3 Hg Hnan.
    destruct P as [Hgate | v Hg0 Hpe0 Hpeg Hv0 | v Hg0 Hpe0 Hpeg Hv0]; fields;
      try discriminate.
    exists p, benchmarkPeg, b, v. unfold fairValueOf. fields.
    rewrite H1, H2, H3. cbn [num]. repeat split; try reflexivity.
    f_equal. apply mul_div_regroup; [exact Hppos| |].
    - apply isFiniteNum_add; [reflexivity|].
      apply isFiniteNum_mul; [|reflexivity].
      apply isFiniteNum_mul; [|reflexivity].
      now apply isFiniteNum_sub_one.
    - destruct (calculatePeg_Some _ _ _ Hpeg) as [_ [[pe [Hpe [Hpf Hpp]]] Ev]].
      rewrite Hg, Hpe in *. cbn [num] in *. rewrite Ev.
      apply peg_finitePositive; try assumption.
      + now apply not_leb_zero_ltb.
      + now rewrite <- Ev. }
  destruct O as [Hmiss | pe r' Ha He Hpe P | r' Ha He Hpe Htp Hta P | Ha He Hpe Ht];
    fields; try discriminate.
  - destruct (finite_eps_growth sd r0 rf F Hrf Ha He) as [a [e [_ [_ [_ [_ [Hg Hnan]]]]]]].
    apply (Peg _ _ (sub (div e a) (Fin 1)) P Hposs); fields; try assumption;
      unfold withGrowth; fields; assumption.
  - destruct (finite_eps_growth sd r0 rf F Hrf Ha He) as [a [e [_ [_ [_ [_ [Hg Hnan]]]]]]].
    apply (Peg _ _ (sub (div e a) (Fin 1)) P Hposs); fields; try assumption;
      unfold withGrowth; fields; assumption.
Qed.

(** C5.  Whenever the result has finite [actualEps] and [estimatedEps]
    with [estimatedEps <= actualEps], [valuationPossible] is false and
    [fairValue] is [null]. *)
Theorem no_valuation_without_growth (params : Params) (r : ValuationResult) :
  calculateStockValuation showNumber net params = Normal r ->
  isFinite (actualEps r) = true ->
  isFinite (estimatedEps r) = true ->
  leb (num (estimatedEps r)) (num (actualEps r)) = true ->
  valuationPossible r = false /\ fairValue r = None.
Proof.
  intros Hr Hact Hest Hle.
  destruct (calculateStockValuation_outcome params) as [r' [E O]].
  rewrite E in Hr. injection Hr as <-.
  destruct O as [sd r0 r' Hsd Hfetch Hbody F O | m r0 Hsd Hbody Hfv Hw Hm Hnoeps].
  2:{ fields. now split. }
  destruct (flagged_Fetched sd r0 F) as [_ [_ [_ [Hfv _]]]].
  remember (flagged sd r0) as rf eqn:Hrf.
  assert (Peg : forall r1 r2 e a,
            PegOutcome r1 r2 -> fairValue r1 = None ->
            actualEps r1 = Some a -> estimatedEps r1 = Some e ->
            growthRate r1 = Some (sub (div e a) (Fin 1)) ->
            finitePositive e -> isFiniteNum a = true ->
            leb (num (estimatedEps r2)) (num (actualEps r2)) = true ->
            valuationPossible r2 = false /\ fairValue r2 = None).
  { intros r1 r2 e a P Hf1 Ea Ee Eg Hpos Hfa Hle2.
    destruct P as [Hgate | v Hg0 Hpe0 Hpeg Hv0 | v Hg0 Hpe0 Hpeg Hv0]; fields;
      try (split; [reflexivity | exact Hf1]).
    exfalso. rewrite Ea, Ee in Hle2. rewrite Eg in Hg0. cbn [num] in *.
    rewrite (growth_nonpositive e a Hpos Hfa Hle2) in Hg0. discriminate. }
  destruct O as [Hmiss | pe r' Ha He Hpe P | r' Ha He Hpe Htp Hta P | Ha He Hpe Ht];
    fields; try (split; [reflexivity | exact Hfv]).
  - destruct (finite_eps_growth sd r0 rf F Hrf Ha He)
      as [a [e [Ea [Hfa [Ee [Hpos [Hg _]]]]]]].
    apply (Peg _ _ e a P); unfold withGrowth in *; fields; assumption.
  - destruct (finite_eps_growth sd r0 rf F Hrf Ha He)
      as [a [e [Ea [Hfa [Ee [Hpos [Hg _]]]]]]].
    apply (Peg _ _ e a P); unfold withGrowth in *; fields; assumption.
Qed.

(** When the quote block fails, the handler of lines 336-339 builds the
    result. *)
Lemma fatal_result params m :
  fst (quoteBlock showNumber net (p_symbol params) (p_finnhubApiKey params)
         initialStockData) = Throw m ->
  exists r,
    calculateStockValuation showNumber net params = Normal r
    /\ valuationPossible r = false /\ fairValue r = None
    /\ warnings r = [("Error during calculation: " ++ m)%string].
Proof.
  intros Hq. apply getStockData_Throw in Hq.
  destruct (calculateStockValuation_outcome params) as [r [E O]].
  exists r. split; [exact E|].
  destruct O as [sd r0 r' Hsd Hfetch Hbody F O | m' r0 Hsd Hbody Hfv Hw Hm Hnoeps].
  - congruence.
  - assert (m = m') by congruence. subst m'. fields. rewrite Hw.
    repeat split; assumption || reflexivity.
Qed.

(** C2.  [calculateStockValuation] always returns a result and never
    throws.  When the price cannot be obtained (the quote block fails with
    the error text [m]) the result has [valuationPossible = false], no fair
    value, and the one warning that carries [m]; and whatever exception
    leaves the body of the [try] block is turned into such a warning on
    the result as it stood. *)
Theorem calculateStockValuation_total (params : Params) :
  exists r,
    calculateStockValuation showNumber net params = Normal r
    /\ (forall m,
          fst (quoteBlock showNumber net (p_symbol params) (p_finnhubApiKey params)
                 initialStockData) = Throw m ->
          valuationPossible r = false /\ fairValue r = None
          /\ warnings r = [("Error during calculation: " ++ m)%string])
    /\ (forall m r0,
          valuationBody showNumber net params (initialResult params) = (Throw m, r0) ->
          r = set_valuationPossible false
                (push_warning ("Error during calculation: " ++ m) r0)).
Proof.
  destruct (calculateStockValuation_outcome params) as [r [E O]].
  exists r. split; [exact E|].
  destruct O as [sd r0 r' Hsd Hfetch Hbody F O | m' r0 Hsd Hbody Hfv Hw Hm Hnoeps].
  - split.
    + intros m Hq. apply getStockData_Throw in Hq. congruence.
    + intros m r1 Hb. congruence.
  - split.
    + intros m Hq. apply getStockData_Throw in Hq.
      assert (m = m') by congruence. subst m'. fields. rewrite Hw.
      repeat split; assumption || reflexivity.
    + intros m r1 Hb. rewrite Hbody in Hb. now injection Hb as <- <-.
Qed.


(* ----------------------------------------------------------------- *)
(** ** The net-income fallback *)

Lemma nonzero_truthy (n : number) :
  isFiniteNum n = true -> JsNumber.eqb n (Fin 0) = false -> truthyNum n = true.
Proof.
  destruct n as [q| | | |]; cbn; try discriminate.
  intros _ H. now rewrite H.
Qed.

(** A value that parses to a finite non-zero number is truthy. *)
Lemma parseFloat_nonzero_truthy v :
  isFiniteNum (parseFloat v) = true ->
  JsNumber.eqb (parseFloat v) (Fin 0) = false ->
  truthy v = true.
Proof.
  destruct v as [| |b|n|s|items|fields]; cbn; try discriminate; try reflexivity.
  - destruct n as [q| | | |]; cbn; try discriminate.
    intros _ H. now rewrite H.
  - destruct s; [discriminate|reflexivity].
Qed.

(** The trailing EPS after the fallback block is the one before it, or
    a finite non-zero net income. *)
Lemma financialsBlock_eps s k x :
  steady (fun d => sd_actualEps d = x
                   \/ exists n, sd_actualEps d = Some n
                                /\ isFiniteNum n = true /\ truthyNum n = true)
         (financialsBlock net s k).
Proof.
  unfold financialsBlock. block; try assumption.
  right. match goal with H : _ && _ = true |- _ =>
    apply andb_true_iff in H; destruct H as [Hf Hz] end.
  apply negb_true_iff in Hz.
  eexists. split; [reflexivity|]. split; [exact Hf|]. now apply nonzero_truthy.
Qed.

(** The fallback block on a falsy trailing EPS, when the fetch fails. *)
Lemma financialsBlock_fetch_fails s k d m :
  truthyOpt (sd_actualEps d) = false ->
  fetchFinnhub net (financialsUrl s k) = Throw m ->
  financialsBlock net s k d
  = (Normal tt, sd_push_warning ("Could not fetch financials: " ++ m) d).
Proof.
  intros Hz Hf. unfold financialsBlock. run_block. rewrite Hz, Hf. reflexivity.
Qed.

(** The fallback block on a falsy trailing EPS, when the latest filing
    reports a net income. *)
Lemma financialsBlock_net_income s k d financialsData filing rest report ic rawIncome :
  truthyOpt (sd_actualEps d) = false ->
  fetchFinnhub net (financialsUrl s k) = Normal financialsData ->
  getProp financialsData "data" = Normal (JArr (filing :: rest)) ->
  getProp filing "report" = Normal report -> truthy report = true ->
  getProp report "ic" = Normal ic -> truthy ic = true ->
  getProp ic "NetIncomeLoss" = Normal rawIncome ->
  financialsBlock net s k d
  = (Normal tt,
     if isFiniteNum (parseFloat rawIncome)
        && negb (JsNumber.eqb (parseFloat rawIncome) (Fin 0))
     then sd_push_warning
            "Actual EPS derived from reported net income (not per share basis)."
            (set_sd_actualEps (Some (parseFloat rawIncome)) d)
     else d).
Proof.
  intros Hz Hf Hdata Hrep Htrep Hic Htic Hraw.
  unfold financialsBlock. run_block. rewrite Hz, Hf, Hdata. cbn [negb truthy].
  change (getProp (JArr (filing :: rest)) "length")
    with (Normal (JNum (ofNat (List.length (filing :: rest))))).
  cbn [toNumber]. rewrite ltb_zero_ofNat. cbn [List.length Nat.eqb negb getIndex0 hd].
  rewrite Hrep, Htrep, Hic, Htic, Hraw.
  destruct (isFiniteNum (parseFloat rawIncome)) eqn:Hfin; cbn [andb].
  - destruct (JsNumber.eqb (parseFloat rawIncome) (Fin 0)) eqn:Hz0; cbn [negb].
    + now destruct (truthy rawIncome).
    + now rewrite (parseFloat_nonzero_truthy _ Hfin Hz0).
  - now destruct (truthy rawIncome).
Qed.

(** C10.  When the metrics block leaves a trailing EPS that is exactly
    zero (finite, so it passed line 120, and falsy), [getStockData] runs
    the net-income fallback: a failing financials fetch leaves its
    warning, and a latest filing with a finite non-zero net income
    replaces [actualEps] by that net income, while a net income of zero
    is not accepted.  Whatever the provider answers, [actualEps] at the
    end is the zero of the metrics or a finite non-zero number. *)
Theorem zero_eps_takes_net_income_fallback (s k : string) (d0 d1 : StockData) (z : number) :
  quoteBlock showNumber net s k initialStockData = (Normal tt, d0) ->
  metricsBlock net s k d0 = (Normal tt, d1) ->
  sd_actualEps d1 = Some z -> isFiniteNum z = true -> truthyNum z = false ->
  exists d,
    getStockData showNumber net s k = Normal d
    /\ (forall m,
          fetchFinnhub net (financialsUrl s k) = Throw m ->
          sd_actualEps d = Some z
          /\ In ("Could not fetch financials: " ++ m)%string (sd_warnings d))
    /\ (forall financialsData filing rest report ic rawIncome,
          fetchFinnhub net (financialsUrl s k) = Normal financialsData ->
          getProp financialsData "data" = Normal (JArr (filing :: rest)) ->
          getProp filing "report" = Normal report -> truthy report = true ->
          getProp report "ic" = Normal ic -> truthy ic = true ->
          getProp ic "NetIncomeLoss" = Normal rawIncome ->
          if isFiniteNum (parseFloat rawIncome)
             && negb (JsNumber.eqb (parseFloat rawIncome) (Fin 0))
          then sd_actualEps d = Some (parseFloat rawIncome)
               /\ In "Actual EPS derived from reported net income (not per share basis)."%string
                     (sd_warnings d)
          else sd_actualEps d = Some z)
    /\ (sd_actualEps d = Some z
        \/ exists n, sd_actualEps d = Some n
                     /\ isFiniteNum n = true /\ truthyNum n = true).
Proof.
  intros Hq Hm Hz Hfin Hfalsy.
  assert (Hz' : truthyOpt (sd_actualEps d1) = false) by now rewrite Hz.
  destruct (run_total _ d1 (financialsBlock_total s k)) as [[] E2].
  set (d2 := snd (financialsBlock net s k d1)) in *.
  destruct (defaultsBlock_outcome d2) as [d [E3 [_ [_ [Hact [_ Hw]]]]]].
  assert (Hrun : getStockData showNumber net s k = Normal d).
  { unfold getStockData. unfold bindM. now rewrite Hq, Hm, E2, E3. }
  exists d. split; [exact Hrun|]. rewrite Hact. split; [|split].
  - intros m Hf. pose proof (financialsBlock_fetch_fails s k d1 m Hz' Hf) as E.
    rewrite E2 in E. injection E as E. rewrite E. split; [exact Hz|].
    apply Hw. rewrite E. cbn. apply in_or_app. right. now left.
  - intros fd filing rest report ic raw Hf Hdata Hrep Htrep Hic Htic Hraw.
    pose proof (financialsBlock_net_income s k d1 fd filing rest report ic raw
                  Hz' Hf Hdata Hrep Htrep Hic Htic Hraw) as E.
    rewrite E2 in E. injection E as E.
    destruct (isFiniteNum (parseFloat raw) && negb (JsNumber.eqb (parseFloat raw) (Fin 0))).
    + rewrite E. split; [reflexivity|]. apply Hw. rewrite E. cbn.
      apply in_or_app. right. now left.
    + now rewrite E.
  - apply (financialsBlock_eps s k (Some z) d1). now left.
Qed.

(* ----------------------------------------------------------------- *)
(** ** The batch route *)

(** The symbol of the result is the symbol of the request. *)
Lemma calculateStockValuation_symbol params r :
  calculateStockValuation showNumber net params = Normal r ->
  symbol r = p_symbol params.
Proof.
  unfold calculateStockValuation.
  assert (H : steady (fun r => symbol r = p_symbol params)
                (tryCatchM (valuationBody showNumber net params)
                   (fun m => bindM (modify (push_warning ("Error during calculation: " ++ m)))
                               (fun _ => modify (set_valuationPossible false))))).
  { unfold valuationBody, fetchStage, valuationSteps, betaFlagBlock, pegAndFairValue.
    block; assumption. }
  specialize (H (initialResult params) eq_refl).
  destruct (tryCatchM _ _ (initialResult params)) as [[[]|m] r'];
    [intros [= <-]; exact H | discriminate].
Qed.

Lemma mapIndexed_length {A B} (f : A -> nat -> B) start l :
  List.length (mapIndexed f start l) = List.length l.
Proof.
  revert start. induction l as [|x l IH]; intros start; cbn; [reflexivity|].
  now rewrite IH.
Qed.

Lemma mapIndexed_app {A B} (f : A -> nat -> B) start l1 l2 :
  mapIndexed f start (l1 ++ l2)
  = (mapIndexed f start l1 ++ mapIndexed f (start + List.length l1) l2)%list.
Proof.
  revert start. induction l1 as [|x l1 IH]; intros start; cbn.
  - now rewrite Nat.add_0_r.
  - rewrite IH. now rewrite Nat.add_succ_r.
Qed.

(** Two maps that agree position by position. *)
Lemma mapIndexed_agree {A B} (f g : A -> nat -> B) a b l :
  (forall x j, (j < List.length l)%nat -> f x (a + j)%nat = g x (b + j)%nat) ->
  mapIndexed f a l = mapIndexed g b l.
Proof.
  revert a b. induction l as [|x l IH]; intros a b H; cbn; [reflexivity|].
  f_equal.
  - specialize (H x 0%nat). rewrite !Nat.add_0_r in H. apply H. cbn. lia.
  - apply IH. intros y j Hj. specialize (H y (S j)).
    rewrite !Nat.add_succ_r in H. apply H. cbn. lia.
Qed.

(** An item depends on the list of markets through its own entry only. *)
Lemma valuationItem_market key alphaKey ml ml' growth sym i j :
  nth_error ml i = nth_error ml' j ->
  valuationItem showNumber net key alphaKey ml growth sym i
  = valuationItem showNumber net key alphaKey ml' growth sym j.
Proof. intros H. unfold valuationItem. now rewrite H. Qed.

(** C9, as the code has it.  In a batch over several tickers, a ticker
    whose price fetch fails with the error text [m] produces a full
    valuation result for its symbol, with [valuationPossible = false], no
    fair value and the one warning that carries [m] (not an object
    [{symbol, error, valuationPossible}]); and the results of the other
    tickers are those of the batch without the failing ticker, in the
    same order. *)
Theorem batch_failure_is_isolated
    (key : string) (alphaKey : option string) (growth : jsval)
    (before after : list string) (bad : string)
    (marketsBefore marketsAfter : list string) (marketBad : string) (m : string) :
  List.length marketsBefore = List.length before ->
  fst (quoteBlock showNumber net (toUpperCase bad) key initialStockData) = Throw m ->
  let others :=
    batchResults showNumber net key alphaKey growth
      (before ++ after) (marketsBefore ++ marketsAfter) in
  exists r,
    batchResults showNumber net key alphaKey growth
      (before ++ bad :: after) (marketsBefore ++ marketBad :: marketsAfter)
    = (firstn (List.length before) others
       ++ ItemResult r :: skipn (List.length before) others)%list
    /\ symbol r = toUpperCase bad
    /\ valuationPossible r = false /\ fairValue r = None
    /\ warnings r = [("Error during calculation: " ++ m)%string].
Proof.
  intros Hlen Hq others.
  set (market :=
         match nth_error (marketsBefore ++ marketBad :: marketsAfter)
                 (List.length before) with
         | Some x => if isEmpty x then "US"%string else x
         | None => "US"%string
         end).
  set (params := {| p_symbol := toUpperCase bad; p_finnhubApiKey := key;
                    p_alphaVantageApiKey := alphaKey; p_market := Some market;
                    p_marketGrowthRatePercent :=
                      Some (JNum (if truthyNum (parseFloat growth)
                                  then parseFloat growth else Fin 10)) |}).
  destruct (fatal_result params m Hq) as [r [Hr [Hv [Hf Hw]]]].
  exists r. split; [|repeat split; try assumption].
  2:{ now rewrite (calculateStockValuation_symbol params r Hr). }
  subst others. unfold batchResults.
  rewrite !mapIndexed_app. cbn [mapIndexed Nat.add].
  set (f := valuationItem showNumber net key alphaKey
              (marketsBefore ++ marketBad :: marketsAfter) growth).
  set (g := valuationItem showNumber net key alphaKey
              (marketsBefore ++ marketsAfter) growth).
  assert (E1 : mapIndexed f 0 before = mapIndexed g 0 before).
  { apply mapIndexed_agree. intros x j Hj. cbn [Nat.add].
    apply valuationItem_market.
    rewrite !nth_error_app1 by lia. reflexivity. }
  assert (E2 : mapIndexed f (S (List.length before)) after
               = mapIndexed g (List.length before) after).
  { apply mapIndexed_agree. intros x j Hj.
    apply valuationItem_market.
    rewrite !nth_error_app2 by lia.
    replace (S (List.length before) + j - List.length marketsBefore)%nat
      with (S j) by lia.
    replace (List.length before + j - List.length marketsBefore)%nat with j by lia.
    reflexivity. }
  assert (E3 : f bad (List.length before) = ItemResult r).
  { subst f. unfold valuationItem. fold market. fold params. now rewrite Hr. }
  rewrite E1, E2, E3.
  rewrite firstn_app, skipn_app, mapIndexed_length, Nat.sub_diag.
  rewrite firstn_all2 by (rewrite mapIndexed_length; lia).
  rewrite skipn_all2 by (rewrite mapIndexed_length; lia).
  cbn [firstn skipn]. now rewrite app_nil_r.
Qed.

(** The benchmark PEG of every result is the constant of line 267,
    whatever growth rate the request assumes. *)
Lemma marketPeg_is_constant params r :
  calculateStockValuation showNumber net params = Normal r ->
  marketPeg r = Some benchmarkPeg.
Proof.
  intros Hr. destruct (calculateStockValuation_outcome params) as [r' [E O]].
  rewrite E in Hr. injection Hr as <-.
  destruct O as [sd r0 r' Hsd Hfetch Hbody F O | m r0 Hsd Hbody Hfv Hw Hm Hnoeps];
    [|exact Hm].
  destruct (flagged_Fetched sd r0 F) as [Hmp _].
  assert (Peg : forall r1 r2, PegOutcome r1 r2 -> marketPeg r2 = marketPeg r1).
  { intros r1 r2 P. destruct P; reflexivity. }
  destruct O as [Hmiss | pe r' Ha He Hpe P | r' Ha He Hpe Htp Hta P | Ha He Hpe Ht];
    try rewrite (Peg _ _ P); exact Hmp.
Qed.

End Properties.

(* ================================================================= *)
(** ** Finite arithmetic agrees with the rationals *)

Module FiniteArithmetic.

Local Open Scope Q_scope.

(** The value of a finite number; both zeros have the value 0. *)
Definition val (x : number) : Q :=
  match qval x with
  | Some q => q
  | None => 0
  end.

Lemma val_zero (s : bool) : val (zero s) == 0.
Proof. destruct s; reflexivity. Qed.

Lemma val_mkfin (s : bool) (q : Q) : val (mkfin s q) == q.
Proof.
  unfold mkfin. destruct (Qeq_bool q 0) eqn:E.
  - apply Qeq_bool_iff in E. rewrite val_zero. now symmetry.
  - unfold val. cbn [qval]. apply Qred_correct.
Qed.

Lemma qval_finite (x : number) :
  isFiniteNum x = true -> qval x = Some (val x).
Proof. destruct x; try discriminate; reflexivity. Qed.

Lemma finite_not_NaN (x : number) : isFiniteNum x = true -> isNaN x = false.
Proof. destruct x; try discriminate; reflexivity. Qed.

Lemma val_add (x y : number) :
  isFiniteNum x = true -> isFiniteNum y = true -> val (add x y) == val x + val y.
Proof.
  intros Hx Hy. unfold add.
  rewrite (finite_not_NaN x Hx), (finite_not_NaN y Hy). cbn [orb].
  rewrite (qval_finite x Hx), (qval_finite y Hy).
  destruct (Qeq_bool (val x + val y) 0) eqn:E.
  - apply Qeq_bool_iff in E. rewrite val_zero. now symmetry.
  - unfold val at 1. cbn [qval]. apply Qred_correct.
Qed.

Lemma neg_finite (y : number) : isFiniteNum y = true -> isFiniteNum (neg y) = true.
Proof. destruct y; try discriminate; intros _; cbn; [destruct (Qeq_bool q 0)|]; reflexivity. Qed.

Lemma val_neg (y : number) : isFiniteNum y = true -> val (neg y) == - val y.
Proof.
  destruct y as [q| | | |]; try discriminate; intros _.
  - cbn [neg]. destruct (Qeq_bool q 0) eqn:E.
    + apply Qeq_bool_iff in E. unfold val. cbn [qval]. rewrite E. reflexivity.
    + unfold val. cbn [qval]. apply Qred_correct.
  - reflexivity.
Qed.

Lemma val_sub (x y : number) :
  isFiniteNum x = true -> isFiniteNum y = true -> val (sub x y) == val x - val y.
Proof.
  intros Hx Hy. unfold sub.
  rewrite (val_add x (neg y) Hx (neg_finite y Hy)), (val_neg y Hy). reflexivity.
Qed.

Lemma val_mul (x y : number) :
  isFiniteNum x = true -> isFiniteNum y = true -> val (mul x y) == val x * val y.
Proof.
  intros Hx Hy. unfold mul.
  rewrite (finite_not_NaN x Hx), (finite_not_NaN y Hy). cbn [orb].
  rewrite (qval_finite x Hx), (qval_finite y Hy). apply val_mkfin.
Qed.

Lemma div_finite (x y : number) :
  isFiniteNum x = true -> isFiniteNum y = true -> ~ val y == 0 ->
  isFiniteNum (div x y) = true /\ val (div x y) == val x / val y.
Proof.
  intros Hx Hy Hnz. unfold div.
  rewrite (finite_not_NaN x Hx), (finite_not_NaN y Hy). cbn [orb].
  rewrite (qval_finite x Hx), (qval_finite y Hy).
  assert (E : Qeq_bool (val y) 0 = false) by now apply Qeq_bool_false.
  rewrite E. split; [apply isFiniteNum_mkfin | apply val_mkfin].
Qed.

(** A finite number is positive exactly when its value is. *)
Lemma finitePositive_val (x : number) :
  finitePositive x <-> isFiniteNum x = true /\ 0 < val x.
Proof.
  unfold finitePositive. split; intros [Hf Hp]; (split; [exact Hf|]).
  - destruct x as [q| | | |]; try discriminate; cbn in *;
      first [now apply Qlt_bool_iff | discriminate].
  - destruct x as [q| | | |]; try discriminate; cbn in *;
      first [now apply Qlt_bool_iff | now apply Qlt_irrefl in Hp].
Qed.

Lemma not_negative_val (x : number) :
  isFiniteNum x = true -> ltb x (Fin 0) = false -> 0 <= val x.
Proof.
  destruct x as [q| | | |]; try discriminate; cbn; intros _ H;
    first [ apply Qle_refl
          | unfold Qlt_bool in H; apply negb_false_iff in H; now apply Qle_bool_iff ].
Qed.

(** A difference [x - 1] is finite only when [x] is. *)
Lemma sub_one_finite_inv (x : number) :
  isFiniteNum (sub x (Fin 1)) = true -> isFiniteNum x = true.
Proof. destruct x; intros H; try reflexivity; vm_compute in H; discriminate. Qed.

(** A positive number over a finite one is finite only when the divisor
    is not a zero. *)
Lemma div_finite_inv (e a : number) :
  finitePositive e -> isFiniteNum a = true -> isFiniteNum (div e a) = true ->
  ~ val a == 0.
Proof.
  intros He Ha Hd Hz. destruct (positive_inv e He) as [q [-> Hq]].
  revert Hd. unfold div. rewrite (finite_not_NaN a Ha). cbn [isNaN orb].
  rewrite (qval_finite a Ha). cbn [qval].
  assert (E : Qeq_bool (val a) 0 = true) by now apply Qeq_bool_iff.
  assert (Eq : Qeq_bool q 0 = false) by (apply Qeq_bool_false; lra).
  rewrite E, Eq. destruct (xorb _ _); discriminate.
Qed.

(** A finite positive growth rate [e / a - 1] of a positive estimate
    means [0 < a < e]. *)
Lemma growth_positive (e a : number) :
  finitePositive e -> isFiniteNum a = true ->
  isFiniteNum (sub (div e a) (Fin 1)) = true ->
  ltb (Fin 0) (sub (div e a) (Fin 1)) = true ->
  0 < val a /\ val a < val e /\ val (sub (div e a) (Fin 1)) == val e / val a - 1.
Proof.
  intros He Ha Hg Hpos.
  pose proof (sub_one_finite_inv _ Hg) as Hd.
  pose proof (div_finite_inv e a He Ha Hd) as Hnz.
  destruct (div_finite e a (proj1 He) Ha Hnz) as [_ Ev].
  assert (Eg : val (sub (div e a) (Fin 1)) == val e / val a - 1).
  { rewrite (val_sub (div e a) (Fin 1) Hd eq_refl), Ev. reflexivity. }
  assert (Hgp : 0 < val (sub (div e a) (Fin 1))) by (apply finitePositive_val; now split).
  apply finitePositive_val in He. destruct He as [_ Hep].
  rewrite Eg in Hgp.
  set (t := val e / val a) in *.
  assert (Et : val e == t * val a) by (unfold t; field; exact Hnz).
  split; [|split; [|exact Eg]]; nra.
Qed.

(** A PEG that passes the last check has a finite growth rate. *)
Lemma peg_growth_finite (p g : number) :
  isFiniteNum p = true -> isNaN g = false -> leb g (Fin 0) = false ->
  leb (div p (mul g (Fin 100))) (Fin 0) = false -> isFiniteNum g = true.
Proof.
  intros Hp Hn Hg Hv. destruct g; try reflexivity; try discriminate.
  exfalso. revert Hv. destruct p as [q| | | |]; try discriminate.
  unfold div, mul. cbn [isNaN orb qval signbit xorb inf].
  change (Qeq_bool 100 0) with false. cbn [isNaN orb qval].
  destruct (xorb _ _); discriminate.
Qed.

Lemma peg_value (p g : number) :
  isFiniteNum p = true -> isFiniteNum g = true -> 0 < val g ->
  isFiniteNum (div p (mul g (Fin 100))) = true
  /\ val (div p (mul g (Fin 100))) == val p / (val g * 100).
Proof.
  intros Hp Hg Hpos.
  assert (Hm : isFiniteNum (mul g (Fin 100)) = true) by now apply isFiniteNum_mul.
  assert (Em : val (mul g (Fin 100)) == val g * 100) by now rewrite val_mul.
  assert (Hnz : ~ val (mul g (Fin 100)) == 0) by (rewrite Em; lra).
  destruct (div_finite p _ Hp Hm Hnz) as [Hf Ev].
  split; [exact Hf|]. rewrite Ev, Em. reflexivity.
Qed.

(** Comparisons of finite numbers are those of their values. *)
Lemma ltb_val (x y : number) :
  isFiniteNum x = true -> isFiniteNum y = true -> val x < val y -> ltb x y = true.
Proof.
  destruct x, y; try discriminate; cbn; intros _ _ H;
    first [now apply Qlt_bool_iff | now apply Qlt_irrefl in H].
Qed.

Lemma leb_zero_val (x : number) :
  isFiniteNum x = true -> 0 <= val x -> leb (Fin 0) x = true.
Proof.
  destruct x; try discriminate; cbn; intros _ H;
    first [now apply Qle_bool_iff | reflexivity].
Qed.

Lemma positive_not_leb (x : number) :
  isFiniteNum x = true -> 0 < val x -> leb x (Fin 0) = false.
Proof.
  destruct x as [q| | | |]; try discriminate; cbn; intros _ H.
  destruct (Qle_bool q 0) eqn:E; [|reflexivity].
  apply Qle_bool_iff in E. lra.
Qed.

(** A growth rate that is above zero and not finite is [+Infinity]. *)
Lemma above_zero_infinite (g : number) :
  isNaN g = false -> leb g (Fin 0) = false -> isFiniteNum g = false -> g = PosInf.
Proof. destruct g; try discriminate; reflexivity. Qed.

(** The growth rate of a positive estimate is infinite only over a
    zero. *)
Lemma growth_infinite (e a : number) :
  finitePositive e -> isFiniteNum a = true ->
  isFiniteNum (sub (div e a) (Fin 1)) = false -> val a == 0.
Proof.
  intros He Ha Hg. destruct (Qeq_dec (val a) 0) as [E|E]; [exact E|].
  destruct (div_finite e a (proj1 He) Ha E) as [Hd _].
  rewrite (isFiniteNum_sub_one _ Hd) in Hg. discriminate.
Qed.

(** [pe / (Infinity * 100)] is the positive zero for a positive [pe]. *)
Lemma peg_of_infinite_growth (pe : number) :
  isFiniteNum pe = true -> leb pe (Fin 0) = false ->
  div pe (mul PosInf (Fin 100)) = Fin 0.
Proof.
  destruct pe as [q| | | |]; try discriminate. intros _ H. cbn in H.
  assert (Hq : Qle_bool 0 q = true).
  { apply Qle_bool_iff. destruct (Qlt_le_dec q 0) as [L|L]; [|exact L].
    assert (E : Qle_bool q 0 = true) by (apply Qle_bool_iff; lra). congruence. }
  unfold div, mul. cbn [isNaN orb qval signbit xorb inf].
  change (Qeq_bool 100 0) with false. cbn [isNaN orb qval].
  unfold Qlt_bool. rewrite Hq. reflexivity.
Qed.

End FiniteArithmetic.

Import FiniteArithmetic.

(* ================================================================= *)
(** ** Further properties of the code *)

Section MoreProperties.

Variable showNumber : number -> string.
Variable net : Network.

(* ----------------------------------------------------------------- *)
(** *** The two fetch helpers *)

Ltac prefixed := intros [= <-]; eexists; reflexivity.

(** X1.  [fetchFinnhub] returns the parsed body exactly when the
    response has a 2xx status and its body parses; a body that parses is
    not accepted under another status.  Every error it throws carries the
    prefix of line 17. *)
Theorem fetchFinnhub_accepts (url : string) :
  (forall data,
     fetchFinnhub net url = Normal data <->
     exists status, net url = HttpResponse status (Normal data)
                    /\ responseOk status = true)
  /\ (forall m, fetchFinnhub net url = Throw m ->
                exists m', m = ("Finnhub API call failed: " ++ m')%string).
Proof.
  unfold fetchFinnhub, tryCatch. split.
  - intros data. split.
    + destruct (net url) as [m|status body]; [discriminate|].
      destruct (responseOk status) eqn:Hok; cbn [negb]; [|discriminate].
      destruct body as [v|m]; [|discriminate].
      intros [= ->]. now exists status.
    + intros [status [-> Hok]]. now rewrite Hok.
  - intros m. destruct (net url) as [m0|status body]; [prefixed|].
    destruct (responseOk status); cbn [negb]; [|prefixed].
    destruct body as [v|m0]; [discriminate | prefixed].
Qed.

(** X2.  Whatever [fetchAlphaVantage] returns came with a 2xx status,
    has no truthy [Note] (the rate-limit notice) and no truthy [Error]
    other than the string 'None'.  Every error it throws carries the
    prefix of line 37. *)
Theorem fetchAlphaVantage_in_band_errors (url : string) :
  (forall data,
     fetchAlphaVantage showNumber net url = Normal data ->
     (exists status, net url = HttpResponse status (Normal data)
                     /\ responseOk status = true)
     /\ truthy (prop data "Note") = false
     /\ (truthy (prop data "Error") = false \/ prop data "Error" = JStr "None"))
  /\ (forall m, fetchAlphaVantage showNumber net url = Throw m ->
                exists m', m = ("Alpha Vantage API call failed: " ++ m')%string).
Proof.
  unfold fetchAlphaVantage, tryCatch, bind. split.
  - intros data.
    destruct (net url) as [m|status body]; [discriminate|].
    destruct (responseOk status) eqn:Hok; cbn [negb]; [|discriminate].
    destruct body as [v|m]; [|discriminate].
    unfold prop.
    destruct (getProp v "Note") as [note|m] eqn:Hn; [|discriminate].
    destruct (truthy note) eqn:Htn; [discriminate|].
    destruct (getProp v "Error") as [err|m] eqn:He; [|discriminate].
    destruct (truthy err) eqn:Hte; cbn [andb].
    + destruct err as [| |b|n|e|items|fields]; cbn [negb]; try discriminate.
      destruct (String.eqb e "None") eqn:E; cbn [negb]; [|discriminate].
      apply String.eqb_eq in E. subst e. intros [= <-].
      rewrite Hn, He. repeat split; eauto.
    + intros [= <-]. rewrite Hn, He. repeat split; eauto.
  - intros m.
    destruct (net url) as [m0|status body]; [prefixed|].
    destruct (responseOk status); cbn [negb]; [|prefixed].
    destruct body as [v|m0]; [|prefixed].
    destruct (getProp v "Note") as [note|m0]; [|prefixed].
    destruct (truthy note); [prefixed|].
    destruct (getProp v "Error") as [err|m0]; [|prefixed].
    destruct (truthy err && _); [prefixed | discriminate].
Qed.

(** X3.  [getMarketPe] returns only a finite positive ratio, and every
    error it throws names the market, with the prefix of line 64. *)
Theorem getMarketPe_positive (market apiKey : string) :
  (forall pe, getMarketPe showNumber net market apiKey = Normal pe -> finitePositive pe)
  /\ (forall m, getMarketPe showNumber net market apiKey = Throw m ->
                exists m', m = ("Failed to get market PE for " ++ market ++ ": " ++ m')%string).
Proof.
  unfold getMarketPe, tryCatch.
  match goal with
  | |- context [match ?c with Normal _ => _ | Throw _ => _ end] =>
      destruct c as [pe0|m0] eqn:Hc
  end.
  - split; [|discriminate]. intros pe [= <-].
    unfold bind in Hc.
    destruct (fetchFinnhub net _) as [data|m]; [|discriminate].
    destruct (getProp data "metric") as [metric|m]; [|discriminate].
    match type of Hc with
    | match ?c with Normal _ => _ | Throw _ => _ end = _ =>
        destruct c as [pe|m]; [|discriminate]
    end.
    destruct (isFinite pe) eqn:Hf; cbn [negb orb] in Hc; [|discriminate].
    destruct (leb (num pe) (Fin 0)) eqn:Hle; [discriminate|].
    injection Hc as <-. destruct pe as [n|]; [|discriminate]. cbn in *.
    split; [exact Hf|]. apply not_leb_zero_ltb; [|exact Hle].
    now apply finite_not_NaN.
  - split; [discriminate|]. intros m. prefixed.
Qed.

(* ----------------------------------------------------------------- *)
(** *** [getStockData]: the metrics *)










(** The quote block goes through exactly on a quote whose [c] parses to
    a finite positive number, which becomes the price. *)
Lemma quoteBlock_run s k d :
  (forall d', quoteBlock showNumber net s k d = (Normal tt, d') ->
     exists quoteData c,
       fetchFinnhub net (quoteUrl s k) = Normal quoteData
       /\ getProp quoteData "c" = Normal c
       /\ finitePositive (parseFloat c)
       /\ d' = set_sd_price (Some (parseFloat c)) d)
  /\ (forall quoteData c,
        fetchFinnhub net (quoteUrl s k) = Normal quoteData ->
        getProp quoteData "c" = Normal c ->
        finitePositive (parseFloat c) ->
        quoteBlock showNumber net s k d
        = (Normal tt, set_sd_price (Some (parseFloat c)) d)).
Proof.
  unfold quoteBlock. run_block. split.
  - intros d'.
    destruct (fetchFinnhub net (quoteUrl s k)) as [quoteData|m] eqn:Hq; [|discriminate].
    destruct (getProp quoteData "c") as [c|m] eqn:Hc; [|discriminate].
    cbn [sd_price set_sd_price isFinite num].
    destruct (isFiniteNum (parseFloat c)) eqn:Hf; cbn [negb orb]; [|discriminate].
    destruct (leb (parseFloat c) (Fin 0)) eqn:Hle; [discriminate|].
    intros [= <-]. exists quoteData, c. repeat split; try reflexivity; try assumption.
    apply not_leb_zero_ltb; [now apply finite_not_NaN | exact Hle].
  - intros quoteData c -> -> [Hf Hp].
    cbn [sd_price set_sd_price isFinite num]. rewrite Hf. cbn [negb orb].
    destruct (parseFloat c) as [q| | | |]; try discriminate; cbn in Hp |- *.
    unfold Qlt_bool in Hp. apply negb_true_iff in Hp. now rewrite Hp.
Qed.

Lemma defaultsBlock_run d :
  defaultsBlock d
  = (Normal tt,
     match sd_beta d with
     | None =>
         sd_push_warning "Beta value unavailable; using default beta = 1.0"
           (set_sd_beta (Some (Fin 1)) (set_sd_estimatedEps None d))
     | Some _ => set_sd_estimatedEps None d
     end).
Proof.
  unfold defaultsBlock. run_block. cbn [sd_beta set_sd_estimatedEps].
  now destruct (sd_beta d).
Qed.

(** The stages [getStockData] went through when it returned. *)
Lemma getStockData_stages s k d :
  getStockData showNumber net s k = Normal d <->
  exists d0 d1 d2,
    quoteBlock showNumber net s k initialStockData = (Normal tt, d0)
    /\ metricsBlock net s k d0 = (Normal tt, d1)
    /\ financialsBlock net s k d1 = (Normal tt, d2)
    /\ defaultsBlock d2 = (Normal tt, d).
Proof.
  unfold getStockData. unfold bindM.
  destruct (quoteBlock showNumber net s k initialStockData) as [[[]|m] d0].
  - destruct (run_total _ d0 (metricsBlock_total net s k)) as [[] E1]. rewrite E1.
    destruct (run_total _ (snd (metricsBlock net s k d0)) (financialsBlock_total net s k))
      as [[] E2]. rewrite E2.
    rewrite defaultsBlock_run. split.
    + intros [= <-].
      exists d0, (snd (metricsBlock net s k d0)),
        (snd (financialsBlock net s k (snd (metricsBlock net s k d0)))).
      repeat split; try assumption. apply defaultsBlock_run.
    + intros [x0 [x1 [x2 [H0 [H1 [H2 H3]]]]]].
      injection H0 as <-. rewrite E1 in H1. injection H1 as <-.
      rewrite E2 in H2. injection H2 as <-.
      rewrite defaultsBlock_run in H3. now injection H3 as <-.
  - split; [discriminate|]. intros [x0 [x1 [x2 [H _]]]]. discriminate.
Qed.

(** The fallback block and the last block leave the PE alone; the
    fallback block leaves the beta alone. *)
Lemma financialsBlock_frame s k pe b :
  steady (fun d => sd_pe d = pe /\ sd_beta d = b) (financialsBlock net s k).
Proof. unfold financialsBlock. block; assumption. Qed.

(** Warnings are only ever appended. *)
Lemma metricsBlock_keeps_warning s k w :
  steady (fun d => In w (sd_warnings d)) (metricsBlock net s k).
Proof.
  unfold metricsBlock, extractPe, extractEps, extractBeta.
  block; try assumption; cbn; apply in_or_app; now left.
Qed.

Lemma financialsBlock_keeps_warning s k w :
  steady (fun d => In w (sd_warnings d)) (financialsBlock net s k).
Proof.
  unfold financialsBlock. block; try assumption; cbn; apply in_or_app; now left.
Qed.

(** A property a block keeps, along one run of it. *)
Lemma steady_run {S A} (I : S -> Prop) (c : M S A) s o s' :
  steady I c -> c s = (o, s') -> I s -> I s'.
Proof. intros H E Hs. specialize (H s Hs). now rewrite E in H. Qed.

(** X4.  [getStockData] returns exactly when the quote has a [c] that
    parses to a finite positive number: a failing quote request and a
    missing, zero, negative or non-numeric [c] are all fatal.  The price
    it returns is that parsed [c]. *)
Theorem getStockData_returns_iff_price (s k : string) :
  ((exists d, getStockData showNumber net s k = Normal d) <->
   (exists quoteData c,
      fetchFinnhub net (quoteUrl s k) = Normal quoteData
      /\ getProp quoteData "c" = Normal c
      /\ finitePositive (parseFloat c)))
  /\ (forall d quoteData c,
        getStockData showNumber net s k = Normal d ->
        fetchFinnhub net (quoteUrl s k) = Normal quoteData ->
        getProp quoteData "c" = Normal c ->
        sd_price d = Some (parseFloat c)).
Proof.
  destruct (quoteBlock_run s k initialStockData) as [Hq1 Hq2].
  split; [split|].
  - intros [d Hd]. apply getStockData_stages in Hd.
    destruct Hd as [d0 [_ [_ [E0 _]]]].
    destruct (Hq1 d0 E0) as [qd [c [H1 [H2 [H3 _]]]]]. eauto.
  - intros [qd [c [H1 [H2 H3]]]]. pose proof (Hq2 qd c H1 H2 H3) as E0.
    set (d0 := set_sd_price (Some (parseFloat c)) initialStockData) in *.
    destruct (run_total _ d0 (metricsBlock_total net s k)) as [[] E1].
    destruct (run_total _ (snd (metricsBlock net s k d0)) (financialsBlock_total net s k))
      as [[] E2].
    eexists. apply getStockData_stages. do 3 eexists.
    split; [exact E0|]. split; [exact E1|]. split; [exact E2|].
    apply defaultsBlock_run.
  - intros d qd c Hd H1 H2. apply getStockData_stages in Hd.
    destruct Hd as [d0 [d1 [d2 [E0 [E1 [E2 E3]]]]]].
    destruct (Hq1 d0 E0) as [qd' [c' [H1' [H2' [_ ->]]]]].
    rewrite H1 in H1'. injection H1' as <-. rewrite H2 in H2'. injection H2' as <-.
    apply (steady_run _ _ _ _ _ (defaultsBlock_price (Some (parseFloat c))) E3).
    apply (steady_run _ _ _ _ _ (financialsBlock_price net (Some (parseFloat c)) s k) E2).
    apply (steady_run _ _ _ _ _ (metricsBlock_price net (Some (parseFloat c)) s k) E1).
    reflexivity.
Qed.




(** X7.  A failure of the metrics request is not fatal: when the quote
    went through and the metrics request fails with the error text [m],
    [getStockData] returns with no PE, the default beta 1.0, and the two
    warnings that say so, the first carrying [m]. *)
Theorem getStockData_survives_metrics_failure (s k : string) (d : StockData) (m : string) :
  getStockData showNumber net s k = Normal d ->
  fetchFinnhub net (metricsUrl s k) = Throw m ->
  sd_pe d = None
  /\ sd_beta d = Some (Fin 1)
  /\ In ("Could not fetch metrics; some data may be unavailable: " ++ m)%string
        (sd_warnings d)
  /\ In "Beta value unavailable; using default beta = 1.0"%string (sd_warnings d).
Proof.
  intros Hd Hf. apply getStockData_stages in Hd.
  destruct Hd as [d0 [d1 [d2 [E0 [E1 [E2 E3]]]]]].
  assert (E1' : metricsBlock net s k d0
                = (Normal tt,
                   sd_push_warning
                     ("Could not fetch metrics; some data may be unavailable: " ++ m) d0)).
  { unfold metricsBlock. run_block. now rewrite Hf. }
  rewrite E1 in E1'. injection E1' as ->.
  destruct (proj1 (quoteBlock_run s k initialStockData) d0 E0)
    as [qd [c [_ [_ [_ ->]]]]].
  pose proof (steady_run _ _ _ _ _ (financialsBlock_frame s k None None) E2
                (conj eq_refl eq_refl)) as [Hpe2 Hbeta2].
  pose proof (steady_run _ _ _ _ _
                (financialsBlock_keeps_warning s k
                   ("Could not fetch metrics; some data may be unavailable: " ++ m)) E2)
    as Hw2.
  rewrite defaultsBlock_run in E3. injection E3 as <-. rewrite Hbeta2.
  cbn [sd_pe sd_beta sd_warnings sd_push_warning set_sd_warnings set_sd_beta
       set_sd_estimatedEps].
  repeat split; try assumption.
  - apply in_or_app. left. apply Hw2. cbn. now left.
  - apply in_or_app. right. now left.
Qed.


(* ----------------------------------------------------------------- *)
(** *** [calculateStockValuation] *)


(** The result after the fetch stage: its warnings are those of
    [getStockData], followed by the note of the forward estimate when the
    other provider gave one. *)
Lemma fetchStage_more params sd r0 :
  fetchStage showNumber net params (initialResult params) = (Normal sd, r0) ->
  hasForwardEps r0 = false
  /\ ((estimatedEps r0 = None /\ warnings r0 = sd_warnings sd)
      \/ (exists e,
            truthyKey (p_alphaVantageApiKey params) = true
            /\ estimatedEps r0 = Some (eps e)
            /\ warnings r0
               = (sd_warnings sd
                  ++ [("Estimated EPS from Alpha Vantage for period "
                       ++ toString showNumber (period e))%string])%list)).
Proof.
  unfold fetchStage. run_block. fields.
  destruct (getStockData showNumber net (p_symbol params) (p_finnhubApiKey params))
    as [sd'|m] eqn:Hsd; [|discriminate].
  destruct (getStockData_Normal _ _ _ _ _ Hsd) as [_ [He _]].
  rewrite He. cbn [isFinite negb andb].
  destruct (truthyKey (p_alphaVantageApiKey params)) eqn:Hk.
  - destruct (getEstimatedEpsFromAlphaVantage showNumber net (p_symbol params) _)
      as [[e|]|m] eqn:Hest.
    + intros [= <- <-]. fields. split; [reflexivity|]. right. exists e.
      repeat split; reflexivity.
    + intros [= <- <-]. fields. split; [reflexivity|]. left. now split.
    + discriminate.
  - intros [= <- <-]. fields. split; [reflexivity|]. left. now split.
Qed.

(** The checks only append warnings, and leave the flag of the beta
    alone. *)
Lemma steps_append sd r r' :
  StepsOutcome sd r r' ->
  (exists ws, warnings r' = (warnings r ++ ws)%list)
  /\ betaFallbackUsed r' = betaFallbackUsed r
  /\ beta r' = beta r /\ currentPrice r' = currentPrice r
  /\ actualEps r' = actualEps r /\ estimatedEps r' = estimatedEps r.
Proof.
  assert (Peg : forall r1 r2, PegOutcome r1 r2 ->
            (exists ws, warnings r2 = (warnings r1 ++ ws)%list)
            /\ betaFallbackUsed r2 = betaFallbackUsed r1
            /\ beta r2 = beta r1 /\ currentPrice r2 = currentPrice r1
            /\ actualEps r2 = actualEps r1 /\ estimatedEps r2 = estimatedEps r1).
  { intros r1 r2 P. destruct P; fields; repeat split; try reflexivity; eauto.
    exists []. now rewrite app_nil_r. }
  intros O. destruct O as [Hmiss | pe r' Ha He Hpe P | r' Ha He Hpe Htp Hta P | Ha He Hpe Ht].
  - fields. repeat split; eauto.
  - destruct (Peg _ _ P) as [[ws Hw] [H1 [H2 [H3 [H4 H5]]]]].
    unfold withGrowth in *. fields. repeat split; eauto.
  - destruct (Peg _ _ P) as [[ws Hw] [H1 [H2 [H3 [H4 H5]]]]].
    unfold withGrowth in *. fields. repeat split; eauto.
    exists (warnDerivedPe :: ws). rewrite Hw. now rewrite <- app_assoc.
  - unfold withGrowth. fields. repeat split; eauto.
Qed.

(** X8.  The warnings of a result start with the warnings of
    [getStockData], in their order: later steps only append.  Once the
    price is obtained, the result shows the price, the beta and the
    trailing EPS of [getStockData] whether or not the valuation is
    possible. *)
Theorem result_carries_stock_data (params : Params) (r : ValuationResult)
    (sd : StockData) :
  calculateStockValuation showNumber net params = Normal r ->
  getStockData showNumber net (p_symbol params) (p_finnhubApiKey params) = Normal sd ->
  (exists ws, warnings r = (sd_warnings sd ++ ws)%list)
  /\ currentPrice r = sd_price sd
  /\ beta r = sd_beta sd
  /\ actualEps r = sd_actualEps sd.
Proof.
  intros Hr Hsd.
  destruct (calculateStockValuation_outcome showNumber net params) as [r' [E O]].
  rewrite E in Hr. injection Hr as <-.
  destruct O as [sd' r0 r' Hsd' Hfetch Hbody F O | m r0 Hsd' Hbody Hfv Hw Hm Hnoeps];
    [|congruence].
  rewrite Hsd in Hsd'. injection Hsd' as <-.
  destruct (fetchStage_more params sd r0 Hfetch) as [_ Hws].
  destruct (steps_append _ _ _ O) as [[ws Hw] [_ [Hb [Hp [Ha _]]]]].
  destruct (flagged_fields sd r0) as [b [Eb _]]. rewrite Eb in *. fields.
  assert (Hprice : currentPrice r0 = sd_price sd).
  { revert Hfetch. unfold fetchStage. run_block. fields. rewrite Hsd.
    destruct (_ && _); [|now intros [= <-]].
    destruct (getEstimatedEpsFromAlphaVantage _ _ _ _) as [[e|]|m];
      [| |discriminate]; now intros [= <-]. }
  rewrite Hb, Hp, Ha, (fetched_beta _ _ F), (fetched_actualEps _ _ F), Hprice.
  split; [|repeat split].
  destruct Hws as [[_ Hws]|[e [_ [_ Hws]]]]; rewrite Hw, Hws.
  - now exists ws.
  - eexists. now rewrite <- app_assoc.
Qed.








(** X11.  Without a key of the second provider (none, or the empty
    string) the valuation is never possible: the result has no forward
    EPS, no growth rate, no fair value, and [valuationPossible = false]. *)
Theorem no_forward_estimate_without_key (params : Params) (r : ValuationResult) :
  truthyKey (p_alphaVantageApiKey params) = false ->
  calculateStockValuation showNumber net params = Normal r ->
  estimatedEps r = None /\ growthRate r = None /\ fairValue r = None
  /\ hasForwardEps r = false /\ valuationPossible r = false.
Proof.
  intros Hk Hr.
  destruct (calculateStockValuation_outcome showNumber net params) as [r' [E O]].
  rewrite E in Hr. injection Hr as <-.
  destruct O as [sd r0 r' Hsd Hfetch Hbody F O | m r0 Hsd Hbody Hfv Hw Hm Hnoeps].
  2:{ revert Hbody. unfold valuationBody, fetchStage. run_block. fields. rewrite Hsd.
      intros [= <-]. fields. repeat split; reflexivity. }
  destruct (fetchStage_more params sd r0 Hfetch) as [Hh [[Hn _]|[e [Hk' _]]]];
    [|congruence].
  destruct (flagged_fields sd r0) as [b [Eb _]]. rewrite Eb in O. clear Eb.
  destruct O as [Hmiss | pe r' Ha He Hpe P | r' Ha He Hpe Htp Hta P | Ha He Hpe Ht];
    fields; try (rewrite Hn in He; discriminate).
  destruct F. repeat split; assumption.
Qed.

(** The fields of the request in the result object are written once,
    before the [try] block. *)
Lemma request_fields_kept (params : Params) (r : ValuationResult) :
  calculateStockValuation showNumber net params = Normal r ->
  symbol r = symbol (initialResult params)
  /\ market r = market (initialResult params)
  /\ assumptions r = assumptions (initialResult params).
Proof.
  unfold calculateStockValuation.
  assert (H : steady (fun r => symbol r = symbol (initialResult params)
                               /\ market r = market (initialResult params)
                               /\ assumptions r = assumptions (initialResult params))
                (tryCatchM (valuationBody showNumber net params)
                   (fun m => bindM (modify (push_warning ("Error during calculation: " ++ m)))
                               (fun _ => modify (set_valuationPossible false))))).
  { unfold valuationBody, fetchStage, valuationSteps, betaFlagBlock, pegAndFairValue.
    block; assumption. }
  specialize (H (initialResult params) (conj eq_refl (conj eq_refl eq_refl))).
  destruct (tryCatchM _ _ (initialResult params)) as [[[]|m] r'];
    [|discriminate].
  intros [= <-]. exact H.
Qed.

(** X12.  The result echoes the request: its symbol, its market ('US'
    when the request has none) and the assumed growth rate (10 when the
    request has none) are those of the request, whatever happens in
    between; the note on the source of the market PE names the ETF of
    that market. *)
Theorem result_echoes_request (params : Params) (r : ValuationResult) :
  calculateStockValuation showNumber net params = Normal r ->
  symbol r = p_symbol params
  /\ market r = match p_market params with Some m => m | None => "US"%string end
  /\ marketGrowthRatePercent (assumptions r)
     = match p_marketGrowthRatePercent params with
       | Some g => g
       | None => JNum (Fin 10)
       end
  /\ hd_error (notes (assumptions r))
     = Some ("Market PE obtained from "
             ++ (if String.eqb (market r) "HK" then "2800" else "SPY")
             ++ " ETF via Finnhub")%string.
Proof.
  intros Hr. destruct (request_fields_kept params r Hr) as [H1 [H2 H3]].
  rewrite H1, H2, H3. repeat split.
Qed.

(** X13.  Every result with [valuationPossible = false] says why: its
    last warning is one of the four warnings of the checks, or the
    warning of the fatal error with its text. *)
Theorem impossible_valuation_is_explained (params : Params) (r : ValuationResult) :
  calculateStockValuation showNumber net params = Normal r ->
  valuationPossible r = false ->
  exists ws w,
    warnings r = (ws ++ [w])%list
    /\ (w = warnMissingEps \/ w = warnCannotPe \/ w = warnNonPositive \/ w = warnPeg
        \/ exists m, w = ("Error during calculation: " ++ m)%string).
Proof.
  intros Hr Hv.
  destruct (calculateStockValuation_outcome showNumber net params) as [r' [E O]].
  rewrite E in Hr. injection Hr as <-.
  destruct O as [sd r0 r' Hsd Hfetch Hbody F O | m r0 Hsd Hbody Hfv Hw Hm Hnoeps].
  2:{ fields. do 2 eexists. split; [reflexivity|]. do 4 right. now exists m. }
  assert (Peg : forall r1 r2, PegOutcome r1 r2 -> valuationPossible r2 = false ->
            exists ws w,
              warnings r2 = (ws ++ [w])%list
              /\ (w = warnMissingEps \/ w = warnCannotPe \/ w = warnNonPositive
                  \/ w = warnPeg
                  \/ exists m, w = ("Error during calculation: " ++ m)%string)).
  { intros r1 r2 P Hv2. destruct P; fields; try discriminate;
      do 2 eexists; (split; [reflexivity|]); tauto. }
  destruct O as [Hmiss | pe r' Ha He Hpe P | r' Ha He Hpe Htp Hta P | Ha He Hpe Ht];
    try (now apply (Peg _ _ P)); fields;
    do 2 eexists; (split; [reflexivity|]); tauto.
Qed.

(** X14.  A result with [valuationPossible = true] has growing, positive
    earnings: the trailing EPS is a finite number above zero and strictly
    below the forward EPS.  Its growth rate is [estimatedEps / actualEps
    - 1] and is finite, its stock PE is finite and positive, and its
    stock PEG is [stockPe / (growthRate * 100)]: an infinite growth rate
    or a PE that is not finite never passes the last check. *)
Theorem possible_valuation_has_growing_earnings
    (params : Params) (r : ValuationResult) :
  calculateStockValuation showNumber net params = Normal r ->
  valuationPossible r = true ->
  exists a e pe g,
    actualEps r = Some a /\ estimatedEps r = Some e
    /\ stockPe r = Some pe /\ growthRate r = Some g
    /\ isFiniteNum a = true /\ isFiniteNum e = true
    /\ ltb (Fin 0) a = true /\ ltb a e = true
    /\ g = sub (div e a) (Fin 1) /\ isFiniteNum g = true
    /\ isFiniteNum pe = true /\ ltb (Fin 0) pe = true
    /\ stockPeg r = Some (div pe (mul g (Fin 100))).
Proof.
  intros Hr Hposs.
  destruct (calculateStockValuation_outcome showNumber net params) as [r' [E O]].
  rewrite E in Hr. injection Hr as <-.
  destruct O as [sd r0 r' Hsd Hfetch Hbody F O | m r0 Hsd Hbody Hfv Hw Hm Hnoeps].
  2:{ fields. discriminate. }
  assert (Peg : forall r1 r2 a e,
            PegOutcome r1 r2 -> valuationPossible r2 = true ->
            actualEps r1 = Some a -> isFiniteNum a = true ->
            estimatedEps r1 = Some e -> finitePositive e ->
            growthRate r1 = Some (sub (div e a) (Fin 1)) ->
            exists a e pe g,
              actualEps r2 = Some a /\ estimatedEps r2 = Some e
              /\ stockPe r2 = Some pe /\ growthRate r2 = Some g
              /\ isFiniteNum a = true /\ isFiniteNum e = true
              /\ ltb (Fin 0) a = true /\ ltb a e = true
              /\ g = sub (div e a) (Fin 1) /\ isFiniteNum g = true
              /\ isFiniteNum pe = true /\ ltb (Fin 0) pe = true
              /\ stockPeg r2 = Some (div pe (mul g (Fin 100)))).
  { intros r1 r2 a e P Hv Ea Ha Ee He Hg.
    destruct P as [Hgate | v Hg0 Hpe0 Hpeg Hv0 | v Hg0 Hpe0 Hpeg Hv0]; fields;
      try discriminate.
    destruct (calculatePeg_Some _ _ _ Hpeg) as [_ [[pe [Hpe [Hpf Hpp]]] Ev]].
    rewrite Hg, Hpe in *. cbn [num] in *.
    set (g := sub (div e a) (Fin 1)) in *.
    assert (Hnan : isNaN g = false) by (apply growth_not_NaN; [exact He|exact Ha]).
    assert (Hgf : isFiniteNum g = true).
    { apply (peg_growth_finite pe g); try assumption. now rewrite <- Ev. }
    pose proof (not_leb_zero_ltb g Hnan Hg0) as Hgpos.
    destruct (growth_positive e a He Ha Hgf Hgpos) as [Hapos [Hae _]].
    exists a, e, pe, g. rewrite Ev.
    repeat (split; [first [reflexivity | assumption | apply He]|]).
    split; [apply finitePositive_val; now split|].
    split; [apply ltb_val; [assumption | apply He | assumption]|].
    repeat (split; [first [reflexivity | assumption]|]). reflexivity. }
  destruct (flagged_fields sd r0) as [fl [Efl _]].
  destruct O as [Hmiss | pe r' Ha He Hpe P | r' Ha He Hpe Htp Hta P | Ha He Hpe Ht];
    fields; try discriminate.
  - destruct (finite_eps_growth sd r0 _ F eq_refl Ha He)
      as [a [e [Ea [Hfa [Ee [Hpos [Hg _]]]]]]].
    apply (Peg _ _ a e P Hposs); rewrite ?Efl in *; unfold withGrowth in *; fields;
      assumption.
  - destruct (finite_eps_growth sd r0 _ F eq_refl Ha He)
      as [a [e [Ea [Hfa [Ee [Hpos [Hg _]]]]]]].
    apply (Peg _ _ a e P Hposs); rewrite ?Efl in *; unfold withGrowth in *; fields;
      assumption.
Qed.




(** X22.  When the last check is the one that stops a valuation (both
    EPS values are there, and neither the growth rate nor the PE is at
    most zero), the last warning is the one of the PEG, and the stock
    PEG of the result is [null], for a PE that is not a finite number, or
    the number 0 for a finite PE: it is never negative and never NaN. *)
Theorem last_check_stops_on_null_or_zero_peg (params : Params) (r : ValuationResult) :
  calculateStockValuation showNumber net params = Normal r ->
  hasForwardEps r = true -> valuationPossible r = false ->
  leb (num (growthRate r)) (Fin 0) = false ->
  leb (num (stockPe r)) (Fin 0) = false ->
  (exists ws, warnings r = (ws ++ [warnPeg])%list)
  /\ fairValue r = None
  /\ ((isFinite (stockPe r) = false /\ stockPeg r = None)
      \/ (isFinite (stockPe r) = true /\ stockPeg r = Some (Fin 0))).
Proof.
  intros Hr Hh Hv Hg Hpe.
  destruct (calculateStockValuation_outcome showNumber net params) as [r' [E O]].
  rewrite E in Hr. injection Hr as <-.
  destruct O as [sd r0 r' Hsd Hfetch Hbody F O | m r0 Hsd Hbody Hfv Hw Hm Hnoeps].
  2:{ exfalso. revert Hbody Hh. unfold valuationBody, fetchStage. run_block. fields.
      rewrite Hsd. intros [= <-]. fields. discriminate. }
  destruct (fetchStage_more params sd r0 Hfetch) as [Hh0 _].
  assert (Peg : forall r1 r2 a e,
            PegOutcome r1 r2 -> valuationPossible r2 = false ->
            leb (num (growthRate r2)) (Fin 0) = false ->
            leb (num (stockPe r2)) (Fin 0) = false ->
            fairValue r1 = None ->
            actualEps r1 = Some a -> isFiniteNum a = true ->
            estimatedEps r1 = Some e -> finitePositive e ->
            growthRate r1 = Some (sub (div e a) (Fin 1)) ->
            (exists ws, warnings r2 = (ws ++ [warnPeg])%list)
            /\ fairValue r2 = None
            /\ ((isFinite (stockPe r2) = false /\ stockPeg r2 = None)
                \/ (isFinite (stockPe r2) = true /\ stockPeg r2 = Some (Fin 0)))).
  { intros r1 r2 a e P Hv2 Hg2 Hpe2 Hfv1 Ea Ha Ee He Eg.
    destruct P as [Hgate | v Hg0 Hpe0 Hpeg Hv0 | v Hg0 Hpe0 Hpeg Hv0]; fields;
      try discriminate.
    { rewrite Hg2, Hpe2 in Hgate. discriminate. }
    split; [eexists; reflexivity|]. split; [exact Hfv1|].
    revert Hpeg. unfold calculatePeg. rewrite Hg0, Hpe0. cbn [orb].
    destruct (isFinite (stockPe r1)) eqn:Hfin; cbn [negb orb].
    2:{ intros <-. now left. }
    intros <-. right. split; [reflexivity|].
    destruct (isFinite_Some _ Hfin) as [pe [Epe Hpf]].
    rewrite Epe, Eg in *. cbn [num] in *.
    set (g := sub (div e a) (Fin 1)) in *.
    assert (Hnan : isNaN g = false) by (apply growth_not_NaN; [exact He|exact Ha]).
    destruct (isFiniteNum g) eqn:Hgf.
    - exfalso.
      assert (Hgv : (0 < val g)%Q).
      { apply finitePositive_val. split; [exact Hgf|]. now apply not_leb_zero_ltb. }
      destruct (peg_value pe g Hpf Hgf Hgv) as [Hsf Es].
      assert (Hpev : (0 < val pe)%Q).
      { apply finitePositive_val. split; [exact Hpf|].
        apply not_leb_zero_ltb; [now apply finite_not_NaN | exact Hpe0]. }
      assert (Hsv : (0 < val (div pe (mul g (Fin 100))))%Q).
      { rewrite Es. apply Qlt_shift_div_l; lra. }
      destruct Hv0 as [Hv0|Hv0]; [discriminate|].
      cbn [num] in Hv0. rewrite (positive_not_leb _ Hsf Hsv) in Hv0. discriminate.
    - rewrite (above_zero_infinite g Hnan Hg0 Hgf).
      now rewrite (peg_of_infinite_growth pe Hpf Hpe0). }
  destruct (flagged_fields sd r0) as [fl [Efl _]].
  pose proof (fetched_fairValue _ _ F) as Hfv0.
  destruct O as [Hmiss | pe r' Ha He Hpe' P | r' Ha He Hpe' Htp Hta P | Ha He Hpe' Ht].
  - exfalso. rewrite Efl in *. fields. congruence.
  - destruct (finite_eps_growth sd r0 _ F eq_refl Ha He)
      as [a [e [Ea [Hfa [Ee [Hpos [Eg _]]]]]]].
    apply (Peg _ _ a e P Hv Hg Hpe); rewrite ?Efl in *; unfold withGrowth in *; fields;
      assumption.
  - destruct (finite_eps_growth sd r0 _ F eq_refl Ha He)
      as [a [e [Ea [Hfa [Ee [Hpos [Eg _]]]]]]].
    apply (Peg _ _ a e P Hv Hg Hpe); rewrite ?Efl in *; unfold withGrowth in *; fields;
      assumption.
  - exfalso. rewrite Efl in *. unfold withGrowth in *. fields.
    rewrite (fetched_stockPe _ _ F) in Hpe. discriminate.
Qed.

(** X24.  [calculatePeg] on its own: a number it returns is for a finite
    positive PE and a growth rate that is not at most zero, and it is the
    quotient [pe / (g * 100)].  That number is never negative; it is NaN
    exactly when the growth rate is NaN (the test [g <= 0] lets NaN
    through), and it is 0 for an infinite growth rate. *)
Theorem calculatePeg_never_negative (pe g : option number) (v : number) :
  calculatePeg pe g = Some v ->
  finitePositive (num pe)
  /\ leb (num g) (Fin 0) = false
  /\ v = div (num pe) (mul (num g) (Fin 100))
  /\ isNaN v = isNaN (num g)
  /\ ltb v (Fin 0) = false
  /\ (isNaN (num g) = false -> leb (Fin 0) v = true)
  /\ (num g = PosInf -> v = Fin 0).
Proof.
  intros H. destruct (calculatePeg_Some pe g v H) as [Hg [[p [-> [Hpf Hpp]]] ->]].
  cbn [num]. split; [now split|]. split; [exact Hg|]. split; [reflexivity|].
  assert (Hpv : (0 < val p)%Q) by (apply finitePositive_val; now split).
  assert (Hple : leb p (Fin 0) = false) by now apply positive_not_leb.
  destruct (isNaN (num g)) eqn:Hnan.
  { assert (E : div p (mul (num g) (Fin 100)) = NaN).
    { destruct (num g); try discriminate. destruct p; try discriminate; reflexivity. }
    rewrite E. repeat split; try reflexivity; try discriminate.
    intros Einf. rewrite Einf in Hnan. discriminate. }
  destruct (isFiniteNum (num g)) eqn:Hgf.
  - pose proof (not_leb_zero_ltb _ Hnan Hg) as Hgp.
    assert (Hgv : (0 < val (num g))%Q) by (apply finitePositive_val; now split).
    destruct (peg_value p (num g) Hpf Hgf Hgv) as [Hvf Ev].
    assert (Hvv : (0 < val (div p (mul (num g) (Fin 100))))%Q).
    { rewrite Ev. apply Qlt_shift_div_l; lra. }
    split; [now apply finite_not_NaN|].
    split; [|split].
    + destruct (ltb _ (Fin 0)) eqn:Hl; [|reflexivity].
      exfalso. revert Hl Hvv.
      destruct (div p (mul (num g) (Fin 100))) as [q| | | |]; try discriminate; cbn.
      intros Hl Hq. apply Qlt_bool_iff in Hl. lra.
    + intros _. apply leb_zero_val; [exact Hvf | lra].
    + intros Einf. rewrite Einf in Hgf. discriminate.
  - rewrite (above_zero_infinite _ Hnan Hg Hgf).
    rewrite (peg_of_infinite_growth p Hpf Hple). repeat split; reflexivity.
Qed.

(* ----------------------------------------------------------------- *)
(** ** The routes of [src/app.js] *)

(** The growth rate of the query, as the single route checks it. *)
Definition validRate (growth : option string) : Prop :=
  match growth with
  | Some raw => finitePositive (parseFloat (JStr raw))
  | None => True
  end.

Lemma rate_check (x : number) :
  negb (isFiniteNum x) || leb x (Fin 0) = false <-> finitePositive x.
Proof.
  unfold finitePositive. split.
  - intros H. apply orb_false_iff in H. destruct H as [Hf Hl].
    apply negb_false_iff in Hf. split; [exact Hf|].
    apply not_leb_zero_ltb; [now apply finite_not_NaN | exact Hl].
  - intros [Hf Hp]. rewrite Hf. cbn [negb orb].
    destruct x as [q| | | |]; try discriminate; cbn in *.
    unfold Qlt_bool in Hp. now apply negb_true_iff in Hp.
Qed.

Lemma market_check (m : string) :
  existsb (fun x => String.eqb x m) ["US"; "HK"] = true
  <-> m = "US"%string \/ m = "HK"%string.
Proof.
  cbn [existsb]. rewrite orb_false_r, orb_true_iff, !String.eqb_eq.
  split; (intros [H|H]; [left|right]; now symmetry).
Qed.

(** X17.  For query parameters that are absent or single strings, the
    single route answers with a valuation exactly when the symbol is not
    empty, a key of the first provider comes with the query or the
    environment, the market (if given and not empty) is 'US' or 'HK', and
    the growth rate (if given) parses to a finite positive number; and
    it never answers with the 500 of its [catch] block. *)
Theorem valuationRoute_accepts
    (sym bodyFinnhubKey bodyAlphaKey mkt growth : option string)
    (envFinnhubKey envAlphaKey : option string) :
  ((exists r,
      valuationRoute showNumber net sym bodyFinnhubKey bodyAlphaKey mkt growth
        envFinnhubKey envAlphaKey = Valued r)
   <-> (truthyKey sym = true
        /\ (truthyKey bodyFinnhubKey = true \/ truthyKey envFinnhubKey = true)
        /\ (truthyKey mkt = true ->
            mkt = Some "US"%string \/ mkt = Some "HK"%string)
        /\ validRate growth))
  /\ (forall m,
        valuationRoute showNumber net sym bodyFinnhubKey bodyAlphaKey mkt growth
          envFinnhubKey envAlphaKey <> ServerError m).
Proof.
  unfold valuationRoute, orElse.
  destruct (truthyKey sym) eqn:Hs; cbn [negb orb].
  2:{ split; [split|]; [intros [r [=]] | intros [[=] _] | intros m [=]]. }
  assert (Hkey : truthyKey (if truthyKey bodyFinnhubKey then bodyFinnhubKey
                            else envFinnhubKey) = true
                 <-> truthyKey bodyFinnhubKey = true \/ truthyKey envFinnhubKey = true).
  { destruct (truthyKey bodyFinnhubKey) eqn:Hb; [tauto|].
    split; [now right | now intros [|]]. }
  destruct (truthyKey (if truthyKey bodyFinnhubKey then bodyFinnhubKey
                       else envFinnhubKey)) eqn:Hk; cbn [negb].
  2:{ split; [split|]; [intros [r [=]] | | intros m [=]].
      intros [_ [H _]]. apply Hkey in H. discriminate. }
  assert (Hmk : truthyKey mkt
                && negb (existsb (fun m => String.eqb m
                                   (match mkt with Some x => x | None => EmptyString end))
                           ["US"; "HK"]) = false
                <-> (truthyKey mkt = true ->
                     mkt = Some "US"%string \/ mkt = Some "HK"%string)).
  { destruct mkt as [mk|]; cbn [truthyKey]; [|split; [discriminate|reflexivity]].
    destruct (isEmpty mk); cbn [negb andb]; [split; [discriminate|reflexivity]|].
    rewrite negb_false_iff, market_check.
    split.
    - intros [->| ->] _; [now left | now right].
    - intros H. destruct (H eq_refl) as [[= ->]|[= ->]]; [now left | now right]. }
  destruct (truthyKey mkt && _) eqn:Hm.
  { split; [split|]; [intros [r [=]] | | intros m [=]].
    intros [_ [_ [H _]]]. apply Hmk in H. discriminate. }
  assert (Hrate : match growth with
                  | Some raw =>
                      negb (isFiniteNum (parseFloat (JStr raw)))
                      || leb (parseFloat (JStr raw)) (Fin 0)
                  | None => false
                  end = false <-> validRate growth).
  { destruct growth as [raw|]; [apply rate_check | cbn; tauto]. }
  destruct (match growth with Some _ => _ | None => false end) eqn:Hg.
  { split; [split|]; [intros [r [=]] | | intros m [=]].
    intros [_ [_ [_ H]]]. apply Hrate in H. discriminate. }
  match goal with
  | |- context [calculateStockValuation showNumber net ?p] =>
      destruct (calculateStockValuation_outcome showNumber net p) as [r [-> _]]
  end.
  split; [split|]; [| eauto | intros m [=]].
  intros _. split; [reflexivity|]. split; [now apply Hkey|].
  split; [now apply Hmk | now apply Hrate].
Qed.

(** X18.  What the single route hands to the valuation: the result it
    answers with has the symbol of the query in upper case, the market of
    the query or 'US', and echoes the growth rate as the text received
    (not as a number), or as the number 10 when the query has none. *)
Theorem valuationRoute_echo
    (sym bodyFinnhubKey bodyAlphaKey mkt growth : option string)
    (envFinnhubKey envAlphaKey : option string) (r : ValuationResult) :
  valuationRoute showNumber net sym bodyFinnhubKey bodyAlphaKey mkt growth
    envFinnhubKey envAlphaKey = Valued r ->
  (exists s, sym = Some s /\ symbol r = toUpperCase s)
  /\ (market r = "US"%string \/ market r = "HK"%string)
  /\ (truthyKey mkt = true -> Some (market r) = mkt)
  /\ marketGrowthRatePercent (assumptions r)
     = match growth with
       | Some raw => JStr raw
       | None => JNum (Fin 10)
       end.
Proof.
  unfold valuationRoute, orElse.
  destruct (negb (truthyKey sym) || _) eqn:H1; [discriminate|].
  apply orb_false_iff in H1. destruct H1 as [Hs _]. apply negb_false_iff in Hs.
  destruct (truthyKey mkt && _) eqn:Hm; [discriminate|].
  destruct (match growth with Some _ => _ | None => false end) eqn:Hg; [discriminate|].
  match goal with
  | |- context [calculateStockValuation showNumber net ?p] =>
      destruct (calculateStockValuation showNumber net p) as [r'|m] eqn:Hr;
      [|discriminate]
  end.
  intros [= <-]. destruct (request_fields_kept _ _ Hr) as [E1 [E2 E3]].
  rewrite E1, E2, E3. cbn [initialResult symbol market assumptions
                           marketGrowthRatePercent p_symbol p_market
                           p_marketGrowthRatePercent].
  split; [|split; [|split]].
  - destruct sym as [s|]; [|discriminate]. now exists s.
  - destruct mkt as [mk|]; cbn [truthyKey] in *; [|now left].
    destruct (isEmpty mk); cbn [negb andb] in *; [now left|].
    apply negb_false_iff, market_check in Hm. exact Hm.
  - intros Ht. rewrite Ht. destruct mkt; [reflexivity|discriminate].
  - destruct growth as [raw|]; [|reflexivity].
    destruct raw; [discriminate Hg|reflexivity].
Qed.

Lemma mapIndexed_nth {A B} (f : A -> nat -> B) start l i :
  nth_error (mapIndexed f start l) i
  = option_map (fun x => f x (start + i)%nat) (nth_error l i).
Proof.
  revert start i. induction l as [|x l IH]; intros start [|i]; cbn; try reflexivity.
  - now rewrite Nat.add_0_r.
  - rewrite IH. now rewrite Nat.add_succ_r.
Qed.

(** The list of markets of line 217 when the query has none. *)
Lemma default_markets (l : list string) (i : nat) :
  match nth_error (map (fun _ => "US") l) i with
  | Some m => if isEmpty m then "US" else m
  | None => "US"
  end = "US".
Proof. revert i. induction l as [|x l IH]; intros [|i]; cbn; auto. Qed.

(** The symbols of a batch: the pieces between commas, trimmed, without
    the empty ones. *)
Definition symbolsOf (syms : string) : list string :=
  filter (fun s => negb (isEmpty s)) (map trim (split ","%char syms)).

(** X19.  A batch that is answered has at least one symbol, reports as
    many results as symbols, in their order, and every entry is a full
    valuation result (never the object of the [.catch] handler): for the
    symbol in upper case, for the market at the same position of the
    list of markets or 'US' when that list is absent, too short or has an
    empty piece there, and with the growth rate parsed to a number, or 10
    when it parses to zero or NaN. *)
Theorem batchValuation_results
    (symbols markets finnhubApiKey alphaVantageApiKey : option string)
    (growth : jsval) (n : nat) (results : list BatchItem) :
  batchValuation showNumber net symbols markets finnhubApiKey alphaVantageApiKey growth
  = BatchOk n results ->
  exists syms,
    symbols = Some syms
    /\ truthyKey finnhubApiKey = true
    /\ (0 < n)%nat /\ n = List.length (symbolsOf syms) /\ List.length results = n
    /\ forall i s, nth_error (symbolsOf syms) i = Some s ->
        exists r,
          nth_error results i = Some (ItemResult r)
          /\ symbol r = toUpperCase s
          /\ market r
             = match markets with
               | Some ms =>
                   if isEmpty ms then "US"%string
                   else match nth_error (map trim (split ","%char ms)) i with
                        | Some m => if isEmpty m then "US"%string else m
                        | None => "US"%string
                        end
               | None => "US"%string
               end
          /\ marketGrowthRatePercent (assumptions r)
             = JNum (if truthyNum (parseFloat growth) then parseFloat growth
                     else Fin 10).
Proof.
  unfold batchValuation.
  destruct finnhubApiKey as [key|]; [|discriminate].
  destruct symbols as [syms|]; [|discriminate].
  destruct (isEmpty key) eqn:Hkey; [discriminate|]. cbn [orb].
  destruct (isEmpty syms) eqn:Hsyms; [discriminate|].
  fold (symbolsOf syms).
  destruct (symbolsOf syms) as [|s0 rest] eqn:Hlist; [discriminate|].
  intros [= <- <-]. exists syms. rewrite Hlist. unfold batchResults.
  rewrite mapIndexed_length.
  split; [reflexivity|]. split; [cbn; now rewrite Hkey|].
  split; [cbn; lia|]. split; [reflexivity|].
  split; [now rewrite mapIndexed_length|].
  intros i s Hs. rewrite mapIndexed_nth, Hs. cbn [option_map Nat.add].
  unfold valuationItem.
  match goal with
  | |- context [calculateStockValuation showNumber net ?p] =>
      destruct (calculateStockValuation_outcome showNumber net p) as [r [Hr _]]
  end.
  rewrite Hr. exists r. split; [reflexivity|].
  destruct (request_fields_kept _ _ Hr) as [E1 [E2 E3]].
  rewrite E1, E2, E3.
  cbn [initialResult symbol market assumptions marketGrowthRatePercent p_symbol
       p_market p_marketGrowthRatePercent].
  split; [reflexivity|]. split; [|reflexivity].
  destruct markets as [ms|]; cbn [truthyKey].
  - destruct (isEmpty ms); cbn [negb]; [|reflexivity].
    exact (default_markets (s0 :: rest) i).
  - exact (default_markets (s0 :: rest) i).
Qed.

End MoreProperties.

(* ================================================================= *)
(** ** What the valuation reads from the network *)

Section NetworkFrame.

Variable showNumber : number -> string.
Variables net1 net2 : Network.

Local Open Scope string_scope.
Local Open Scope stmt_scope.

Lemma getStockData_frame (s k : string) :
  net1 (quoteUrl s k) = net2 (quoteUrl s k) ->
  net1 (metricsUrl s k) = net2 (metricsUrl s k) ->
  net1 (financialsUrl s k) = net2 (financialsUrl s k) ->
  getStockData showNumber net1 s k = getStockData showNumber net2 s k.
Proof.
  intros H1 H2 H3.
  unfold getStockData, quoteBlock, metricsBlock, financialsBlock, fetchFinnhub.
  now rewrite H1, H2, H3.
Qed.

(** X20.  The valuation reads four addresses and nothing else: the
    quote, the metrics and the reported financials of the first provider
    and, when the request has a non-empty key for it, the estimates of
    the second.  Two networks that answer alike at these addresses give
    the same result. *)
Theorem calculateStockValuation_reads_four_urls (params : Params) :
  net1 (quoteUrl (p_symbol params) (p_finnhubApiKey params))
  = net2 (quoteUrl (p_symbol params) (p_finnhubApiKey params)) ->
  net1 (metricsUrl (p_symbol params) (p_finnhubApiKey params))
  = net2 (metricsUrl (p_symbol params) (p_finnhubApiKey params)) ->
  net1 (financialsUrl (p_symbol params) (p_finnhubApiKey params))
  = net2 (financialsUrl (p_symbol params) (p_finnhubApiKey params)) ->
  (forall key, p_alphaVantageApiKey params = Some key -> isEmpty key = false ->
     net1 (estimatesUrl (p_symbol params) key)
     = net2 (estimatesUrl (p_symbol params) key)) ->
  calculateStockValuation showNumber net1 params
  = calculateStockValuation showNumber net2 params.
Proof.
  intros H1 H2 H3 H4.
  assert (Hf : fetchStage showNumber net1 params (initialResult params)
               = fetchStage showNumber net2 params (initialResult params)).
  { unfold fetchStage. run_block. fields.
    rewrite (getStockData_frame _ _ H1 H2 H3).
    destruct (getStockData showNumber net2 (p_symbol params) (p_finnhubApiKey params))
      as [sd|m] eqn:Hsd; [|reflexivity].
    destruct (getStockData_Normal _ _ _ _ _ Hsd) as [_ [He _]].
    rewrite He. cbn [isFinite negb andb].
    destruct (p_alphaVantageApiKey params) as [key|] eqn:Hk; cbn [truthyKey];
      [|reflexivity].
    destruct (isEmpty key) eqn:Hkey; cbn [negb]; [reflexivity|].
    unfold getEstimatedEpsFromAlphaVantage, fetchAlphaVantage.
    now rewrite (H4 key eq_refl Hkey). }
  unfold calculateStockValuation, valuationBody, tryCatchM. unfold bindM at 1 3.
  now rewrite Hf.
Qed.


End NetworkFrame.

(* ================================================================= *)
(** ** Worked examples *)

Module Examples.

Local Open Scope string_scope.

(** A rendering of numbers for the examples: integers in decimal, other
    finite values as a fraction. *)
Definition showFraction (n : number) : string :=
  match n with
  | NaN => "NaN"
  | PosInf => "Infinity"
  | NegInf => "-Infinity"
  | NegZero => "0"
  | Fin q =>
      let r := Qred q in
      NilZero.string_of_int (Z.to_int (Qnum r))
      ++ match Qden r with
         | xH => ""
         | d => "/" ++ NilZero.string_of_uint (Pos.to_uint d)
         end
  end.

(** A network given by a table; any other URL is unreachable. *)
Fixpoint netOf (table : list (string * HttpOutcome)) : Network :=
  fun url =>
    match table with
    | [] => FetchRejected "fetch failed"
    | (u, outcome) :: rest => if String.eqb url u then outcome else netOf rest url
    end.

Definition ok (v : jsval) : HttpOutcome := HttpResponse 200 (Normal v).

Definition dec (n : Z) (d : positive) : jsval := JNum (Fin (n # d)).

Definition estimatesOf (date average : string) : jsval :=
  JObj [("estimates",
         JArr [JObj [("date", JStr date); ("eps_estimate_average", JStr average)]])].

(** The providers of the examples.
    - AAPL: the fundamentals of the worked example, growing.
    - SLOW: no reported PE, and a forward EPS below the trailing one.
    - CASH: a beta that is the number 0; CASHS: the same as the string "0".
    - LOSS: a trailing EPS of 0 and a filing with a net income.
    - BADSYM: a quote without a price. *)
Definition provider : Network :=
  netOf
    [ (quoteUrl "AAPL" "k", ok (JObj [("c", dec 15025 100)]));
      (metricsUrl "AAPL" "k",
       ok (JObj [("metric", JObj [("peTTM", dec 283 10); ("epsTTM", dec 531 100);
                                  ("beta", dec 115 100)])]));
      (estimatesUrl "AAPL" "a", ok (estimatesOf "2025-09-30" "6.05"));
      (quoteUrl "SLOW" "k", ok (JObj [("c", dec 100 1)]));
      (metricsUrl "SLOW" "k",
       ok (JObj [("metric", JObj [("epsTTM", dec 10 1); ("beta", dec 12 10)])]));
      (estimatesUrl "SLOW" "a", ok (estimatesOf "2025-12-31" "5"));
      (quoteUrl "CASH" "k", ok (JObj [("c", dec 50 1)]));
      (metricsUrl "CASH" "k",
       ok (JObj [("metric", JObj [("peTTM", dec 20 1); ("epsTTM", dec 2 1);
                                  ("beta", dec 0 1)])]));
      (estimatesUrl "CASH" "a", ok (estimatesOf "2025-12-31" "3"));
      (quoteUrl "CASHS" "k", ok (JObj [("c", dec 50 1)]));
      (metricsUrl "CASHS" "k",
       ok (JObj [("metric", JObj [("peTTM", dec 20 1); ("epsTTM", dec 2 1);
                                  ("beta", JStr "0")])]));
      (estimatesUrl "CASHS" "a", ok (estimatesOf "2025-12-31" "3"));
      (quoteUrl "LOSS" "k", ok (JObj [("c", dec 10 1)]));
      (metricsUrl "LOSS" "k", ok (JObj [("metric", JObj [("epsTTM", dec 0 1)])]));
      (financialsUrl "LOSS" "k",
       ok (JObj [("data",
                  JArr [JObj [("report",
                               JObj [("ic", JObj [("NetIncomeLoss", dec 1000 1)])])]])]));
      (quoteUrl "BADSYM" "k", ok (JObj [("c", dec 0 1)])) ].

Definition request (sym : string) : Params :=
  {| p_symbol := sym; p_finnhubApiKey := "k"; p_alphaVantageApiKey := Some "a";
     p_market := None; p_marketGrowthRatePercent := None |}.

Definition valuation (sym : string) : Completion ValuationResult :=
  calculateStockValuation showFraction provider (request sym).

(** The result of a valuation that returned. *)
Definition resultOf (c : Completion ValuationResult) : ValuationResult :=
  match c with
  | Normal r => r
  | Throw _ => initialResult (request "")
  end.

Definition resultAAPL : ValuationResult := Eval vm_compute in resultOf (valuation "AAPL").
Definition resultSLOW : ValuationResult := Eval vm_compute in resultOf (valuation "SLOW").

Example valuation_AAPL : valuation "AAPL" = Normal resultAAPL.
Proof. vm_compute. reflexivity. Qed.

Example valuation_SLOW : valuation "SLOW" = Normal resultSLOW.
Proof. vm_compute. reflexivity. Qed.

Example resultAAPL_fields :
  valuationPossible resultAAPL = true
  /\ growthRate resultAAPL = Some (Fin (74 # 531))
  /\ stockPeg resultAAPL = Some (Fin (150273 # 74000))
  /\ fairValue resultAAPL = Some (Fin (712584665 # 4057371))
  /\ warnings resultAAPL = ["Estimated EPS from Alpha Vantage for period 2025-09-30"].
Proof. vm_compute. repeat split. Qed.

Definition resultBADSYM : ValuationResult :=
  Eval vm_compute in resultOf (valuation "BADSYM").

Example valuation_BADSYM : valuation "BADSYM" = Normal resultBADSYM.
Proof. vm_compute. reflexivity. Qed.

Example resultSLOW_fields :
  actualEps resultSLOW = Some (Fin 10)
  /\ estimatedEps resultSLOW = Some (Fin 5)
  /\ growthRate resultSLOW = Some (Fin (-1 # 2))
  /\ stockPe resultSLOW = Some (Fin 10)
  /\ valuationPossible resultSLOW = false
  /\ warnings resultSLOW
     = ["Estimated EPS from Alpha Vantage for period 2025-12-31";
        warnDerivedPe; warnNonPositive].
Proof. vm_compute. repeat split. Qed.

(** C4 fails on the code.  For the request of AAPL, which leaves
    [marketGrowthRatePercent] to its default 10 (the result records it
    under [assumptions]), the result has [marketPe = 29] and
    [marketPeg = 29 / 13.5 = 58/27], not [marketPe / 10 = 29/10]. *)
Theorem marketPeg_ignores_growth_percent :
  exists r,
    calculateStockValuation showFraction provider (request "AAPL") = Normal r
    /\ marketGrowthRatePercent (assumptions r) = JNum (Fin 10)
    /\ marketPe r = Some (Fin 29)
    /\ marketPeg r = Some (Fin (58 # 27))
    /\ div (Fin 29) (Fin 10) = Fin (29 # 10).
Proof. exists resultAAPL. vm_compute. repeat split. Qed.

(** C7 fails on the code.  The metrics of CASH carry [beta: 0], a value
    that is present, finite and [>= 0], so it passes the validation of
    line 127; the result nonetheless has the default beta 1.0, with the
    warning and [betaFallbackUsed = true], because line 125 tests the raw
    value for truthiness.  The same beta sent as the string "0" is kept. *)
Theorem beta_zero_takes_default :
  isFiniteNum (parseFloat (dec 0 1)) = true
  /\ ltb (parseFloat (dec 0 1)) (Fin 0) = false
  /\ (exists r,
        calculateStockValuation showFraction provider (request "CASH") = Normal r
        /\ beta r = Some (Fin 1)
        /\ betaFallbackUsed r = true
        /\ In "Beta value unavailable; using default beta = 1.0" (warnings r))
  /\ (exists r,
        calculateStockValuation showFraction provider (request "CASHS") = Normal r
        /\ beta r = Some (Fin 0)
        /\ betaFallbackUsed r = false).
Proof.
  split; [reflexivity|]. split; [reflexivity|]. split.
  - exists (resultOf (valuation "CASH")). vm_compute. repeat split. now left.
  - exists (resultOf (valuation "CASHS")). vm_compute. repeat split.
Qed.


(** C9 as stated fails: in the batch of AAPL and BADSYM, whose quote has
    no valid price, the entry of BADSYM is not an object
    [{symbol, error, valuationPossible: false}]. *)
Lemma failing_ticker_is_not_an_error_item :
  ~ (forall showNumber net key alphaKey growth symbols markets bad m,
       In bad symbols ->
       fst (quoteBlock showNumber net (toUpperCase bad) key initialStockData) = Throw m ->
       exists e,
         In (ItemError bad e false)
            (batchResults showNumber net key alphaKey growth symbols markets)).
Proof.
  intros H.
  destruct (H showFraction provider "k" (Some "a") JUndefined
              ["AAPL"; "BADSYM"] ["US"; "US"] "BADSYM"
              "Failed to get quote for BADSYM: Invalid price for BADSYM: 0")
    as [e He].
  - right. now left.
  - vm_compute. reflexivity.
  - vm_compute in He. destruct He as [He|[He|[]]]; discriminate.
Qed.

(** *** The theorems at work *)

Lemma valuationPossible_invariant_witness :
  (valuationPossible resultAAPL = true ->
     (exists v, fairValue resultAAPL = Some v)
     /\ (exists v, stockPeg resultAAPL = Some v /\ ltb (Fin 0) v = true)
     /\ (exists v, marketPeg resultAAPL = Some v)
     /\ (exists v, growthRate resultAAPL = Some v /\ ltb (Fin 0) v = true)
     /\ (exists v, stockPe resultAAPL = Some v /\ ltb (Fin 0) v = true))
  /\ (valuationPossible resultAAPL = false -> fairValue resultAAPL = None).
Proof.
  apply (valuationPossible_invariant showFraction provider (request "AAPL")).
  vm_compute. reflexivity.
Defined.

Lemma calculateStockValuation_total_witness :
  exists r,
    calculateStockValuation showFraction provider (request "BADSYM") = Normal r
    /\ valuationPossible r = false /\ fairValue r = None
    /\ warnings r
       = ["Error during calculation: Failed to get quote for BADSYM: Invalid price for BADSYM: 0"].
Proof.
  destruct (calculateStockValuation_total showFraction provider (request "BADSYM"))
    as [r [Hr [Hfatal _]]].
  exists r. split; [exact Hr|].
  apply (Hfatal "Failed to get quote for BADSYM: Invalid price for BADSYM: 0").
  vm_compute. reflexivity.
Defined.

Lemma fairValue_formula_witness :
  exists price mPeg b sPeg,
    currentPrice resultAAPL = Some price /\ marketPeg resultAAPL = Some mPeg
    /\ beta resultAAPL = Some b /\ stockPeg resultAAPL = Some sPeg
    /\ fairValue resultAAPL =
        Some (mul price
                (div (add mPeg (mul (mul (sub b (Fin 1)) (Fin (7 # 10))) mPeg)) sPeg))
    /\ fairValue resultAAPL =
        Some (div (mul price
                     (add mPeg (mul (mul (sub b (Fin 1)) (Fin (7 # 10))) mPeg)))
                sPeg).
Proof.
  apply (fairValue_formula showFraction provider (request "AAPL"));
    vm_compute; reflexivity.
Defined.

Lemma no_valuation_without_growth_witness :
  valuationPossible resultSLOW = false /\ fairValue resultSLOW = None.
Proof.
  apply (no_valuation_without_growth showFraction provider (request "SLOW"));
    vm_compute; reflexivity.
Defined.






Lemma batch_failure_is_isolated_witness :
  let others :=
    batchResults showFraction provider "k" (Some "a") JUndefined
      (["AAPL"] ++ []) (["US"] ++ []) in
  exists r,
    batchResults showFraction provider "k" (Some "a") JUndefined
      (["AAPL"] ++ "BADSYM" :: []) (["US"] ++ "US" :: [])
    = (firstn (List.length ["AAPL"]) others
       ++ ItemResult r :: skipn (List.length ["AAPL"]) others)%list
    /\ symbol r = toUpperCase "BADSYM"
    /\ valuationPossible r = false /\ fairValue r = None
    /\ warnings r
       = ["Error during calculation: Failed to get quote for BADSYM: Invalid price for BADSYM: 0"].
Proof.
  apply (batch_failure_is_isolated showFraction provider "k" (Some "a") JUndefined
           ["AAPL"] [] "BADSYM" ["US"] [] "US"
           "Failed to get quote for BADSYM: Invalid price for BADSYM: 0").
  - reflexivity.
  - vm_compute. reflexivity.
Defined.

Definition quotedLOSS : StockData :=
  Eval vm_compute in snd (quoteBlock showFraction provider "LOSS" "k" initialStockData).

Definition metricsLOSS : StockData :=
  Eval vm_compute in snd (metricsBlock provider "LOSS" "k" quotedLOSS).

Lemma zero_eps_takes_net_income_fallback_witness :
  exists d,
    getStockData showFraction provider "LOSS" "k" = Normal d
    /\ sd_actualEps d = Some (Fin 1000)
    /\ In "Actual EPS derived from reported net income (not per share basis)."
          (sd_warnings d).
Proof.
  destruct (zero_eps_takes_net_income_fallback showFraction provider "LOSS" "k"
              quotedLOSS metricsLOSS (Fin 0))
    as [d [Hd [_ [Hincome _]]]]; try (vm_compute; reflexivity).
  exists d. split; [exact Hd|].
  apply (Hincome
           (JObj [("data",
                   JArr [JObj [("report",
                                JObj [("ic", JObj [("NetIncomeLoss", dec 1000 1)])])]])])
           (JObj [("report", JObj [("ic", JObj [("NetIncomeLoss", dec 1000 1)])])])
           []
           (JObj [("ic", JObj [("NetIncomeLoss", dec 1000 1)])])
           (JObj [("NetIncomeLoss", dec 1000 1)])
           (dec 1000 1));
    vm_compute; reflexivity.
Defined.

End Examples.

(* ================================================================= *)
(** ** Further worked examples *)

Module MoreExamples.

Import Examples.

Local Open Scope string_scope.

(** The stock data of a run that returned. *)
Definition stockOf (c : Completion StockData) : StockData :=
  match c with
  | Normal d => d
  | Throw _ => initialStockData
  end.

Definition stockAAPL : StockData :=
  Eval vm_compute in stockOf (getStockData showFraction provider "AAPL" "k").


(** Providers at the edges.
    - NOMET: a quote, and no answer for the metrics.
    - ZERO: a reported PE with a trailing EPS of 0, and no filing.
    - NEGB: a negative beta. *)
Definition metricsNEGB : jsval :=
  JObj [("peTTM", dec 20 1); ("epsTTM", dec 2 1); ("beta", dec (-1) 1)].

Definition edge : Network :=
  netOf
    [ (quoteUrl "NOMET" "k", ok (JObj [("c", dec 10 1)]));
      (quoteUrl "ZERO" "k", ok (JObj [("c", dec 10 1)]));
      (metricsUrl "ZERO" "k",
       ok (JObj [("metric", JObj [("peTTM", dec 20 1); ("epsTTM", dec 0 1);
                                  ("beta", dec 1 1)])]));
      (estimatesUrl "ZERO" "a", ok (estimatesOf "2025-12-31" "1"));
      (quoteUrl "NEGB" "k", ok (JObj [("c", dec 10 1)]));
      (metricsUrl "NEGB" "k", ok (JObj [("metric", metricsNEGB)])) ].

Definition stockNOMET : StockData :=
  Eval vm_compute in stockOf (getStockData showFraction edge "NOMET" "k").
Definition resultZERO : ValuationResult :=
  Eval vm_compute in resultOf (calculateStockValuation showFraction edge (request "ZERO")).

(** A request without a key of the second provider. *)
Definition requestNoKey : Params :=
  {| p_symbol := "AAPL"; p_finnhubApiKey := "k"; p_alphaVantageApiKey := None;
     p_market := Some "HK"; p_marketGrowthRatePercent := Some (JNum (Fin 12)) |}.

Definition resultNoKey : ValuationResult :=
  Eval vm_compute in resultOf (calculateStockValuation showFraction provider requestNoKey).


(** The provider of the examples, with one more address. *)
Definition withNews : Network :=
  fun url =>
    if String.eqb url "https://finnhub.io/api/v1/news?category=general"
    then ok (JArr [])
    else provider url.

(** The answer of the single route to [?symbol=aapl&finnhubApiKey=k&
    alphaVantageApiKey=a&market=HK&marketGrowthRatePercent=12]. *)
Definition routed : ValuationResult :=
  Eval vm_compute in
    match valuationRoute showFraction provider (Some "aapl") (Some "k") (Some "a")
            (Some "HK") (Some "12") None None with
    | Valued r => r
    | _ => initialResult (request "")
    end.

(** The answer of the batch route to [?symbols=aapl, slow&finnhubApiKey=k&
    alphaVantageApiKey=a]. *)
Definition batched : list BatchItem :=
  Eval vm_compute in
    match batchValuation showFraction provider (Some "aapl, slow") None (Some "k")
            (Some "a") JUndefined with
    | BatchOk _ results => results
    | BadRequest _ => []
    end.



Lemma getStockData_survives_metrics_failure_witness :
  sd_pe stockNOMET = None
  /\ sd_beta stockNOMET = Some (Fin 1)
  /\ In "Could not fetch metrics; some data may be unavailable: Finnhub API call failed: fetch failed"
        (sd_warnings stockNOMET)
  /\ In "Beta value unavailable; using default beta = 1.0" (sd_warnings stockNOMET).
Proof.
  apply (getStockData_survives_metrics_failure showFraction edge "NOMET" "k" stockNOMET
           "Finnhub API call failed: fetch failed");
    vm_compute; reflexivity.
Defined.


Lemma result_carries_stock_data_witness :
  (exists ws, warnings resultAAPL = (sd_warnings stockAAPL ++ ws)%list)
  /\ currentPrice resultAAPL = sd_price stockAAPL
  /\ beta resultAAPL = sd_beta stockAAPL
  /\ actualEps resultAAPL = sd_actualEps stockAAPL.
Proof.
  apply (result_carries_stock_data showFraction provider (request "AAPL"));
    vm_compute; reflexivity.
Defined.



Lemma no_forward_estimate_without_key_witness :
  estimatedEps resultNoKey = None /\ growthRate resultNoKey = None
  /\ fairValue resultNoKey = None
  /\ hasForwardEps resultNoKey = false /\ valuationPossible resultNoKey = false.
Proof.
  apply (no_forward_estimate_without_key showFraction provider requestNoKey);
    vm_compute; reflexivity.
Defined.

Lemma result_echoes_request_witness :
  symbol resultNoKey = "AAPL"
  /\ market resultNoKey = "HK"
  /\ marketGrowthRatePercent (assumptions resultNoKey) = JNum (Fin 12)
  /\ hd_error (notes (assumptions resultNoKey))
     = Some ("Market PE obtained from "
             ++ (if String.eqb (market resultNoKey) "HK" then "2800" else "SPY")
             ++ " ETF via Finnhub").
Proof.
  apply (result_echoes_request showFraction provider requestNoKey).
  vm_compute. reflexivity.
Defined.

Lemma impossible_valuation_is_explained_witness :
  exists ws w,
    warnings resultSLOW = (ws ++ [w])%list
    /\ (w = warnMissingEps \/ w = warnCannotPe \/ w = warnNonPositive \/ w = warnPeg
        \/ exists m, w = "Error during calculation: " ++ m).
Proof.
  apply (impossible_valuation_is_explained showFraction provider (request "SLOW"));
    vm_compute; reflexivity.
Defined.

Lemma possible_valuation_has_growing_earnings_witness :
  exists a e pe g,
    actualEps resultAAPL = Some a /\ estimatedEps resultAAPL = Some e
    /\ stockPe resultAAPL = Some pe /\ growthRate resultAAPL = Some g
    /\ isFiniteNum a = true /\ isFiniteNum e = true
    /\ ltb (Fin 0) a = true /\ ltb a e = true
    /\ g = sub (div e a) (Fin 1) /\ isFiniteNum g = true
    /\ isFiniteNum pe = true /\ ltb (Fin 0) pe = true
    /\ stockPeg resultAAPL = Some (div pe (mul g (Fin 100))).
Proof.
  apply (possible_valuation_has_growing_earnings showFraction provider (request "AAPL"));
    vm_compute; reflexivity.
Defined.



Lemma last_check_stops_on_null_or_zero_peg_witness :
  (exists ws, warnings resultZERO = (ws ++ [warnPeg])%list)
  /\ fairValue resultZERO = None
  /\ ((isFinite (stockPe resultZERO) = false /\ stockPeg resultZERO = None)
      \/ (isFinite (stockPe resultZERO) = true /\ stockPeg resultZERO = Some (Fin 0))).
Proof.
  apply (last_check_stops_on_null_or_zero_peg showFraction edge (request "ZERO"));
    vm_compute; reflexivity.
Defined.

Lemma calculatePeg_never_negative_witness :
  finitePositive (Fin 20)
  /\ leb PosInf (Fin 0) = false
  /\ Fin 0 = div (Fin 20) (mul PosInf (Fin 100))
  /\ isNaN (Fin 0) = isNaN PosInf
  /\ ltb (Fin 0) (Fin 0) = false
  /\ (isNaN PosInf = false -> leb (Fin 0) (Fin 0) = true)
  /\ (PosInf = PosInf -> Fin 0 = Fin 0).
Proof.
  apply (calculatePeg_never_negative (Some (Fin 20)) (Some PosInf) (Fin 0)).
  vm_compute. reflexivity.
Defined.

Lemma valuationRoute_echo_witness :
  (exists s, Some "aapl" = Some s /\ symbol routed = toUpperCase s)
  /\ (market routed = "US" \/ market routed = "HK")
  /\ (truthyKey (Some "HK") = true -> Some (market routed) = Some "HK")
  /\ marketGrowthRatePercent (assumptions routed) = JStr "12".
Proof.
  apply (valuationRoute_echo showFraction provider (Some "aapl") (Some "k") (Some "a")
           (Some "HK") (Some "12") None None routed).
  vm_compute. reflexivity.
Defined.

Lemma batchValuation_results_witness :
  exists syms,
    Some "aapl, slow" = Some syms
    /\ truthyKey (Some "k") = true
    /\ (0 < 2)%nat /\ 2%nat = List.length (symbolsOf syms)
    /\ List.length batched = 2%nat
    /\ forall i s, nth_error (symbolsOf syms) i = Some s ->
        exists r,
          nth_error batched i = Some (ItemResult r)
          /\ symbol r = toUpperCase s
          /\ market r = "US"
          /\ marketGrowthRatePercent (assumptions r)
             = JNum (if truthyNum (parseFloat JUndefined) then parseFloat JUndefined
                     else Fin 10).
Proof.
  apply (batchValuation_results showFraction provider (Some "aapl, slow") None
           (Some "k") (Some "a") JUndefined 2 batched).
  vm_compute. reflexivity.
Defined.

Lemma calculateStockValuation_reads_four_urls_witness :
  calculateStockValuation showFraction provider (request "AAPL")
  = calculateStockValuation showFraction withNews (request "AAPL").
Proof.
  apply (calculateStockValuation_reads_four_urls showFraction provider withNews
           (request "AAPL")); vm_compute; reflexivity.
Defined.


End MoreExamples.
